(** * surgeryBox firmware: event sequencer and UDP command channel

    A shallow embedding of [src/src/main.cpp] (events.cpp, signal_tester.cpp,
    main.cpp) and [src/src/wifi_udp_server.cpp].

    The firmware is single threaded and talks to the outside world through
    four sources of input: the UDP socket, the distance encoder, the random
    number generator and the serial console.  Each source is modelled as a
    stream indexed by the number of requests made so far; the state carries
    one cursor per stream.  Output (datagrams, brake and motor commands) is
    appended to an I/O history.

    Busy-waiting loops ([waitForCmd], [waitForCmdAny], [waitShortPull],
    [signalTesterLoop]) take a bound on the number of iterations.  A
    computation that exhausts the bound yields [None] together with the
    state reached so far, so that what was sent before the device blocked
    is still observable.  "Returns" means: some bound yields [Some]; "never
    returns" means: every bound yields [None].

    Distances are C [float]s in the source.  A reading is modelled by the
    rational number the [float] denotes (NaN and the infinities are left
    out).  Comparisons of readings and thresholds are exact.  The one
    arithmetic operation, [startDist + 0.5] of [waitShortPull], is a
    double-precision sum in C++: it is rounded as IEEE 754 prescribes
    ([Float.double]).
    Diagnostic output on the serial port ([Serial.printf]), the WiFi access
    point, the HTTP echo server and the initialisation of the drivers are
    not modelled. *)

From Stdlib Require Import ZArith NArith QArith Qabs Qpower Qround.
From Stdlib Require Import List String Ascii Bool Arith Lia.
Import ListNotations.

Local Open Scope string_scope.
Local Open Scope nat_scope.

(* ================================================================= *)
(** ** Arduino core: [String], [random] *)

Module Arduino.

(** [isspace] of the C locale: blank, \t, \n, \v, \f, \r. *)
Definition isspace (c : ascii) : bool :=
  let n := nat_of_ascii c in
  (n =? 32) || ((9 <=? n) && (n <=? 13)).

Fixpoint ltrim (s : string) : string :=
  match s with
  | EmptyString => EmptyString
  | String c r => if isspace c then ltrim r else s
  end.

Fixpoint rtrim (s : string) : string :=
  match s with
  | EmptyString => EmptyString
  | String c r =>
      match rtrim r with
      | EmptyString => if isspace c then EmptyString else String c EmptyString
      | r' => String c r'
      end
  end.

(** [String::trim]: drops leading and trailing white space. *)
Definition trim (s : string) : string := rtrim (ltrim s).

(** [String(const char* )]: the characters before the first NUL. *)
Fixpoint cstr (buf : list ascii) : string :=
  match buf with
  | [] => EmptyString
  | c :: r => if Ascii.eqb c zero then EmptyString else String c (cstr r)
  end.

(** [random(howsmall, howbig)] of WMath.cpp, as a function of the
    generator's draw. *)
Definition random_of (howsmall howbig : Z) (draw : N) : Z :=
  if (howbig <=? howsmall)%Z then howsmall
  else (Z.of_N draw mod (howbig - howsmall) + howsmall)%Z.

End Arduino.

(* ================================================================= *)
(** ** C++ arithmetic: [double] *)

Module Float.

(** The integer nearest to [q]; of two equally near, the even one. *)
Definition nearest_even (q : Q) : Z :=
  let f := Qfloor q in
  match Qcompare (q - inject_Z f) (1 # 2) with
  | Lt => f
  | Gt => (f + 1)%Z
  | Eq => if Z.even f then f else (f + 1)%Z
  end.

(** The exponent [e] with [2^e <= |q| < 2^(e+1)], for [q] other than 0. *)
Definition binade (q : Q) : Z :=
  let e := (Z.log2 (Z.abs (Qnum q)) - Z.log2 (Z.pos (Qden q)))%Z in
  if Qle_bool (2 ^ e)%Q (Qabs q) then e else (e - 1)%Z.

(** [q] rounded to [prec] significant bits: to nearest, ties to even. *)
Definition round (prec : Z) (q : Q) : Q :=
  if Qeq_bool q 0 then 0%Q
  else
    let ulp := (2 ^ (binade q - (prec - 1)))%Q in
    (inject_Z (nearest_even (q / ulp)) * ulp)%Q.

(** The result of a double-precision operation whose exact value is [q]
    (IEEE 754 binary64, 53 significant bits, default rounding).  The
    exponent range plays no part: the sum of a [float] and 0.5 is zero or
    of magnitude between 2^-25 and 2^129. *)
Definition double (q : Q) : Q := round 53 q.

End Float.

(** Assignment [l[i] = v] on a fixed-size array. *)
Fixpoint store {A : Type} (i : nat) (v : A) (l : list A) : list A :=
  match l, i with
  | [], _ => []
  | _ :: r, O => v :: r
  | x :: r, S j => x :: store j v r
  end.

(* ================================================================= *)
(** ** Environment and state *)

(** A datagram as [WiFiUDP] hands it over: [remoteIP()], [remotePort()]
    and the payload available to [read]. *)
Record Packet : Type := mkPacket {
  pk_ip : N;
  pk_port : N;
  pk_data : string
}.

Record Env : Type := mkEnv {
  (** [Udp.parsePacket()]: [None] when it returns 0. *)
  udp_in : nat -> option Packet;
  (** [readDistance()] of the encoder driver. *)
  dist_in : nat -> Q;
  (** draws of the random number generator. *)
  rand_in : nat -> N;
  (** [Serial.available()] / [Serial.read()]: [None] when nothing is
      available. *)
  serial_in : nat -> option ascii
}.

Inductive BrakeState : Type := Released | Locked | Weak.

Inductive Event : Type :=
| EvRecv (ip port : N) (data : string)
| EvSend (ip port : N) (msg : string)
| EvBrake (b : BrakeState)
| EvWind.

Record St : Type := mkSt {
  (* wifi_udp_server.cpp *)
  lastRemoteIp : N;
  lastRemotePort : N;
  packetBuffer : list ascii;
  (* events.cpp *)
  distanceArrays : list (list Q);
  currentArray : list Q;
  sequenceRunning : bool;
  (* signal_tester.cpp *)
  serialInputBuffer : string;
  (* servo_brake *)
  brake : BrakeState;
  (* cursors into the environment *)
  udp_next : nat;
  dist_next : nat;
  rand_next : nat;
  serial_next : nat;
  (* I/O history, oldest first *)
  trace : list Event
}.

(** Globals as the C++ runtime initialises them: zero-filled arrays, an
    unset [IPAddress], [sequenceRunning = false].  The position of the
    servo at power-up is a parameter. *)
Definition boot (b : BrakeState) : St :=
  {| lastRemoteIp := 0%N; lastRemotePort := 0%N;
     packetBuffer := repeat zero 255;
     distanceArrays := repeat (repeat 0%Q 4) 10;
     currentArray := repeat 0%Q 4;
     sequenceRunning := false;
     serialInputBuffer := "";
     brake := b;
     udp_next := 0; dist_next := 0; rand_next := 0; serial_next := 0;
     trace := [] |}.

(* ================================================================= *)
(** ** The monad of firmware computations *)

Definition M (A : Type) : Type := St -> option A * St.

Definition ret {A} (a : A) : M A := fun s => (Some a, s).

Definition bind {A B} (m : M A) (f : A -> M B) : M B :=
  fun s => match m s with
           | (Some a, s') => f a s'
           | (None, s') => (None, s')
           end.

(** The iteration bound is exhausted: the device is still waiting. *)
Definition blocked {A} : M A := fun s => (None, s).

Definition gets {A} (f : St -> A) : M A := fun s => (Some (f s), s).
Definition modify (f : St -> St) : M unit := fun s => (Some tt, f s).

Declare Scope fw_scope.
Delimit Scope fw_scope with fw.
Notation "x <- m ;; k" := (bind m (fun x => k))
  (at level 61, m at next level, right associativity) : fw_scope.
Notation "m ;; k" := (bind m (fun _ => k))
  (at level 61, right associativity) : fw_scope.
Local Open Scope fw_scope.

Definition when (b : bool) (m : M unit) : M unit := if b then m else ret tt.

Fixpoint for_each (l : list nat) (body : nat -> M unit) : M unit :=
  match l with
  | [] => ret tt
  | i :: r => body i ;; for_each r body
  end.

(** State after a computation, and its outcome. *)
Definition exec {A} (m : M A) (s : St) : St := snd (m s).
Definition outcome {A} (m : M A) (s : St) : option A := fst (m s).

(* ----------------------------------------------------------------- *)
(** *** Field updates *)

Definition set_remote (ip port : N) (s : St) : St :=
  {| lastRemoteIp := ip; lastRemotePort := port;
     packetBuffer := packetBuffer s;
     distanceArrays := distanceArrays s; currentArray := currentArray s;
     sequenceRunning := sequenceRunning s;
     serialInputBuffer := serialInputBuffer s; brake := brake s;
     udp_next := udp_next s; dist_next := dist_next s;
     rand_next := rand_next s; serial_next := serial_next s;
     trace := trace s |}.

Definition set_packetBuffer (b : list ascii) (s : St) : St :=
  {| lastRemoteIp := lastRemoteIp s; lastRemotePort := lastRemotePort s;
     packetBuffer := b;
     distanceArrays := distanceArrays s; currentArray := currentArray s;
     sequenceRunning := sequenceRunning s;
     serialInputBuffer := serialInputBuffer s; brake := brake s;
     udp_next := udp_next s; dist_next := dist_next s;
     rand_next := rand_next s; serial_next := serial_next s;
     trace := trace s |}.

Definition set_distanceArrays (d : list (list Q)) (s : St) : St :=
  {| lastRemoteIp := lastRemoteIp s; lastRemotePort := lastRemotePort s;
     packetBuffer := packetBuffer s;
     distanceArrays := d; currentArray := currentArray s;
     sequenceRunning := sequenceRunning s;
     serialInputBuffer := serialInputBuffer s; brake := brake s;
     udp_next := udp_next s; dist_next := dist_next s;
     rand_next := rand_next s; serial_next := serial_next s;
     trace := trace s |}.

Definition set_currentArray (c : list Q) (s : St) : St :=
  {| lastRemoteIp := lastRemoteIp s; lastRemotePort := lastRemotePort s;
     packetBuffer := packetBuffer s;
     distanceArrays := distanceArrays s; currentArray := c;
     sequenceRunning := sequenceRunning s;
     serialInputBuffer := serialInputBuffer s; brake := brake s;
     udp_next := udp_next s; dist_next := dist_next s;
     rand_next := rand_next s; serial_next := serial_next s;
     trace := trace s |}.

Definition set_sequenceRunning (r : bool) (s : St) : St :=
  {| lastRemoteIp := lastRemoteIp s; lastRemotePort := lastRemotePort s;
     packetBuffer := packetBuffer s;
     distanceArrays := distanceArrays s; currentArray := currentArray s;
     sequenceRunning := r;
     serialInputBuffer := serialInputBuffer s; brake := brake s;
     udp_next := udp_next s; dist_next := dist_next s;
     rand_next := rand_next s; serial_next := serial_next s;
     trace := trace s |}.

Definition set_serialInputBuffer (b : string) (s : St) : St :=
  {| lastRemoteIp := lastRemoteIp s; lastRemotePort := lastRemotePort s;
     packetBuffer := packetBuffer s;
     distanceArrays := distanceArrays s; currentArray := currentArray s;
     sequenceRunning := sequenceRunning s;
     serialInputBuffer := b; brake := brake s;
     udp_next := udp_next s; dist_next := dist_next s;
     rand_next := rand_next s; serial_next := serial_next s;
     trace := trace s |}.

Definition set_brake (b : BrakeState) (s : St) : St :=
  {| lastRemoteIp := lastRemoteIp s; lastRemotePort := lastRemotePort s;
     packetBuffer := packetBuffer s;
     distanceArrays := distanceArrays s; currentArray := currentArray s;
     sequenceRunning := sequenceRunning s;
     serialInputBuffer := serialInputBuffer s; brake := b;
     udp_next := udp_next s; dist_next := dist_next s;
     rand_next := rand_next s; serial_next := serial_next s;
     trace := trace s |}.

Definition step_udp (s : St) : St :=
  {| lastRemoteIp := lastRemoteIp s; lastRemotePort := lastRemotePort s;
     packetBuffer := packetBuffer s;
     distanceArrays := distanceArrays s; currentArray := currentArray s;
     sequenceRunning := sequenceRunning s;
     serialInputBuffer := serialInputBuffer s; brake := brake s;
     udp_next := S (udp_next s); dist_next := dist_next s;
     rand_next := rand_next s; serial_next := serial_next s;
     trace := trace s |}.

Definition step_dist (s : St) : St :=
  {| lastRemoteIp := lastRemoteIp s; lastRemotePort := lastRemotePort s;
     packetBuffer := packetBuffer s;
     distanceArrays := distanceArrays s; currentArray := currentArray s;
     sequenceRunning := sequenceRunning s;
     serialInputBuffer := serialInputBuffer s; brake := brake s;
     udp_next := udp_next s; dist_next := S (dist_next s);
     rand_next := rand_next s; serial_next := serial_next s;
     trace := trace s |}.

Definition step_rand (s : St) : St :=
  {| lastRemoteIp := lastRemoteIp s; lastRemotePort := lastRemotePort s;
     packetBuffer := packetBuffer s;
     distanceArrays := distanceArrays s; currentArray := currentArray s;
     sequenceRunning := sequenceRunning s;
     serialInputBuffer := serialInputBuffer s; brake := brake s;
     udp_next := udp_next s; dist_next := dist_next s;
     rand_next := S (rand_next s); serial_next := serial_next s;
     trace := trace s |}.

Definition step_serial (s : St) : St :=
  {| lastRemoteIp := lastRemoteIp s; lastRemotePort := lastRemotePort s;
     packetBuffer := packetBuffer s;
     distanceArrays := distanceArrays s; currentArray := currentArray s;
     sequenceRunning := sequenceRunning s;
     serialInputBuffer := serialInputBuffer s; brake := brake s;
     udp_next := udp_next s; dist_next := dist_next s;
     rand_next := rand_next s; serial_next := S (serial_next s);
     trace := trace s |}.

Definition emit (e : Event) (s : St) : St :=
  {| lastRemoteIp := lastRemoteIp s; lastRemotePort := lastRemotePort s;
     packetBuffer := packetBuffer s;
     distanceArrays := distanceArrays s; currentArray := currentArray s;
     sequenceRunning := sequenceRunning s;
     serialInputBuffer := serialInputBuffer s; brake := brake s;
     udp_next := udp_next s; dist_next := dist_next s;
     rand_next := rand_next s; serial_next := serial_next s;
     trace := trace s ++ [e] |}.

Definition Qltb (x y : Q) : bool := negb (Qle_bool y x).

Section Firmware.

Variable env : Env.

(* =============================================================== *)
(** ** External collaborators *)

(** [Udp.parsePacket()]: the next datagram, if any.  Its arrival is
    recorded in the I/O history. *)
Definition Udp_parsePacket : M (option Packet) :=
  fun s =>
    match udp_in env (udp_next s) with
    | None => (Some None, step_udp s)
    | Some pk =>
        (Some (Some pk),
         emit (EvRecv (pk_ip pk) (pk_port pk) (pk_data pk)) (step_udp s))
    end.

(** [Udp.read(packetBuffer, n)]: copies at most [n] bytes of the
    payload to the front of [packetBuffer], returns their number. *)
Definition Udp_read (pk : Packet) (n : nat) : M nat :=
  fun s =>
    let chunk := firstn n (list_ascii_of_string (pk_data pk)) in
    (Some (List.length chunk),
     set_packetBuffer (chunk ++ skipn (List.length chunk) (packetBuffer s))%list s).

(** [Udp.beginPacket; Udp.write; Udp.endPacket].  The I/O history
    records the [String] handed to [sendUDPMessage]; [Udp.write] is given
    its [c_str()], so the datagram carries the characters before the
    first NUL: all of them for a literal and for a received message
    ([String(packetBuffer)] holds no NUL).  Only a console line can hold
    one (see [nul_free]). *)
Definition Udp_send (ip port : N) (msg : string) : M unit :=
  modify (emit (EvSend ip port msg)).

(** Modelled from the spec: [readDistance()] of encoder.h is not among
    the sources; the Distance Source "produces the current pull
    distance as a scalar reading".  Both callers store the result in a
    [float]; [dist_in] gives the number that [float] denotes. *)
Definition readDistance : M Q :=
  fun s => (Some (dist_in env (dist_next s)), step_dist s).

Definition random (howsmall howbig : Z) : M Z :=
  fun s => (Some (Arduino.random_of howsmall howbig (rand_in env (rand_next s))),
            step_rand s).

(** [Serial.available()] followed, when positive, by [Serial.read()]. *)
Definition Serial_poll : M (option ascii) :=
  fun s => (Some (serial_in env (serial_next s)), step_serial s).

(** Modelled from the spec: servo_brake.h and motor.h are not among the
    sources; the Actuator "exposes discrete brake states (Released,
    Locked, Weak) and a one-shot rewind action", [set(state)] being
    synchronous. *)
Definition Actuator_set (b : BrakeState) : M unit :=
  modify (fun s => emit (EvBrake b) (set_brake b s)).
Definition servoBrakeLock : M unit := Actuator_set Locked.
Definition servoBrakeRelease : M unit := Actuator_set Released.
Definition servoBrakeWeak : M unit := Actuator_set Weak.
Definition motorWindBack : M unit := modify (emit EvWind).

(** [delay(ms)]: time is not part of the state. *)
Definition delay (ms : nat) : M unit := ret tt.

(* =============================================================== *)
(** ** wifi_udp_server.cpp *)

(** [static bool readIncomingUDP(String &msg)]: [Some msg] for
    [true], [None] for [false]. *)
Definition readIncomingUDP : M (option string) :=
  packet <- Udp_parsePacket ;;
  match packet with
  | None => ret None
  | Some pk =>
      modify (set_remote (pk_ip pk) (pk_port pk)) ;;
      len <- Udp_read pk (255 - 1) ;;
      when (0 <? len)
           (modify (fun s => set_packetBuffer (store len zero (packetBuffer s)) s)) ;;
      buf <- gets packetBuffer ;;
      ret (Some (Arduino.trim (Arduino.cstr buf)))
  end.

Definition sendUDPMessage (ip port : N) (msg : string) : M unit :=
  Udp_send ip port msg.

Definition sendUDPMessageToLast (msg : string) : M unit :=
  ip <- gets lastRemoteIp ;;
  if (ip =? 0)%N then ret tt
  else port <- gets lastRemotePort ;; sendUDPMessage ip port msg.

Definition sendSignal (sig : string) : M unit := sendUDPMessageToLast sig.

Fixpoint waitForCmd (fuel : nat) (target : string) : M unit :=
  match fuel with
  | O => blocked
  | S fuel' =>
      r <- readIncomingUDP ;;
      match r with
      | Some msg =>
          if (msg =? target)%string then ret tt
          else delay 10 ;; waitForCmd fuel' target
      | None => delay 10 ;; waitForCmd fuel' target
      end
  end.

(** The inner [for (auto &t : targets) if (msg == t) return msg;]. *)
Fixpoint matches_any (msg : string) (targets : list string) : bool :=
  match targets with
  | [] => false
  | t :: r => if (msg =? t)%string then true else matches_any msg r
  end.

Fixpoint waitForCmdAny (fuel : nat) (targets : list string) : M string :=
  match fuel with
  | O => blocked
  | S fuel' =>
      r <- readIncomingUDP ;;
      match r with
      | Some msg =>
          if matches_any msg targets then ret msg
          else delay 10 ;; waitForCmdAny fuel' targets
      | None => delay 10 ;; waitForCmdAny fuel' targets
      end
  end.

(** [while (readDistance() < startDist + 0.5) delay(10);]  The literal
    0.5 is a [double]: [startDist] is promoted, the sum is computed and
    rounded in double precision, and the reading is promoted for the
    comparison. *)
Fixpoint waitShortPull_loop (fuel : nat) (startDist : Q) : M unit :=
  match fuel with
  | O => blocked
  | S fuel' =>
      d <- readDistance ;;
      if Qltb d (Float.double (startDist + (1 # 2)))
      then delay 10 ;; waitShortPull_loop fuel' startDist
      else ret tt
  end.

Definition waitShortPull (fuel : nat) : M unit :=
  startDist <- readDistance ;;
  waitShortPull_loop fuel startDist.

(* =============================================================== *)
(** ** events.cpp *)

(** [distanceArrays[i][j] = v], the integer converted to [float]. *)
Definition set_distance (i j : nat) (v : Z) : M unit :=
  modify (fun s =>
    set_distanceArrays
      (store i (store j (inject_Z v) (nth i (distanceArrays s) []))
             (distanceArrays s)) s).

Definition eventsInit : M unit :=
  for_each (seq 0 10) (fun i =>
    r0 <- random 5 15 ;; set_distance i 0 r0 ;;
    r1 <- random 15 25 ;; set_distance i 1 r1 ;;
    r2 <- random 25 35 ;; set_distance i 2 r2 ;;
    r3 <- random 35 45 ;; set_distance i 3 r3).

Definition startEventSequence : M unit :=
  idx <- random 0 10 ;;
  for_each (seq 0 4) (fun i =>
    modify (fun s =>
      set_currentArray
        (store i (nth i (nth (Z.to_nat idx) (distanceArrays s) []) 0%Q)
               (currentArray s)) s)) ;;
  modify (set_sequenceRunning true).

(** [currentArray[i]] *)
Definition threshold (i : nat) : M Q :=
  gets (fun s => nth i (currentArray s) 0%Q).

Definition processEncoderEvents (fuel : nat) : M unit :=
  running <- gets sequenceRunning ;;
  if negb running then ret tt
  else
    dist <- readDistance ;;
    t0 <- threshold 0 ;;
    when (Qle_bool t0 dist) (sendUDPMessageToLast "Pain") ;;
    t1 <- threshold 1 ;;
    when (Qle_bool t1 dist) (sendUDPMessageToLast "Pain2") ;;
    t2 <- threshold 2 ;;
    when (Qle_bool t2 dist)
         (sendUDPMessageToLast "HighDamp" ;;
          servoBrakeLock ;;
          waitForCmd fuel "OK" ;;
          servoBrakeRelease) ;;
    t3 <- threshold 3 ;;
    when (Qle_bool t3 dist)
         (sendUDPMessageToLast "LowDamp" ;;
          servoBrakeWeak ;;
          cmd <- waitForCmdAny fuel ["OK1"; "Continue"] ;;
          if (cmd =? "OK1")%string then servoBrakeRelease
          else if (cmd =? "Continue")%string then
            waitShortPull fuel ;;
            sendUDPMessageToLast "Keep" ;;
            waitForCmd fuel "OK2" ;;
            servoBrakeRelease
          else ret tt).

(* =============================================================== *)
(** ** wifi_udp_server.cpp: the dispatcher *)

Definition handleUDPMessages : M unit :=
  r <- readIncomingUDP ;;
  match r with
  | None => ret tt
  | Some msg =>
      sendUDPMessageToLast msg ;;
      if (msg =? "Start")%string then
        startEventSequence ;;
        sendUDPMessageToLast "ACK: Start"
      else if (msg =? "Stop")%string then
        servoBrakeLock ;;
        sendUDPMessageToLast "ACK: Stop"
      else if (msg =? "Winding")%string then
        motorWindBack ;;
        sendUDPMessageToLast "ACK: Winding"
      else
        sendUDPMessageToLast ("ACK: " ++ msg)
  end.

(* =============================================================== *)
(** ** signal_tester.cpp *)

Definition is_newline (c : ascii) : bool :=
  Ascii.eqb c "010"%char || Ascii.eqb c "013"%char.

Fixpoint signalTesterLoop (fuel : nat) : M unit :=
  match fuel with
  | O => blocked
  | S fuel' =>
      r <- Serial_poll ;;
      match r with
      | None => ret tt
      | Some c =>
          (if is_newline c then
             buf <- gets serialInputBuffer ;;
             when (0 <? String.length buf)
                  (sendUDPMessageToLast buf ;;
                   modify (set_serialInputBuffer ""))
           else
             modify (fun s =>
               set_serialInputBuffer (serialInputBuffer s ++ String c "") s)) ;;
          signalTesterLoop fuel'
      end
  end.

(* =============================================================== *)
(** ** main.cpp *)

Definition setup : M unit := eventsInit.

Definition loop (fuel : nat) : M unit :=
  handleUDPMessages ;;
  processEncoderEvents fuel ;;
  signalTesterLoop fuel.

(** [n] iterations of [loop()]. *)
Fixpoint loops (fuel n : nat) : M unit :=
  match n with
  | O => ret tt
  | S n' => loop fuel ;; loops fuel n'
  end.

Definition firmware (fuel n : nat) : M unit := setup ;; loops fuel n.

End Firmware.

(* ================================================================= *)
(** ** Vocabulary of the specification *)

Section Vocabulary.

Variable env : Env.

(** State after [k] calls of [readIncomingUDP]. *)
Fixpoint poll_state (k : nat) (s : St) : St :=
  match k with
  | O => s
  | S k' => poll_state k' (exec (readIncomingUDP env) s)
  end.

(** Message delivered by the call number [k] (from 0), if any. *)
Definition poll_msg (k : nat) (s : St) : option string :=
  match outcome (readIncomingUDP env) (poll_state k s) with
  | Some r => r
  | None => None
  end.

(** No call before number [k] delivers one of [targets]. *)
Definition unmatched (targets : list string) (k : nat) (s : St) : Prop :=
  forall j m, j < k -> poll_msg j s = Some m -> matches_any m targets = false.

(** Call number [k] is the first to deliver one of [targets], namely [m]. *)
Definition awaits (targets : list string) (k : nat) (s : St) (m : string) : Prop :=
  poll_msg k s = Some m /\ matches_any m targets = true /\ unmatched targets k s.

(** State after [n] calls of [readDistance]. *)
Fixpoint read_ahead (n : nat) (s : St) : St :=
  match n with
  | O => s
  | S n' => read_ahead n' (step_dist s)
  end.

(** Reading number [i] (from 0) after the reference reading of
    [waitShortPull] entered in state [s]. *)
Definition pull_reading (i : nat) (s : St) : Q :=
  dist_in env (S (dist_next s) + i).

(** The value readings are compared with: [startDist + 0.5] as the
    source computes it, [startDist] being the reference reading. *)
Definition pull_target (s : St) : Q :=
  Float.double (dist_in env (dist_next s) + (1 # 2)).

(** Reading number [j] is the first not below the target. *)
Definition pulled (j : nat) (s : St) : Prop :=
  (forall i, i < j -> Qlt (pull_reading i s) (pull_target s)) /\
  Qle (pull_target s) (pull_reading j s).

(** Stages 1 to 3 of [processEncoderEvents] once the run is known to
    be active; yields the distance reading. *)
Definition tick_prefix (fuel : nat) : M Q :=
  dist <- readDistance env ;;
  t0 <- threshold 0 ;;
  when (Qle_bool t0 dist) (sendUDPMessageToLast "Pain") ;;
  t1 <- threshold 1 ;;
  when (Qle_bool t1 dist) (sendUDPMessageToLast "Pain2") ;;
  t2 <- threshold 2 ;;
  when (Qle_bool t2 dist)
       (sendUDPMessageToLast "HighDamp" ;;
        servoBrakeLock ;;
        waitForCmd env fuel "OK" ;;
        servoBrakeRelease) ;;
  ret dist.

(** Stage 4 of [processEncoderEvents] for the reading [dist]. *)
Definition low_damping (fuel : nat) (dist : Q) : M unit :=
  t3 <- threshold 3 ;;
  when (Qle_bool t3 dist)
       (sendUDPMessageToLast "LowDamp" ;;
        servoBrakeWeak ;;
        cmd <- waitForCmdAny env fuel ["OK1"; "Continue"] ;;
        if (cmd =? "OK1")%string then servoBrakeRelease
        else if (cmd =? "Continue")%string then
          waitShortPull env fuel ;;
          sendUDPMessageToLast "Keep" ;;
          waitForCmd env fuel "OK2" ;;
          servoBrakeRelease
        else ret tt).

(** Stages 2 to 4 of [processEncoderEvents] for the reading [dist]. *)
Definition after_pain (fuel : nat) (dist : Q) : M unit :=
  t1 <- threshold 1 ;;
  when (Qle_bool t1 dist) (sendUDPMessageToLast "Pain2") ;;
  t2 <- threshold 2 ;;
  when (Qle_bool t2 dist)
       (sendUDPMessageToLast "HighDamp" ;;
        servoBrakeLock ;;
        waitForCmd env fuel "OK" ;;
        servoBrakeRelease) ;;
  low_damping fuel dist.

(** State in which tick number [k] (from 0) of a firmware run starts. *)
Definition before_tick (fuel k : nat) (b : BrakeState) : St :=
  exec (handleUDPMessages env) (exec (firmware env fuel k) (boot b)).

(** Every datagram comes from a set address ([IPAddress::isSet]). *)
Definition senders_set : Prop :=
  forall n pk, udp_in env n = Some pk -> pk_ip pk <> 0%N.

End Vocabulary.

(** What a computation adds to the I/O history. *)
Definition added {A} (m : M A) (s : St) : list Event :=
  skipn (List.length (trace s)) (trace (exec m s)).

Definition is_send (e : Event) : bool :=
  match e with EvSend _ _ _ => true | _ => false end.

(** The outbound datagrams of a history, and their texts. *)
Definition sends (t : list Event) : list Event := filter is_send t.

Fixpoint sent_texts (t : list Event) : list string :=
  match t with
  | [] => []
  | EvSend _ _ msg :: r => msg :: sent_texts r
  | _ :: r => sent_texts r
  end.

(** The texts of a list in order of first appearance. *)
Fixpoint first_seen (seen l : list string) : list string :=
  match l with
  | [] => []
  | x :: r =>
      if existsb (String.eqb x) seen then first_seen seen r
      else x :: first_seen (x :: seen) r
  end.

(** Sender of the most recent datagram of a history; [ep] if none. *)
Fixpoint last_sender (ep : N * N) (t : list Event) : N * N :=
  match t with
  | [] => ep
  | EvRecv ip port _ :: r => last_sender (ip, port) r
  | _ :: r => last_sender ep r
  end.

(** Every outbound datagram of a history is addressed to the sender of
    the most recent inbound one before it. *)
Fixpoint sends_to_last (ep : N * N) (t : list Event) : bool :=
  match t with
  | [] => true
  | EvRecv ip port _ :: r => sends_to_last (ip, port) r
  | EvSend ip port _ :: r =>
      (N.eqb ip (fst ep) && N.eqb port (snd ep)) && sends_to_last ep r
  | _ :: r => sends_to_last ep r
  end.

(** The tracked endpoint is the sender of the last datagram, and so was
    the destination of everything sent. *)
Definition endpoint_tracked (s : St) : Prop :=
  last_sender (0%N, 0%N) (trace s) = (lastRemoteIp s, lastRemotePort s) /\
  sends_to_last (0%N, 0%N) (trace s) = true.


(** The replies the low damping stage waits for. *)
Definition replies : list string := ["OK1"; "Continue"].

(** State after the brake is released in [s]. *)
Definition released_of (s : St) : St :=
  emit (EvBrake Released) (set_brake Released s).


(** The I/O history of [s] continues [t0]. *)
Definition extends (t0 : list Event) (s : St) : Prop :=
  exists u, trace s = (t0 ++ u)%list.

(** An active run has a recorded endpoint. *)
Definition run_has_endpoint (s : St) : Prop :=
  sequenceRunning s = true -> lastRemoteIp s <> 0%N.

(** Shape of the arrays [float distanceArrays[10][4]] and
    [float currentArray[4]]. *)
Definition arrays_shaped (s : St) : Prop :=
  List.length (distanceArrays s) = 10 /\
  Forall (fun row => List.length row = 4) (distanceArrays s) /\
  List.length (currentArray s) = 4.

(** A profile as [eventsInit] generates it. *)
Definition generated_profile (row : list Q) : Prop :=
  exists a b c d : Z,
    row = [inject_Z a; inject_Z b; inject_Z c; inject_Z d] /\
    (5 <= a < 15)%Z /\ (15 <= b < 25)%Z /\ (25 <= c < 35)%Z /\ (35 <= d < 45)%Z.

(** Number of datagrams with text [d] received from, and number of
    datagrams with text [msg] sent to, an endpoint. *)
Definition received_from (ip port : N) (d : string) (t : list Event) : nat :=
  List.length (filter (fun e => match e with
                                | EvRecv i p x => N.eqb i ip && N.eqb p port && String.eqb x d
                                | _ => false end) t).

Definition sent_to (ip port : N) (msg : string) (t : list Event) : nat :=
  List.length (filter (fun e => match e with
                                | EvSend i p x => N.eqb i ip && N.eqb p port && String.eqb x msg
                                | _ => false end) t).

(** In history [t], the datagrams with text [d] from an endpoint were
    each answered by one echo and one acknowledgment. *)
Definition answered_once (ip port : N) (d : string) (t : list Event) : Prop :=
  sent_to ip port d t = received_from ip port d t /\
  sent_to ip port ("ACK: " ++ d) t = received_from ip port d t.

(* ================================================================= *)
(** ** A session with the operator console *)

Definition operator_ip : N := 3232236546.   (* 192.168.4.2 *)
Definition operator_port : N := 5005.

Definition from_operator (text : string) : option Packet :=
  Some (mkPacket operator_ip operator_port text).

(** Every generator draw is 5, so every profile is [10, 20, 30, 40]; the
    cord is read at 5, 12, 22, 32, 42; the operator sends Start, then
    acknowledges each damping stage, once after a decoy. *)
Definition session_udp (n : nat) : option Packet :=
  match n with
  | 0 => from_operator "Start"
  | 4 => from_operator "OK"
  | 6 => from_operator " ok"
  | 7 => from_operator (String "O" (String "K" (String "010" "")))
  | 8 => from_operator "OK1"
  | _ => None
  end.

Definition session_dist (n : nat) : Q :=
  nth n [5 # 1; 12 # 1; 22 # 1; 32 # 1; 42 # 1] 0%Q.

Definition session : Env :=
  mkEnv session_udp session_dist (fun _ => 5%N) (fun _ => None).

(** The same session, the operator choosing Continue at the low damping
    stage; the cord then moves from 42 to 42.25 to 42.75. *)
Definition continue_udp (n : nat) : option Packet :=
  match n with
  | 0 => from_operator "Start"
  | 2 => from_operator "OK"
  | 3 => from_operator "Continue"
  | 5 => from_operator "OK2"
  | _ => None
  end.

Definition continue_dist (n : nat) : Q :=
  nth n [5 # 1; 42 # 1; 42 # 1; 169 # 4; 171 # 4] (50 # 1).

Definition continue_session : Env :=
  mkEnv continue_udp continue_dist (fun _ => 5%N) (fun _ => None).

(** A zero-length read after a regular datagram, from another sender. *)
Definition stale_udp (n : nat) : option Packet :=
  match n with
  | 0 => from_operator "Start"
  | 1 => Some (mkPacket 3232236547 6006 "")
  | _ => None
  end.

Definition stale_session : Env :=
  mkEnv stale_udp (fun _ => 0%Q) (fun _ => 0%N) (fun _ => None).

(** The operator sends Stop during a run. *)
Definition stop_udp (n : nat) : option Packet :=
  match n with
  | 0 => from_operator "Start"
  | 1 => from_operator "Stop"
  | _ => None
  end.

Definition stop_session : Env :=
  mkEnv stop_udp (fun _ => 0%Q) (fun _ => 0%N) (fun _ => None).

(** Decoys, then the awaited acknowledgment padded with white space. *)
Definition decoy_udp (n : nat) : option Packet :=
  match n with
  | 0 => from_operator "OK1"
  | 2 => from_operator "ok"
  | 3 => from_operator "Start"
  | 4 => from_operator (String " " (String "O" (String "K" (String "013" (String "010" "")))))
  | _ => None
  end.

Definition decoy_session : Env :=
  mkEnv decoy_udp (fun _ => 0%Q) (fun _ => 0%N) (fun _ => None).

(** [packetBuffer] after [Udp.read] and the termination step of
    [readIncomingUDP]. *)
Definition buffer_after (data : string) (buf : list ascii) : list ascii :=
  let chunk := firstn 254 (list_ascii_of_string data) in
  let copied := (chunk ++ skipn (List.length chunk) buf)%list in
  if 0 <? List.length chunk then store (List.length chunk) zero copied else copied.

(** The text [readIncomingUDP] makes of a buffer. *)
Definition message_of (buf : list ascii) : string :=
  Arduino.trim (Arduino.cstr buf).

(** State after [readIncomingUDP] has taken datagram [pk]. *)
Definition taken (pk : Packet) (s : St) : St :=
  set_packetBuffer (buffer_after (pk_data pk) (packetBuffer s))
    (set_remote (pk_ip pk) (pk_port pk)
       (emit (EvRecv (pk_ip pk) (pk_port pk) (pk_data pk)) (step_udp s))).

(* ----------------------------------------------------------------- *)
(** *** Properties kept by the operations *)

Definition preserves {A} (P : St -> Prop) (m : M A) : Prop :=
  forall s, P s -> P (exec m s).

(** A property of the state is [Stable] when each elementary effect of
    the main loop, other than starting a run, keeps it. *)
Record Stable (env : Env) (P : St -> Prop) : Prop := mkStable {
  stable_read : forall s, P s -> P (exec (readIncomingUDP env) s);
  stable_send : forall msg s, P s -> P (exec (sendUDPMessageToLast msg) s);
  stable_brake : forall b s, P s -> P (emit (EvBrake b) (set_brake b s));
  stable_wind : forall s, P s -> P (emit EvWind s);
  stable_dist : forall s, P s -> P (step_dist s);
  stable_serial : forall s, P s -> P (step_serial s);
  stable_console : forall x s, P s -> P (set_serialInputBuffer x s)
}.

(** It is [StartStable] when the effects of [startEventSequence] keep it. *)
Record StartStable (P : St -> Prop) : Prop := mkStartStable {
  stable_rand : forall s, P s -> P (step_rand s);
  stable_profile : forall i v s,
      P s -> P (set_currentArray (store i v (currentArray s)) s);
  stable_running : forall s, P s -> P (set_sequenceRunning true s)
}.

(* ================================================================= *)
(** ** Further vocabulary *)

(** What [handleUDPMessages] does with a message it has received. *)
Definition dispatch (env : Env) (msg : string) : M unit :=
  sendUDPMessageToLast msg ;;
  if (msg =? "Start")%string then
    startEventSequence env ;;
    sendUDPMessageToLast "ACK: Start"
  else if (msg =? "Stop")%string then
    servoBrakeLock ;;
    sendUDPMessageToLast "ACK: Stop"
  else if (msg =? "Winding")%string then
    motorWindBack ;;
    sendUDPMessageToLast "ACK: Winding"
  else
    sendUDPMessageToLast ("ACK: " ++ msg).

Definition is_recv (e : Event) : bool :=
  match e with EvRecv _ _ _ => true | _ => false end.

(** [s'] differs from [s] at most in the state of the command channel
    (endpoint, receive buffer, socket cursor, I/O history). *)
Definition off_channel_equal (s s' : St) : Prop :=
  distanceArrays s' = distanceArrays s /\
  currentArray s' = currentArray s /\
  sequenceRunning s' = sequenceRunning s /\
  serialInputBuffer s' = serialInputBuffer s /\
  brake s' = brake s /\
  dist_next s' = dist_next s /\
  rand_next s' = rand_next s /\
  serial_next s' = serial_next s.

(** The socket delivers nothing from poll [n] on. *)
Definition silent_from (env : Env) (n : nat) : Prop :=
  forall k, n <= k -> udp_in env k = None.

(** The operator acknowledges once, too early, and is never heard again. *)
Definition early_udp (n : nat) : option Packet :=
  match n with
  | 0 => from_operator "OK"
  | _ => None
  end.

Definition early_session : Env :=
  mkEnv early_udp (fun _ => 32 # 1) (fun _ => 5%N) (fun _ => None).

(** The brake and motor commands of a history. *)
Definition actuations (t : list Event) : list Event :=
  filter (fun e => negb (is_recv e || is_send e)) t.

(** The message [readIncomingUDP] delivers for datagram [pk] in state [s]. *)
Definition message_in (pk : Packet) (s : St) : string :=
  message_of (buffer_after (pk_data pk) (packetBuffer s)).

(** The operator stops, rewinds and mistypes a command during a run. *)
Definition command_udp (n : nat) : option Packet :=
  match n with
  | 0 => from_operator "Start"
  | 1 => from_operator "Stop"
  | 2 => from_operator "Winding"
  | 3 => from_operator "start"
  | _ => None
  end.

Definition command_session : Env :=
  mkEnv command_udp (fun _ => 0%Q) (fun _ => 7%N) (fun _ => None).

(** From [x] to [x'] the I/O history grew, by the actuator commands [acts]
    besides datagrams. *)
Definition effect (x x' : St) (acts : list Event) : Prop :=
  exists u, trace x' = (trace x ++ u)%list /\ actuations u = acts.

(** The payload holds no NUL character. *)
Fixpoint nul_free (s : string) : bool :=
  match s with
  | EmptyString => true
  | String c r => negb (Ascii.eqb c zero) && nul_free r
  end.

(** [char packetBuffer[255]] holds a terminated C string: it has its 255
    bytes and the last one is NUL. *)
Definition buffer_ok (buf : list ascii) : Prop :=
  List.length buf = 255 /\ nth 254 buf zero = zero.

(** A datagram of 300 bytes, and one with a NUL inside. *)
Definition long_payload : string :=
  string_of_list_ascii (repeat "a"%char 300).

Definition oversize_udp (n : nat) : option Packet :=
  match n with
  | 0 => from_operator "Winding"
  | 1 => from_operator long_payload
  | 2 => from_operator (String "O" (String "K" (String zero "junk")))
  | _ => None
  end.

Definition oversize_session : Env :=
  mkEnv oversize_udp (fun _ => 0%Q) (fun _ => 0%N) (fun _ => None).

(** Four thresholds in strictly increasing order. *)
Definition increasing (row : list Q) : Prop :=
  exists t0 t1 t2 t3 : Q,
    row = [t0; t1; t2; t3] /\ (t0 < t1)%Q /\ (t1 < t2)%Q /\ (t2 < t3)%Q.

(** The arrays have their shape, the bank holds generated profiles, and
    so does [currentArray] while a run is active. *)
Definition profiles_sound (s : St) : Prop :=
  arrays_shaped s /\
  Forall generated_profile (distanceArrays s) /\
  (sequenceRunning s = true -> generated_profile (currentArray s)).

(** State in which the high damping stage of a tick entered in [s], with
    a recorded endpoint and a reading past the second threshold, starts
    to wait: "Pain", "Pain2", "HighDamp" sent, brake locked. *)
Definition locked_of (s : St) : St :=
  emit (EvBrake Locked)
    (set_brake Locked
       (emit (EvSend (lastRemoteIp s) (lastRemotePort s) "HighDamp")
          (emit (EvSend (lastRemoteIp s) (lastRemotePort s) "Pain2")
             (emit (EvSend (lastRemoteIp s) (lastRemotePort s) "Pain")
                (step_dist s))))).

(** State after a tick that sent "Pain" only. *)
Definition pained_of (s : St) : St :=
  emit (EvSend (lastRemoteIp s) (lastRemotePort s) "Pain") (step_dist s).

(** The cord stays between the first and the second threshold. *)
Definition band_udp (n : nat) : option Packet :=
  match n with
  | 0 => from_operator "Start"
  | _ => None
  end.

Definition band_session : Env :=
  mkEnv band_udp (fun n => nth n [3 # 1; 11 # 1; 12 # 1] (13 # 1))
        (fun _ => 5%N) (fun _ => None).

(** Every outbound datagram of the history of [s] has a set address. *)
Definition sends_addressed (s : St) : Prop :=
  forall ip port m, In (EvSend ip port m) (trace s) -> ip <> 0%N.

(** The console is used before any datagram has arrived, then after. *)
Definition console_udp (n : nat) : option Packet :=
  match n with
  | 1 => from_operator "hello"
  | _ => None
  end.

Definition console_serial (n : nat) : option ascii :=
  match n with
  | 0 => Some "O"%char
  | 1 => Some "K"%char
  | 2 => Some "1"%char
  | 3 => Some "013"%char
  | 4 => Some "010"%char
  | 6 => Some "O"%char
  | 7 => Some "K"%char
  | 8 => Some "010"%char
  | _ => None
  end.

Definition console_session : Env :=
  mkEnv console_udp (fun _ => 0%Q) (fun _ => 0%N) console_serial.

(** The console delivers the characters [l], in order, from poll [n] on. *)
Definition feeds (env : Env) (n : nat) (l : list ascii) : Prop :=
  forall i c, nth_error l i = Some c -> serial_in env (n + i) = Some c.

(** State after [signalTesterLoop] has taken the characters [line], none
    of them a line end. *)
Fixpoint typed (line : list ascii) (s : St) : St :=
  match line with
  | [] => s
  | c :: r =>
      typed r (set_serialInputBuffer (serialInputBuffer s ++ String c "")
                                     (step_serial s))
  end.

(** What a line end makes of the console buffer of [s]. *)
Definition flushed (s : St) : list Event :=
  if (lastRemoteIp s =? 0)%N || (serialInputBuffer s =? "")%string then []
  else [EvSend (lastRemoteIp s) (lastRemotePort s) (serialInputBuffer s)].

(** Whenever [m] returns, it leaves the brake released. *)
Definition ends_released {A} (m : M A) : Prop :=
  forall s a s', m s = (Some a, s') -> brake s' = Released.

(** The references for which [startDist + 0.5] needs no rounding: the
    single-precision values [m * 2^k] with [|m| < 2^24] and
    [-53 <= k <= 27].  These are zero, every [float] of magnitude from
    2^-30 up to, not including, 2^51, and the smaller ones that are
    multiples of 2^-53. *)
Definition ordinary (x : Q) : Prop :=
  exists m k : Z,
    (Z.abs m < 2 ^ 24)%Z /\ (-53 <= k <= 27)%Z /\ (x == inject_Z m * 2 ^ k)%Q.





(* ================================================================= *)
(** ** Laws of the monad *)


Lemma bind_assoc {A B C} (m : M A) (f : A -> M B) (g : B -> M C) s :
  bind (bind m f) g s = bind m (fun a => bind (f a) g) s.
Proof. unfold bind. destruct (m s) as [[a|] s1]; reflexivity. Qed.

Lemma bind_done {A B} (m : M A) (f : A -> M B) s a s1 :
  m s = (Some a, s1) -> bind m f s = f a s1.
Proof. unfold bind. intros ->. reflexivity. Qed.

Lemma bind_blocked {A B} (m : M A) (f : A -> M B) s s1 :
  m s = (None, s1) -> bind m f s = (None, s1).
Proof. unfold bind. intros ->. reflexivity. Qed.


(* ================================================================= *)
(** ** Arrays *)

Lemma store_length {A} i (v : A) l : List.length (store i v l) = List.length l.
Proof.
  revert i. induction l as [|x l IH]; intros [|i]; simpl; auto.
Qed.




(* ================================================================= *)
(** ** The receive routine *)

Section Receive.

Variable env : Env.

Lemma readIncomingUDP_idle s :
  udp_in env (udp_next s) = None ->
  readIncomingUDP env s = (Some None, step_udp s).
Proof.
  intros H. unfold readIncomingUDP, bind, Udp_parsePacket. rewrite H.
  reflexivity.
Qed.

Lemma readIncomingUDP_taken s pk :
  udp_in env (udp_next s) = Some pk ->
  readIncomingUDP env s =
    (Some (Some (message_of (buffer_after (pk_data pk) (packetBuffer s)))),
     taken pk s).
Proof.
  intros H. unfold readIncomingUDP, bind, Udp_parsePacket. rewrite H.
  unfold modify, Udp_read, when, gets, ret, message_of, taken, buffer_after.
  cbn [packetBuffer set_packetBuffer set_remote emit step_udp Nat.sub].
  destruct (0 <? _); reflexivity.
Qed.

(** [readIncomingUDP] itself never blocks. *)
Lemma readIncomingUDP_returns s :
  exists r, readIncomingUDP env s = (Some r, exec (readIncomingUDP env) s).
Proof.
  unfold exec.
  destruct (udp_in env (udp_next s)) as [pk|] eqn:E.
  - rewrite (readIncomingUDP_taken _ _ E). eexists. reflexivity.
  - rewrite (readIncomingUDP_idle _ E). eexists. reflexivity.
Qed.

Lemma buffer_after_empty buf : buffer_after "" buf = buf.
Proof. reflexivity. Qed.

End Receive.

(** C9. [processEncoderEvents] is a no-op when [sequenceRunning] is false:
    for every environment (hence every distance the encoder would
    report) and every iteration bound it returns at once and leaves the
    whole state (active profile, run flag, brake, I/O history, even the
    encoder cursor) as it was. *)
Theorem tick_idle_is_noop (env : Env) (fuel : nat) (s : St) :
  sequenceRunning s = false ->
  processEncoderEvents env fuel s = (Some tt, s).
Proof.
  intros H. unfold processEncoderEvents, bind, gets. rewrite H. reflexivity.
Qed.

Lemma tick_idle_is_noop_witness :
  sequenceRunning (boot Locked) = false /\
  processEncoderEvents session 7 (boot Locked) = (Some tt, boot Locked).
Proof.
  split; [reflexivity | apply tick_idle_is_noop; reflexivity].
Defined.

(** C10. When a datagram is reported present but [Udp.read] yields zero
    bytes, [readIncomingUDP] still records the sender as the remote
    endpoint and returns true; [packetBuffer] is left as it was, so the
    message is the text already in the buffer, which after a previous
    successful call is that call's message [m0], not the empty string. *)
Theorem zero_length_read_yields_residue
        (env : Env) (s0 s : St) (m0 : string) (pk : Packet) :
  readIncomingUDP env s0 = (Some (Some m0), s) ->
  udp_in env (udp_next s) = Some pk ->
  pk_data pk = "" ->
  exists s',
    readIncomingUDP env s = (Some (Some m0), s') /\
    lastRemoteIp s' = pk_ip pk /\
    lastRemotePort s' = pk_port pk /\
    packetBuffer s' = packetBuffer s /\
    m0 = message_of (packetBuffer s).
Proof.
  intros H0 Hpk Hempty.
  assert (Hm : m0 = message_of (packetBuffer s)).
  { destruct (udp_in env (udp_next s0)) as [p0|] eqn:E0.
    - rewrite (readIncomingUDP_taken _ _ _ E0) in H0.
      inversion H0; subst. reflexivity.
    - rewrite (readIncomingUDP_idle _ _ E0) in H0. discriminate. }
  exists (taken pk s).
  rewrite (readIncomingUDP_taken _ _ _ Hpk), Hempty, buffer_after_empty, <- Hm.
  unfold taken. rewrite Hempty.
  repeat split; reflexivity.
Qed.

Lemma zero_length_read_yields_residue_witness :
  let s := exec (readIncomingUDP stale_session) (boot Released) in
  readIncomingUDP stale_session (boot Released) = (Some (Some "Start"), s) /\
  exists s',
    readIncomingUDP stale_session s = (Some (Some "Start"), s') /\
    lastRemoteIp s' = 3232236547%N /\
    lastRemotePort s' = 6006%N /\
    packetBuffer s' = packetBuffer s /\
    "Start" = message_of (packetBuffer s).
Proof.
  split; [reflexivity|].
  apply (zero_length_read_yields_residue stale_session (boot Released) _ "Start"
           (mkPacket 3232236547 6006 "")); reflexivity.
Defined.

(* ================================================================= *)
(** ** The blocking waits *)

Section Waiting.

Variable env : Env.

Lemma poll_state_snoc k s :
  poll_state env (S k) s = exec (readIncomingUDP env) (poll_state env k s).
Proof.
  revert s. induction k as [|k IH]; intros s; [reflexivity|].
  change (poll_state env (S (S k)) s)
    with (poll_state env (S k) (exec (readIncomingUDP env) s)).
  rewrite IH. reflexivity.
Qed.

Lemma udp_next_read s :
  udp_next (exec (readIncomingUDP env) s) = S (udp_next s).
Proof.
  unfold exec. destruct (udp_in env (udp_next s)) as [pk|] eqn:E.
  - rewrite (readIncomingUDP_taken _ _ _ E). reflexivity.
  - rewrite (readIncomingUDP_idle _ _ E). reflexivity.
Qed.

Lemma udp_next_poll_state k s :
  udp_next (poll_state env k s) = udp_next s + k.
Proof.
  revert s. induction k as [|k IH]; intros s; simpl; [lia|].
  rewrite IH, udp_next_read. lia.
Qed.

(** What call number [k] delivers, in terms of the socket. *)
Lemma poll_msg_socket k s :
  poll_msg env k s =
    match udp_in env (udp_next s + k) with
    | Some pk =>
        Some (message_of (buffer_after (pk_data pk)
                                       (packetBuffer (poll_state env k s))))
    | None => None
    end.
Proof.
  unfold poll_msg, outcome.
  destruct (udp_in env (udp_next s + k)) as [pk|] eqn:E;
    rewrite <- udp_next_poll_state in E.
  - rewrite (readIncomingUDP_taken _ _ _ E). reflexivity.
  - rewrite (readIncomingUDP_idle _ _ E). reflexivity.
Qed.

Lemma unmatched_head targets k s m :
  unmatched env targets (S k) s ->
  poll_msg env 0 s = Some m -> matches_any m targets = false.
Proof. intros H Hm. apply (H 0 m); [lia | exact Hm]. Qed.

Lemma unmatched_tail targets k s :
  unmatched env targets (S k) s ->
  unmatched env targets k (poll_state env 1 s).
Proof. intros H j m Hj Hm. apply (H (S j) m); [lia | exact Hm]. Qed.

Lemma unmatched_cons targets k s :
  (forall m, poll_msg env 0 s = Some m -> matches_any m targets = false) ->
  unmatched env targets k (poll_state env 1 s) ->
  unmatched env targets (S k) s.
Proof.
  intros H0 H [|j] m Hj Hm; [apply H0; exact Hm|].
  apply (H j m); [lia | exact Hm].
Qed.

Lemma waitForCmdAny_step fuel targets s :
  waitForCmdAny env (S fuel) targets s =
    match poll_msg env 0 s with
    | Some m =>
        if matches_any m targets then (Some m, poll_state env 1 s)
        else waitForCmdAny env fuel targets (poll_state env 1 s)
    | None => waitForCmdAny env fuel targets (poll_state env 1 s)
    end.
Proof.
  destruct (readIncomingUDP_returns env s) as [r Hr].
  cbn [waitForCmdAny]. rewrite (bind_done _ _ _ _ _ Hr).
  unfold poll_msg, outcome. cbn [poll_state]. rewrite Hr. cbn [fst].
  destruct r as [m|]; [destruct (matches_any m targets)|]; reflexivity.
Qed.

Lemma waitForCmdAny_found targets k :
  forall fuel s m,
    awaits env targets k s m -> k < fuel ->
    waitForCmdAny env fuel targets s = (Some m, poll_state env (S k) s).
Proof.
  induction k as [|k IH]; intros [|fuel] s m (Hm & Hin & Hun) Hk; try lia;
    rewrite waitForCmdAny_step.
  - rewrite Hm, Hin. reflexivity.
  - assert (Hrec : waitForCmdAny env fuel targets (poll_state env 1 s) =
                   (Some m, poll_state env (S (S k)) s)).
    { apply (IH fuel (poll_state env 1 s) m); [|lia].
      repeat split; [exact Hm | exact Hin | apply unmatched_tail; exact Hun]. }
    destruct (poll_msg env 0 s) as [m0|] eqn:E0; [|exact Hrec].
    rewrite (unmatched_head _ _ _ _ Hun E0). exact Hrec.
Qed.

Lemma waitForCmdAny_starved targets :
  forall fuel s,
    unmatched env targets fuel s ->
    waitForCmdAny env fuel targets s = (None, poll_state env fuel s).
Proof.
  induction fuel as [|fuel IH]; intros s Hun; [reflexivity|].
  rewrite waitForCmdAny_step.
  pose proof (IH _ (unmatched_tail _ _ _ Hun)) as Hrec.
  destruct (poll_msg env 0 s) as [m0|] eqn:E0; [|exact Hrec].
  rewrite (unmatched_head _ _ _ _ Hun E0). exact Hrec.
Qed.

Lemma waitForCmdAny_inv targets :
  forall fuel s m s',
    waitForCmdAny env fuel targets s = (Some m, s') ->
    exists k, k < fuel /\ awaits env targets k s m /\
              s' = poll_state env (S k) s.
Proof.
  induction fuel as [|fuel IH]; intros s m s' H; [discriminate|].
  rewrite waitForCmdAny_step in H.
  assert (Hrec : waitForCmdAny env fuel targets (poll_state env 1 s) = (Some m, s') ->
                 (forall m0, poll_msg env 0 s = Some m0 -> matches_any m0 targets = false) ->
                 exists k, k < S fuel /\ awaits env targets k s m /\
                           s' = poll_state env (S k) s).
  { intros H' H0. destruct (IH _ _ _ H') as (k & Hk & (Hm & Hin & Hun) & Hs).
    exists (S k). repeat split; try assumption; try lia.
    apply unmatched_cons; assumption. }
  destruct (poll_msg env 0 s) as [m0|] eqn:E0.
  - destruct (matches_any m0 targets) eqn:Em.
    + inversion H; subst. exists 0. repeat split; try assumption; try lia.
      intros j ? Hj. lia.
    + apply Hrec; [exact H|]. intros ? [= <-]. exact Em.
  - apply Hrec; [exact H|]. discriminate.
Qed.

Lemma waitForCmd_as_any target :
  forall fuel s,
    waitForCmd env fuel target s =
      (_ <- waitForCmdAny env fuel [target] ;; ret tt) s.
Proof.
  induction fuel as [|fuel IH]; intros s; [reflexivity|].
  destruct (readIncomingUDP_returns env s) as [r Hr].
  cbn [waitForCmd waitForCmdAny]. rewrite bind_assoc.
  rewrite !(bind_done _ _ _ _ _ Hr).
  destruct r as [m|]; cbn [matches_any].
  - destruct (m =? target)%string; [reflexivity|].
    rewrite bind_assoc. cbn. apply IH.
  - rewrite bind_assoc. cbn. apply IH.
Qed.

Lemma matches_single m target : matches_any m [target] = (m =? target)%string.
Proof. cbn. destruct (m =? target)%string; reflexivity. Qed.

(** For a single target, [awaits] says: call [k] delivers the target
    and no earlier call does. *)
Lemma awaits_single target k s :
  awaits env [target] k s target <->
  poll_msg env k s = Some target /\
  (forall j, j < k -> poll_msg env j s <> Some target).
Proof.
  split.
  - intros (Hm & _ & Hun). split; [exact Hm|].
    intros j Hj Hc. specialize (Hun j target Hj Hc).
    rewrite matches_single, String.eqb_refl in Hun. discriminate.
  - intros (Hm & Hun). repeat split; [exact Hm | |].
    + rewrite matches_single. apply String.eqb_refl.
    + intros j m Hj Hjm. rewrite matches_single.
      destruct (String.eqb_spec m target) as [->|]; [|reflexivity].
      exfalso. exact (Hun j Hj Hjm).
Qed.

Lemma awaits_single_text target k s m :
  awaits env [target] k s m -> m = target.
Proof.
  intros (_ & Hin & _). rewrite matches_single in Hin.
  apply String.eqb_eq. exact Hin.
Qed.

Lemma waitForCmd_found target k fuel s :
  awaits env [target] k s target -> k < fuel ->
  waitForCmd env fuel target s = (Some tt, poll_state env (S k) s).
Proof.
  intros H Hk. rewrite waitForCmd_as_any.
  rewrite (bind_done _ _ _ _ _ (waitForCmdAny_found _ _ _ _ _ H Hk)).
  reflexivity.
Qed.

Lemma waitForCmd_starved target fuel s :
  unmatched env [target] fuel s ->
  waitForCmd env fuel target s = (None, poll_state env fuel s).
Proof.
  intros H. rewrite waitForCmd_as_any.
  rewrite (bind_blocked _ _ _ _ (waitForCmdAny_starved _ _ _ H)).
  reflexivity.
Qed.

Lemma waitForCmd_inv target fuel s s' :
  waitForCmd env fuel target s = (Some tt, s') ->
  exists k, k < fuel /\ awaits env [target] k s target /\
            s' = poll_state env (S k) s.
Proof.
  rewrite waitForCmd_as_any. unfold bind.
  destruct (waitForCmdAny env fuel [target] s) as [[m|] s1] eqn:E; [|discriminate].
  intros [= <-]. destruct (waitForCmdAny_inv _ _ _ _ _ E) as (k & Hk & Hw & Hs).
  pose proof (awaits_single_text _ _ _ _ Hw) as Heq. subst m.
  exists k. repeat split; try assumption; apply Hw.
Qed.

End Waiting.

(** C3. [waitForCmd target] returns only on a message equal to [target]:
    whenever it returns, some call [k] of the receive routine delivered
    exactly [target], no earlier call did, and the [k] datagrams and empty
    polls before it are consumed; it does return as soon as the bound on
    iterations exceeds that [k]; and if no call ever delivers [target] it
    returns for no bound: there is no timeout.  The message a call
    delivers is the text of the buffer after the datagram was read, up to
    the first NUL, trimmed of white space. *)
Theorem wait_for_returns_only_on_target (env : Env) (target : string) (s : St) :
  (forall fuel s',
      waitForCmd env fuel target s = (Some tt, s') ->
      exists k, k < fuel /\
                poll_msg env k s = Some target /\
                (forall j, j < k -> poll_msg env j s <> Some target) /\
                s' = poll_state env (S k) s /\
                udp_next s' = udp_next s + S k) /\
  (forall k fuel,
      poll_msg env k s = Some target ->
      (forall j, j < k -> poll_msg env j s <> Some target) ->
      k < fuel ->
      waitForCmd env fuel target s = (Some tt, poll_state env (S k) s)) /\
  ((forall k, poll_msg env k s <> Some target) ->
   forall fuel, waitForCmd env fuel target s = (None, poll_state env fuel s)) /\
  (forall k,
      poll_msg env k s =
        match udp_in env (udp_next s + k) with
        | Some pk =>
            Some (Arduino.trim
                    (Arduino.cstr (buffer_after (pk_data pk)
                                     (packetBuffer (poll_state env k s)))))
        | None => None
        end).
Proof.
  split; [|split; [|split]]; [| | |intros k; apply poll_msg_socket].
  - intros fuel s' H.
    destruct (waitForCmd_inv _ _ _ _ _ H) as (k & Hk & Hw & Hs).
    apply awaits_single in Hw. destruct Hw as (Hm & Hun).
    exists k. repeat split; try assumption.
    rewrite Hs. apply udp_next_poll_state.
  - intros k fuel Hm Hun Hk. apply waitForCmd_found; [|exact Hk].
    apply awaits_single. split; assumption.
  - intros Hnever fuel. apply waitForCmd_starved.
    intros j m _ Hm. rewrite matches_single.
    destruct (String.eqb_spec m target) as [->|]; [|reflexivity].
    exfalso. exact (Hnever j Hm).
Qed.

Lemma wait_for_returns_only_on_target_witness :
  poll_msg decoy_session 0 (boot Locked) = Some "OK1" /\
  poll_msg decoy_session 1 (boot Locked) = None /\
  poll_msg decoy_session 2 (boot Locked) = Some "ok" /\
  poll_msg decoy_session 3 (boot Locked) = Some "Start" /\
  poll_msg decoy_session 4 (boot Locked) = Some "OK" /\
  waitForCmd decoy_session 5 "OK" (boot Locked) =
    (Some tt, poll_state decoy_session 5 (boot Locked)).
Proof.
  do 5 (split; [vm_compute; reflexivity|]).
  apply (proj1 (proj2 (wait_for_returns_only_on_target
                         decoy_session "OK" (boot Locked))) 4 5).
  - vm_compute; reflexivity.
  - intros j Hj.
    destruct j as [|[|[|[|j]]]]; [vm_compute; discriminate .. | exfalso; lia].
  - lia.
Defined.

(* ================================================================= *)
(** ** Properties kept by every operation of the main loop *)

Lemma exec_read_cases env s :
  exec (readIncomingUDP env) s = step_udp s \/
  exists pk, udp_in env (udp_next s) = Some pk /\
             exec (readIncomingUDP env) s = taken pk s.
Proof.
  unfold exec. destruct (udp_in env (udp_next s)) as [pk|] eqn:E.
  - right. exists pk. rewrite (readIncomingUDP_taken _ _ _ E). auto.
  - left. rewrite (readIncomingUDP_idle _ _ E). reflexivity.
Qed.

Lemma exec_send_cases msg s :
  (lastRemoteIp s = 0%N /\ exec (sendUDPMessageToLast msg) s = s) \/
  (lastRemoteIp s <> 0%N /\
   exec (sendUDPMessageToLast msg) s =
     emit (EvSend (lastRemoteIp s) (lastRemotePort s) msg) s).
Proof.
  unfold exec, sendUDPMessageToLast, bind, gets.
  destruct (N.eqb_spec (lastRemoteIp s) 0); [left | right]; auto.
Qed.

Section Combinators.

Variable P : St -> Prop.

Lemma preserves_ret {A} (a : A) : preserves P (ret a).
Proof. intros s H. exact H. Qed.

Lemma preserves_blocked {A} : preserves P (@blocked A).
Proof. intros s H. exact H. Qed.

Lemma preserves_gets {A} (f : St -> A) : preserves P (gets f).
Proof. intros s H. exact H. Qed.

Lemma preserves_bind {A B} (m : M A) (f : A -> M B) :
  preserves P m -> (forall a, preserves P (f a)) -> preserves P (bind m f).
Proof.
  intros Hm Hf s H. specialize (Hm s H). unfold exec, bind in *.
  destruct (m s) as [[a|] s1]; [apply Hf|]; exact Hm.
Qed.

Lemma preserves_when b m : preserves P m -> preserves P (when b m).
Proof. destruct b; [auto | intros _; apply preserves_ret]. Qed.

Lemma preserves_modify f :
  (forall s, P s -> P (f s)) -> preserves P (modify f).
Proof. intros H s Hs. apply H. exact Hs. Qed.

Lemma preserves_for_each l body :
  (forall i, preserves P (body i)) -> preserves P (for_each l body).
Proof.
  intros H. induction l as [|i l IH]; [apply preserves_ret|].
  apply preserves_bind; auto.
Qed.

End Combinators.

(** Decomposes a goal [preserves P m] along the syntax of [m]. *)
Ltac frame :=
  repeat match goal with
    | |- preserves _ (ret _) => apply preserves_ret
    | |- preserves _ blocked => apply preserves_blocked
    | |- preserves _ (gets _) => apply preserves_gets
    | |- preserves _ (delay _) => apply preserves_ret
    | |- preserves _ (when _ _) => apply preserves_when
    | |- preserves _ (bind _ _) => apply preserves_bind; [|intros ?]
    | |- preserves _ (for_each _ _) => apply preserves_for_each; intros ?
    | |- preserves _ (modify _) => apply preserves_modify; intros ? ?
    | |- preserves _ (if ?c then _ else _) => destruct c
    | |- preserves _ (match ?r with Some _ => _ | None => _ end) => destruct r
    | H : preserves ?P ?m |- preserves ?P ?m => exact H
    end.

Section Preservation.

Variable env : Env.
Variable P : St -> Prop.
Hypothesis stable : Stable env P.
Hypothesis start_stable : StartStable P.

Lemma preserves_readIncomingUDP : preserves P (readIncomingUDP env).
Proof. intros s H. apply (stable_read env P stable s H). Qed.

Lemma preserves_send msg : preserves P (sendUDPMessageToLast msg).
Proof. intros s H. apply (stable_send env P stable msg s H). Qed.

Lemma preserves_actuator b : preserves P (Actuator_set b).
Proof. intros s H. apply (stable_brake env P stable b s H). Qed.

Lemma preserves_wind : preserves P motorWindBack.
Proof. intros s H. apply (stable_wind env P stable s H). Qed.

Lemma preserves_readDistance : preserves P (readDistance env).
Proof. intros s H. apply (stable_dist env P stable s H). Qed.

Lemma preserves_random lo hi : preserves P (random env lo hi).
Proof. intros s H. apply (stable_rand P start_stable s H). Qed.

Lemma preserves_Serial_poll : preserves P (Serial_poll env).
Proof. intros s H. apply (stable_serial env P stable s H). Qed.

Lemma preserves_waitForCmd target fuel :
  preserves P (waitForCmd env fuel target).
Proof.
  induction fuel as [|fuel IH]; cbn [waitForCmd]; frame;
    apply preserves_readIncomingUDP.
Qed.

Lemma preserves_waitForCmdAny targets fuel :
  preserves P (waitForCmdAny env fuel targets).
Proof.
  induction fuel as [|fuel IH]; cbn [waitForCmdAny]; frame;
    apply preserves_readIncomingUDP.
Qed.

Lemma preserves_waitShortPull fuel : preserves P (waitShortPull env fuel).
Proof.
  unfold waitShortPull. apply preserves_bind; [apply preserves_readDistance|].
  intros start. induction fuel as [|fuel IH]; cbn [waitShortPull_loop];
    frame; apply preserves_readDistance.
Qed.

Lemma preserves_startEventSequence : preserves P (startEventSequence env).
Proof.
  unfold startEventSequence. frame.
  - apply preserves_random.
  - apply (stable_profile P start_stable); assumption.
  - apply (stable_running P start_stable); assumption.
Qed.

Lemma preserves_processEncoderEvents fuel :
  preserves P (processEncoderEvents env fuel).
Proof.
  unfold processEncoderEvents, threshold, servoBrakeLock, servoBrakeRelease,
    servoBrakeWeak.
  frame;
    first [ apply preserves_readDistance | apply preserves_send
          | apply preserves_actuator | apply preserves_waitForCmd
          | apply preserves_waitForCmdAny | apply preserves_waitShortPull ].
Qed.

Lemma preserves_handleUDPMessages : preserves P (handleUDPMessages env).
Proof.
  unfold handleUDPMessages, servoBrakeLock.
  frame;
    first [ apply preserves_readIncomingUDP | apply preserves_send
          | apply preserves_actuator | apply preserves_wind
          | apply preserves_startEventSequence ].
Qed.

Lemma preserves_signalTesterLoop fuel :
  preserves P (signalTesterLoop env fuel).
Proof.
  induction fuel as [|fuel IH]; cbn [signalTesterLoop]; frame;
    first [ apply preserves_Serial_poll | apply preserves_send
          | apply (stable_console env P stable); assumption ].
Qed.

Lemma preserves_loop fuel : preserves P (loop env fuel).
Proof.
  unfold loop. frame;
    first [ apply preserves_handleUDPMessages
          | apply preserves_processEncoderEvents
          | apply preserves_signalTesterLoop ].
Qed.

Lemma preserves_loops fuel n : preserves P (loops env fuel n).
Proof.
  induction n as [|n IH]; cbn [loops]; frame. apply preserves_loop.
Qed.

End Preservation.

(** Case analysis on what a receive or a send did to the state. *)
Ltac by_effect :=
  constructor; intros;
  repeat match goal with
    | |- context [exec (readIncomingUDP ?e) ?s] =>
        destruct (exec_read_cases e s) as [-> | (? & ? & ->)]
    | |- context [exec (sendUDPMessageToLast ?m) ?s] =>
        destruct (exec_send_cases m s) as [(? & ->) | (? & ->)]
    end.

Lemma bank_stable env (bank : list (list Q)) :
  Stable env (fun s => distanceArrays s = bank).
Proof. by_effect; assumption. Qed.

Lemma bank_start (bank : list (list Q)) :
  StartStable (fun s => distanceArrays s = bank).
Proof. by_effect; assumption. Qed.

Lemma running_stable env : Stable env (fun s => sequenceRunning s = true).
Proof. by_effect; assumption. Qed.

Lemma running_start : StartStable (fun s => sequenceRunning s = true).
Proof. by_effect; solve [assumption | reflexivity]. Qed.

Lemma shape_start : StartStable arrays_shaped.
Proof.
  by_effect; try assumption.
  destruct H as (H1 & H2 & H3). repeat split; try assumption.
  cbn. rewrite store_length. exact H3.
Qed.

(* ================================================================= *)
(** ** The run flag *)

(** C8. Once [sequenceRunning] is true it stays true: neither the
    dispatcher (whatever the datagram: Start, Stop, Winding or any other
    text), nor a tick of the sequencer (completed or still waiting), nor
    the console loop, nor any number of iterations of the main loop
    clears it. *)
Theorem running_is_never_cleared (env : Env) (fuel : nat) (s : St) :
  sequenceRunning s = true ->
  sequenceRunning (exec (handleUDPMessages env) s) = true /\
  sequenceRunning (exec (processEncoderEvents env fuel) s) = true /\
  sequenceRunning (exec (signalTesterLoop env fuel) s) = true /\
  (forall n, sequenceRunning (exec (loops env fuel n) s) = true).
Proof.
  intros H. repeat split; [| | |intros n].
  - exact (preserves_handleUDPMessages env _ (running_stable env) running_start s H).
  - exact (preserves_processEncoderEvents env _ (running_stable env) fuel s H).
  - exact (preserves_signalTesterLoop env _ (running_stable env) fuel s H).
  - exact (preserves_loops env _ (running_stable env) running_start fuel n s H).
Qed.

Lemma running_is_never_cleared_witness :
  let s := exec (firmware stop_session 4 1) (boot Released) in
  sequenceRunning s = true /\
  udp_in stop_session (udp_next s) = from_operator "Stop" /\
  sequenceRunning (exec (handleUDPMessages stop_session) s) = true /\
  sequenceRunning (exec (processEncoderEvents stop_session 4) s) = true /\
  sequenceRunning (exec (signalTesterLoop stop_session 4) s) = true /\
  (forall n, sequenceRunning (exec (loops stop_session 4 n) s) = true).
Proof.
  cbv zeta. split; [reflexivity|]. split; [reflexivity|].
  apply (running_is_never_cleared stop_session 4). reflexivity.
Defined.

(* ================================================================= *)
(** ** The profile bank *)

Lemma random_of_range lo hi draw :
  (lo < hi)%Z -> (lo <= Arduino.random_of lo hi draw < hi)%Z.
Proof.
  intros H. unfold Arduino.random_of.
  destruct (Z.leb_spec hi lo); [lia|].
  pose proof (Z.mod_pos_bound (Z.of_N draw) (hi - lo)). lia.
Qed.

Lemma generated_profile_intro (d0 d1 d2 d3 : N) :
  generated_profile
    [inject_Z (Arduino.random_of 5 15 d0); inject_Z (Arduino.random_of 15 25 d1);
     inject_Z (Arduino.random_of 25 35 d2); inject_Z (Arduino.random_of 35 45 d3)].
Proof.
  do 4 eexists. split; [reflexivity|].
  repeat split; apply random_of_range; lia.
Qed.

Lemma eventsInit_returns env s : outcome (eventsInit env) s = Some tt.
Proof. reflexivity. Qed.

Lemma exec_bind_done {A B} (m : M A) (f : A -> M B) s a :
  outcome m s = Some a -> exec (bind m f) s = exec (f a) (exec m s).
Proof.
  unfold outcome, exec, bind. destruct (m s) as [[a'|] s1]; [|discriminate].
  intros [= ->]. reflexivity.
Qed.

Lemma exec_firmware env fuel n s :
  exec (firmware env fuel n) s = exec (loops env fuel n) (exec (setup env) s).
Proof.
  unfold firmware.
  rewrite (exec_bind_done (setup env) _ s tt (eventsInit_returns env s)).
  reflexivity.
Qed.

(** C7. After [eventsInit], run once by [setup], the bank holds exactly 10
    profiles of 4 thresholds, element 0 an integer of [5,15), element 1 of
    [15,25), element 2 of [25,35), element 3 of [35,45); and no operation
    of the main loop (dispatcher with [startEventSequence], sequencer
    tick, console loop) changes [distanceArrays], so that after any
    number of iterations the bank is still the one [setup] generated. *)
Theorem profile_bank_fixed_after_startup (env : Env) (b : BrakeState) :
  let s0 := exec (setup env) (boot b) in
  outcome (setup env) (boot b) = Some tt /\
  List.length (distanceArrays s0) = 10 /\
  Forall generated_profile (distanceArrays s0) /\
  (forall s, distanceArrays (exec (startEventSequence env) s) = distanceArrays s) /\
  (forall s, distanceArrays (exec (handleUDPMessages env) s) = distanceArrays s) /\
  (forall fuel s,
      distanceArrays (exec (processEncoderEvents env fuel) s) = distanceArrays s) /\
  (forall fuel s, distanceArrays (exec (loop env fuel) s) = distanceArrays s) /\
  (forall fuel n,
      distanceArrays (exec (firmware env fuel n) (boot b)) = distanceArrays s0).
Proof.
  cbv zeta.
  split; [apply eventsInit_returns|].
  split; [cbv -[Arduino.random_of inject_Z rand_in]; reflexivity|].
  split; [|split; [|split; [|split; [|split]]]].
  - cbv -[Arduino.random_of inject_Z rand_in generated_profile].
    repeat constructor; apply generated_profile_intro.
  - intros s. exact (preserves_startEventSequence env _ (bank_start _) s eq_refl).
  - intros s. exact (preserves_handleUDPMessages env _ (bank_stable env _) (bank_start _) s eq_refl).
  - intros fuel s.
    exact (preserves_processEncoderEvents env _ (bank_stable env _) fuel s eq_refl).
  - intros fuel s. exact (preserves_loop env _ (bank_stable env _) (bank_start _) fuel s eq_refl).
  - intros fuel n. rewrite exec_firmware.
    exact (preserves_loops env _ (bank_stable env _) (bank_start _) fuel n _ eq_refl).
Qed.

(* ================================================================= *)
(** ** The remote endpoint *)

Lemma last_sender_app t u ep :
  last_sender ep (t ++ u) = last_sender (last_sender ep t) u.
Proof.
  revert ep. induction t as [|e t IH]; intros ep; [reflexivity|].
  destruct e; cbn; apply IH.
Qed.

Lemma sends_to_last_app t u ep :
  sends_to_last ep (t ++ u) =
    sends_to_last ep t && sends_to_last (last_sender ep t) u.
Proof.
  revert ep. induction t as [|e t IH]; intros ep; [reflexivity|].
  destruct e; cbn; rewrite IH; try reflexivity.
  rewrite andb_assoc. reflexivity.
Qed.

Lemma skipn_exact {A} (t u : list A) : skipn (List.length t) (t ++ u) = u.
Proof. induction t as [|x t IH]; [reflexivity | exact IH]. Qed.

Lemma endpoint_start : StartStable endpoint_tracked.
Proof. by_effect; assumption. Qed.

Lemma endpoint_stable env : Stable env endpoint_tracked.
Proof.
  by_effect; try assumption;
    destruct H as (Hl & Hs); unfold endpoint_tracked;
    cbn [trace lastRemoteIp lastRemotePort emit set_brake taken set_packetBuffer
         set_remote step_udp];
    rewrite last_sender_app, sends_to_last_app, Hl, Hs; cbn;
    rewrite ?N.eqb_refl; split; reflexivity.
Qed.

Lemma setup_keeps_channel env s :
  trace (exec (setup env) s) = trace s /\
  lastRemoteIp (exec (setup env) s) = lastRemoteIp s /\
  lastRemotePort (exec (setup env) s) = lastRemotePort s.
Proof. repeat split. Qed.

Lemma setup_keeps_running env s :
  sequenceRunning (exec (setup env) s) = sequenceRunning s.
Proof. reflexivity. Qed.

Lemma endpoint_after_polls env k :
  forall s pk,
    udp_in env (udp_next s + k) = Some pk ->
    lastRemoteIp (poll_state env (S k) s) = pk_ip pk /\
    lastRemotePort (poll_state env (S k) s) = pk_port pk.
Proof.
  intros s pk H. rewrite (poll_state_snoc env).
  rewrite <- (udp_next_poll_state env) in H.
  unfold exec. rewrite (readIncomingUDP_taken _ _ _ H). split; reflexivity.
Qed.

Lemma poll_msg_packet env k s m :
  poll_msg env k s = Some m ->
  exists pk, udp_in env (udp_next s + k) = Some pk.
Proof.
  rewrite poll_msg_socket.
  destruct (udp_in env (udp_next s + k)) as [pk|]; [eauto | discriminate].
Qed.

(** C6. Every datagram the receive routine takes, whatever its content,
    makes its sender the tracked remote endpoint; this holds just as well
    for the datagrams consumed by the receive calls of a pending
    [waitForCmd] / [waitForCmdAny], which leave the sender of the matching
    datagram as endpoint.  Every send goes to the endpoint tracked at that
    moment, so in the I/O history of the firmware, for any input and any
    number of loop iterations, each outbound datagram is addressed to the
    sender of the most recent inbound one. *)
Theorem remote_endpoint_follows_last_sender (env : Env) :
  (forall s pk,
      udp_in env (udp_next s) = Some pk ->
      lastRemoteIp (exec (readIncomingUDP env) s) = pk_ip pk /\
      lastRemotePort (exec (readIncomingUDP env) s) = pk_port pk) /\
  (forall fuel targets s m s',
      waitForCmdAny env fuel targets s = (Some m, s') ->
      exists k pk,
        udp_in env (udp_next s + k) = Some pk /\ udp_next s' = udp_next s + S k /\
        lastRemoteIp s' = pk_ip pk /\ lastRemotePort s' = pk_port pk) /\
  (forall fuel target s s',
      waitForCmd env fuel target s = (Some tt, s') ->
      exists k pk,
        udp_in env (udp_next s + k) = Some pk /\ udp_next s' = udp_next s + S k /\
        lastRemoteIp s' = pk_ip pk /\ lastRemotePort s' = pk_port pk) /\
  (forall msg s,
      added (sendUDPMessageToLast msg) s =
        if (lastRemoteIp s =? 0)%N then []
        else [EvSend (lastRemoteIp s) (lastRemotePort s) msg]) /\
  (forall fuel n b, endpoint_tracked (exec (firmware env fuel n) (boot b))).
Proof.
  split; [|split; [|split; [|split]]].
  - intros s pk H. unfold exec. rewrite (readIncomingUDP_taken _ _ _ H).
    split; reflexivity.
  - intros fuel targets s m s' H.
    destruct (waitForCmdAny_inv _ _ _ _ _ _ H) as (k & _ & (Hm & _) & ->).
    destruct (poll_msg_packet _ _ _ _ Hm) as (pk & Hpk).
    exists k, pk. split; [exact Hpk|]. split; [apply udp_next_poll_state|].
    apply endpoint_after_polls. exact Hpk.
  - intros fuel target s s' H.
    destruct (waitForCmd_inv _ _ _ _ _ H) as (k & _ & (Hm & _) & ->).
    destruct (poll_msg_packet _ _ _ _ Hm) as (pk & Hpk).
    exists k, pk. split; [exact Hpk|]. split; [apply udp_next_poll_state|].
    apply endpoint_after_polls. exact Hpk.
  - intros msg s. unfold added.
    destruct (exec_send_cases msg s) as [(H0 & ->) | (H0 & ->)].
    + rewrite H0. cbn. apply skipn_all.
    + apply N.eqb_neq in H0. rewrite H0. apply (skipn_exact (trace s) [_]).
  - intros fuel n b. rewrite exec_firmware.
    apply (preserves_loops env _ (endpoint_stable env) endpoint_start).
    destruct (setup_keeps_channel env (boot b)) as (Ht & Hi & Hp).
    unfold endpoint_tracked. rewrite Ht, Hi, Hp. split; reflexivity.
Qed.

Lemma remote_endpoint_follows_last_sender_witness :
  let s := exec (readIncomingUDP stale_session) (boot Released) in
  udp_in stale_session (udp_next s) = Some (mkPacket 3232236547 6006 "") /\
  lastRemoteIp s = operator_ip /\
  lastRemoteIp (exec (readIncomingUDP stale_session) s) = 3232236547%N /\
  lastRemotePort (exec (readIncomingUDP stale_session) s) = 6006%N.
Proof.
  cbv zeta. split; [reflexivity|]. split; [reflexivity|].
  apply (proj1 (remote_endpoint_follows_last_sender stale_session)
           _ (mkPacket 3232236547 6006 "")).
  reflexivity.
Defined.

(* ================================================================= *)
(** ** Starting a run *)

Lemma startEventSequence_run env s :
  let row := nth (Z.to_nat (Arduino.random_of 0 10 (rand_in env (rand_next s))))
                 (distanceArrays s) [] in
  startEventSequence env s =
    (Some tt,
     set_sequenceRunning true
       (set_currentArray
          (store 3 (nth 3 row 0%Q)
             (store 2 (nth 2 row 0%Q)
                (store 1 (nth 1 row 0%Q)
                   (store 0 (nth 0 row 0%Q) (currentArray s)))))
          (step_rand s))).
Proof. reflexivity. Qed.

Lemma copy_row (row cur : list Q) :
  List.length row = 4 -> List.length cur = 4 ->
  store 3 (nth 3 row 0%Q)
    (store 2 (nth 2 row 0%Q)
       (store 1 (nth 1 row 0%Q) (store 0 (nth 0 row 0%Q) cur))) = row.
Proof.
  destruct row as [|r0 [|r1 [|r2 [|r3 [|]]]]]; try discriminate.
  destruct cur as [|c0 [|c1 [|c2 [|c3 [|]]]]]; try discriminate.
  reflexivity.
Qed.

Lemma profile_index_range draw :
  Z.to_nat (Arduino.random_of 0 10 draw) < 10 /\
  Z.of_nat (Z.to_nat (Arduino.random_of 0 10 draw)) = (Z.of_N draw mod 10)%Z.
Proof.
  pose proof (random_of_range 0 10 draw ltac:(lia)) as H.
  assert (E : Arduino.random_of 0 10 draw = (Z.of_N draw mod 10)%Z).
  { unfold Arduino.random_of. cbn [Z.leb Z.compare]. rewrite Z.sub_0_r. lia. }
  split; [lia|]. rewrite Z2Nat.id; [exact E | lia].
Qed.

Lemma bank_row_length s idx :
  arrays_shaped s -> idx < 10 ->
  List.length (nth idx (distanceArrays s) []) = 4.
Proof.
  intros (Hlen & Hrows & _) Hidx.
  rewrite Forall_forall in Hrows. apply Hrows. apply nth_In. lia.
Qed.

Lemma startEventSequence_copies env s :
  arrays_shaped s ->
  startEventSequence env s =
    (Some tt,
     set_sequenceRunning true
       (set_currentArray
          (nth (Z.to_nat (Arduino.random_of 0 10 (rand_in env (rand_next s))))
               (distanceArrays s) [])
          (step_rand s))).
Proof.
  intros Hs. rewrite startEventSequence_run. cbv zeta.
  rewrite copy_row; [reflexivity | | apply Hs].
  apply bank_row_length; [exact Hs | apply profile_index_range].
Qed.

Lemma shape_stable env : Stable env arrays_shaped.
Proof. by_effect; assumption. Qed.

Lemma firmware_arrays_shaped env fuel n b :
  arrays_shaped (exec (firmware env fuel n) (boot b)).
Proof.
  rewrite exec_firmware.
  apply (preserves_loops env _ (shape_stable env) shape_start).
  unfold arrays_shaped. cbv -[Arduino.random_of inject_Z rand_in].
  split; [reflexivity|]. split; [|reflexivity]. repeat constructor.
Qed.

(** C5. [startEventSequence] takes one draw of the generator, reduces it
    to an index in [0,10) (the draw modulo 10: as uniform as the
    generator), copies that row of the bank into [currentArray] and sets
    [sequenceRunning].  A second call replaces the active profile by the
    row of the next draw: the state is the one a single call would have
    produced had the first not chosen a profile, so the thresholds read
    by every later tick are those of the latest profile.  The arrays
    have their declared shape ([arrays_shaped]) in every state of a
    firmware run. *)
Theorem start_selects_and_replaces (env : Env) :
  (forall fuel n b, arrays_shaped (exec (firmware env fuel n) (boot b))) /\
  forall s : St,
  arrays_shaped s ->
  let index_of n := Z.to_nat (Arduino.random_of 0 10 (rand_in env n)) in
  let s1 := exec (startEventSequence env) s in
  let s2 := exec (startEventSequence env) s1 in
  outcome (startEventSequence env) s = Some tt /\
  index_of (rand_next s) < 10 /\
  Z.of_nat (index_of (rand_next s)) = (Z.of_N (rand_in env (rand_next s)) mod 10)%Z /\
  currentArray s1 = nth (index_of (rand_next s)) (distanceArrays s) [] /\
  sequenceRunning s1 = true /\
  currentArray s2 = nth (index_of (S (rand_next s))) (distanceArrays s) [] /\
  sequenceRunning s2 = true /\
  s2 = exec (startEventSequence env) (step_rand s) /\
  (forall i, outcome (threshold i) s2 =
               Some (nth i (nth (index_of (S (rand_next s))) (distanceArrays s) []) 0%Q)) /\
  (forall fuel,
      processEncoderEvents env fuel s2 =
        processEncoderEvents env fuel (exec (startEventSequence env) (step_rand s))).
Proof.
  split; [intros fuel n b; apply firmware_arrays_shaped|].
  intros s Hs. cbv zeta.
  assert (Hs1 : arrays_shaped (exec (startEventSequence env) s)).
  { apply (preserves_startEventSequence env _ shape_start). exact Hs. }
  assert (Hs' : arrays_shaped (step_rand s)) by exact Hs.
  assert (E1 : forall x, arrays_shaped x ->
                 exec (startEventSequence env) x =
                   snd (startEventSequence env x)) by reflexivity.
  assert (E2 : exec (startEventSequence env) (exec (startEventSequence env) s) =
               exec (startEventSequence env) (step_rand s)).
  { rewrite (E1 _ Hs1), (startEventSequence_copies env _ Hs1).
    rewrite (E1 _ Hs'), (startEventSequence_copies env _ Hs').
    rewrite (E1 _ Hs), (startEventSequence_copies env _ Hs). reflexivity. }
  rewrite E2. unfold outcome.
  rewrite !E1 by assumption.
  rewrite (startEventSequence_copies env _ Hs), (startEventSequence_copies env _ Hs').
  destruct (profile_index_range (rand_in env (rand_next s))) as (Hlt & Hmod).
  repeat split; assumption.
Qed.

Lemma start_selects_and_replaces_witness :
  let s := exec (setup session) (boot Released) in
  arrays_shaped s /\
  currentArray (exec (startEventSequence session) s) = [10 # 1; 20 # 1; 30 # 1; 40 # 1] /\
  sequenceRunning (exec (startEventSequence session) s) = true.
Proof.
  cbv zeta.
  assert (H : arrays_shaped (exec (setup session) (boot Released))).
  { unfold arrays_shaped. vm_compute.
    split; [reflexivity|]. split; [|reflexivity].
    repeat constructor. }
  split; [exact H|].
  pose proof (proj2 (start_selects_and_replaces session) _ H) as T.
  cbv zeta in T.
  destruct T as (_ & _ & _ & Hc & Hr & _).
  split; [rewrite Hc; vm_compute; reflexivity | exact Hr].
Defined.

(* ================================================================= *)
(** ** Echo and acknowledgment *)

Lemma send_set msg s :
  lastRemoteIp s <> 0%N ->
  sendUDPMessageToLast msg s =
    (Some tt, emit (EvSend (lastRemoteIp s) (lastRemotePort s) msg) s).
Proof.
  intros H. unfold sendUDPMessageToLast, bind, gets.
  apply N.eqb_neq in H. rewrite H. reflexivity.
Qed.

Lemma actuator_run b s :
  Actuator_set b s = (Some tt, emit (EvBrake b) (set_brake b s)).
Proof. reflexivity. Qed.

Lemma wind_run s : motorWindBack s = (Some tt, emit EvWind s).
Proof. reflexivity. Qed.

Lemma sends_app t u : sends (t ++ u) = (sends t ++ sends u)%list.
Proof. apply filter_app. Qed.

Lemma read_adds_no_send env s :
  exists u, trace (exec (readIncomingUDP env) s) = (trace s ++ u)%list /\
            sends u = [].
Proof.
  destruct (exec_read_cases env s) as [-> | (pk & _ & ->)].
  - exists []. split; [symmetry; apply app_nil_r | reflexivity].
  - eexists [_]. split; reflexivity.
Qed.

Lemma polls_add_no_send env k :
  forall s, exists u, trace (poll_state env k s) = (trace s ++ u)%list /\
                      sends u = [].
Proof.
  induction k as [|k IH]; intros s.
  - exists []. split; [symmetry; apply app_nil_r | reflexivity].
  - destruct (read_adds_no_send env s) as (u & Hu & Su).
    destruct (IH (exec (readIncomingUDP env) s)) as (v & Hv & Sv).
    exists (u ++ v)%list. cbn [poll_state]. rewrite Hv, Hu, app_assoc.
    split; [reflexivity|]. rewrite sends_app, Su, Sv. reflexivity.
Qed.

Lemma waitForCmdAny_exec env targets fuel :
  forall s, exists n, exec (waitForCmdAny env fuel targets) s = poll_state env n s.
Proof.
  induction fuel as [|fuel IH]; intros s; [exists 0; reflexivity|].
  unfold exec. rewrite waitForCmdAny_step.
  destruct (IH (poll_state env 1 s)) as (n & Hn).
  assert (Hrec : exists n0, snd (waitForCmdAny env fuel targets (poll_state env 1 s)) =
                            poll_state env n0 s).
  { exists (S n). exact Hn. }
  destruct (poll_msg env 0 s) as [m|]; [|exact Hrec].
  destruct (matches_any m targets); [|exact Hrec].
  exists 1. reflexivity.
Qed.

Lemma waitForCmd_exec env target fuel s :
  exists n, exec (waitForCmd env fuel target) s = poll_state env n s.
Proof.
  destruct (waitForCmdAny_exec env [target] fuel s) as (n & Hn).
  exists n. rewrite <- Hn. unfold exec. rewrite waitForCmd_as_any.
  unfold bind. destruct (waitForCmdAny env fuel [target] s) as [[m|] s1]; reflexivity.
Qed.

Lemma added_of_extension {A} (m : M A) s u :
  trace (exec m s) = (trace s ++ u)%list -> added m s = u.
Proof. intros H. unfold added. rewrite H. apply skipn_exact. Qed.

Lemma handleUDPMessages_taken env s pk :
  udp_in env (udp_next s) = Some pk ->
  pk_ip pk <> 0%N ->
  exists mid s',
    handleUDPMessages env s = (Some tt, s') /\
    sends mid = [] /\
    trace s' =
      (trace s ++
       EvRecv (pk_ip pk) (pk_port pk) (pk_data pk) ::
       EvSend (pk_ip pk) (pk_port pk)
              (message_of (buffer_after (pk_data pk) (packetBuffer s))) ::
       mid ++
       [EvSend (pk_ip pk) (pk_port pk)
               ("ACK: " ++ message_of (buffer_after (pk_data pk) (packetBuffer s)))])%list.
Proof.
  intros Hpk Hip.
  remember (message_of (buffer_after (pk_data pk) (packetBuffer s))) as msg eqn:Emsg.
  unfold handleUDPMessages.
  rewrite (bind_done _ _ _ _ _ (readIncomingUDP_taken _ _ _ Hpk)), <- Emsg.
  rewrite (bind_done _ _ _ _ _ (send_set msg (taken pk s) Hip)).
  destruct (String.eqb_spec msg "Start") as [->|_].
  { rewrite (bind_done _ _ _ _ _ (startEventSequence_run env _)).
    rewrite send_set by exact Hip.
    exists []. eexists. split; [reflexivity|]. split; [reflexivity|].
    cbn [trace emit set_sequenceRunning set_currentArray step_rand taken
         set_packetBuffer set_remote step_udp lastRemoteIp lastRemotePort].
    rewrite <- !app_assoc. reflexivity. }
  destruct (String.eqb_spec msg "Stop") as [->|_].
  { rewrite (bind_done _ _ _ _ _ (actuator_run Locked _)).
    rewrite send_set by exact Hip.
    exists [EvBrake Locked]. eexists. split; [reflexivity|]. split; [reflexivity|].
    cbn [trace emit set_brake taken set_packetBuffer set_remote step_udp
         lastRemoteIp lastRemotePort].
    rewrite <- !app_assoc. reflexivity. }
  destruct (String.eqb_spec msg "Winding") as [->|_].
  { rewrite (bind_done _ _ _ _ _ (wind_run _)).
    rewrite send_set by exact Hip.
    exists [EvWind]. eexists. split; [reflexivity|]. split; [reflexivity|].
    cbn [trace emit taken set_packetBuffer set_remote step_udp
         lastRemoteIp lastRemotePort].
    rewrite <- !app_assoc. reflexivity. }
  rewrite send_set by exact Hip.
  exists []. eexists. split; [reflexivity|]. split; [reflexivity|].
  cbn [trace emit taken set_packetBuffer set_remote step_udp
       lastRemoteIp lastRemotePort].
  rewrite <- !app_assoc. reflexivity.
Qed.

Lemma wait_adds_no_send env s n :
  sends (skipn (List.length (trace s)) (trace (poll_state env n s))) = [].
Proof.
  destruct (polls_add_no_send env n s) as (u & Hu & Su).
  rewrite Hu, skipn_exact. exact Su.
Qed.

(** C2, counterexample.  In the session, the acknowledgment "OK" of the
    high damping stage is consumed by [waitForCmd]: the operator sent it
    once, and the device sent back neither "OK" nor "ACK: OK". *)
Lemma wait_consumes_without_answer :
  let t := trace (exec (firmware session 10 4) (boot Released)) in
  received_from operator_ip operator_port "OK" t = 1 /\
  sent_to operator_ip operator_port "OK" t = 0 /\
  sent_to operator_ip operator_port "ACK: OK" t = 0 /\
  ~ answered_once operator_ip operator_port "OK" t.
Proof.
  cbv zeta. unfold answered_once. vm_compute.
  repeat split; try reflexivity. intros [H _]. discriminate H.
Qed.

(** C2, as amended.  A datagram taken by the dispatcher
    [handleUDPMessages] from a sender with a set address is answered by
    exactly two datagrams to that sender: an echo of the message (the
    payload up to the first NUL, at most 254 bytes, white space trimmed)
    and "ACK: " followed by that message; without a datagram the
    dispatcher sends nothing.  The waits send nothing at all: a datagram
    consumed by [waitForCmd] or [waitForCmdAny] is neither echoed nor
    acknowledged. *)
Theorem dispatcher_answers_once_waits_stay_silent (env : Env) :
  (forall s pk,
      udp_in env (udp_next s) = Some pk ->
      pk_ip pk <> 0%N ->
      let msg := message_of (buffer_after (pk_data pk) (packetBuffer s)) in
      outcome (handleUDPMessages env) s = Some tt /\
      sends (added (handleUDPMessages env) s) =
        [EvSend (pk_ip pk) (pk_port pk) msg;
         EvSend (pk_ip pk) (pk_port pk) ("ACK: " ++ msg)]) /\
  (forall s,
      udp_in env (udp_next s) = None -> added (handleUDPMessages env) s = []) /\
  (forall fuel target s, sends (added (waitForCmd env fuel target) s) = []) /\
  (forall fuel targets s, sends (added (waitForCmdAny env fuel targets) s) = []).
Proof.
  split; [|split; [|split]].
  - intros s pk Hpk Hip. cbv zeta.
    destruct (handleUDPMessages_taken env s pk Hpk Hip) as (mid & s' & Hrun & Hmid & Ht).
    unfold outcome. rewrite Hrun. split; [reflexivity|].
    rewrite (added_of_extension _ _ _
               (eq_trans (f_equal (fun r => trace (snd r)) Hrun) Ht)).
    cbn [sends filter is_send].
    change (filter is_send (mid ++ ?x)) with (sends (mid ++ x)).
    rewrite sends_app, Hmid. reflexivity.
  - intros s H. unfold added, exec, handleUDPMessages.
    rewrite (bind_done _ _ _ _ _ (readIncomingUDP_idle _ _ H)).
    cbn. apply skipn_all.
  - intros fuel target s. unfold added.
    destruct (waitForCmd_exec env target fuel s) as (n & ->).
    apply wait_adds_no_send.
  - intros fuel targets s. unfold added.
    destruct (waitForCmdAny_exec env targets fuel s) as (n & ->).
    apply wait_adds_no_send.
Qed.

Lemma dispatcher_answers_once_waits_stay_silent_witness :
  udp_in session (udp_next (exec (setup session) (boot Released))) =
    from_operator "Start" /\
  sends (added (handleUDPMessages session) (exec (setup session) (boot Released))) =
    [EvSend operator_ip operator_port "Start";
     EvSend operator_ip operator_port "ACK: Start"].
Proof.
  split; [reflexivity|].
  apply (proj1 (dispatcher_answers_once_waits_stay_silent session)
           (exec (setup session) (boot Released))
           (mkPacket operator_ip operator_port "Start")).
  - reflexivity.
  - discriminate.
Defined.

(* ================================================================= *)
(** ** The sequencer tick *)

(** Solves [preserves P m] for [m] composed of firmware operations, given
    [st : Stable P]. *)
Ltac preserved st :=
  frame;
  first [ eapply preserves_readIncomingUDP | eapply preserves_send
        | eapply preserves_actuator | eapply preserves_wind
        | eapply preserves_readDistance | eapply preserves_Serial_poll
        | eapply preserves_waitForCmd | eapply preserves_waitForCmdAny
        | eapply preserves_waitShortPull ];
  exact st.

Lemma extends_stable env t0 : Stable env (extends t0).
Proof.
  by_effect; try assumption; destruct H as (u & Hu); unfold extends;
    cbn [trace emit set_brake taken set_packetBuffer set_remote step_udp];
    rewrite Hu, <- app_assoc; eexists; reflexivity.
Qed.

Lemma extends_refl s : extends (trace s) s.
Proof. exists []. symmetry. apply app_nil_r. Qed.

Lemma preserves_low_damping env P fuel dist :
  Stable env P -> preserves P (low_damping env fuel dist).
Proof.
  intros st. unfold low_damping, threshold, servoBrakeWeak, servoBrakeRelease.
  preserved st.
Qed.

Lemma preserves_after_pain env P fuel dist :
  Stable env P -> preserves P (after_pain env fuel dist).
Proof.
  intros st. unfold after_pain, threshold, servoBrakeLock, servoBrakeRelease.
  frame; try (apply (preserves_low_damping env); exact st); preserved st.
Qed.

Lemma tick_past_first_threshold env fuel s :
  sequenceRunning s = true ->
  lastRemoteIp s <> 0%N ->
  Qle_bool (nth 0 (currentArray s) 0%Q) (dist_in env (dist_next s)) = true ->
  processEncoderEvents env fuel s =
    after_pain env fuel (dist_in env (dist_next s))
      (emit (EvSend (lastRemoteIp s) (lastRemotePort s) "Pain") (step_dist s)).
Proof.
  intros Hrun Hip Hle. unfold processEncoderEvents.
  rewrite (bind_done (gets sequenceRunning) _ s _ s eq_refl), Hrun. cbn [negb].
  rewrite (bind_done (readDistance env) _ s _ (step_dist s) eq_refl).
  rewrite (bind_done (threshold 0) _ (step_dist s) _ (step_dist s) eq_refl).
  cbn [currentArray step_dist]. rewrite Hle. cbn [when].
  rewrite (bind_done _ _ _ _ _ (send_set "Pain" (step_dist s) Hip)).
  reflexivity.
Qed.

Lemma set_stable env :
  senders_set env -> Stable env (fun s => lastRemoteIp s <> 0%N).
Proof.
  intros Hset. by_effect; try assumption.
  cbn [lastRemoteIp taken set_packetBuffer set_remote]. eapply Hset; eassumption.
Qed.

Lemma set_start : StartStable (fun s => lastRemoteIp s <> 0%N).
Proof. by_effect; assumption. Qed.

Lemma idle_stable env : Stable env (fun s => sequenceRunning s = false).
Proof. by_effect; assumption. Qed.

Lemma handleUDPMessages_endpoint env s :
  senders_set env -> run_has_endpoint s ->
  run_has_endpoint (exec (handleUDPMessages env) s).
Proof.
  intros Hset HJ. unfold handleUDPMessages.
  destruct (udp_in env (udp_next s)) as [pk|] eqn:E.
  - intros _.
    rewrite (exec_bind_done _ _ s _
               (f_equal fst (readIncomingUDP_taken env s pk E))).
    assert (Hs : lastRemoteIp (exec (readIncomingUDP env) s) <> 0%N).
    { unfold exec. rewrite (readIncomingUDP_taken env s pk E).
      exact (Hset _ _ E). }
    revert Hs. generalize (exec (readIncomingUDP env) s).
    change (preserves (fun x => lastRemoteIp x <> 0%N)
              (sendUDPMessageToLast
                 (message_of (buffer_after (pk_data pk) (packetBuffer s))) ;;
               if (message_of (buffer_after (pk_data pk) (packetBuffer s)) =? "Start")%string
               then startEventSequence env ;; sendUDPMessageToLast "ACK: Start"
               else if (message_of (buffer_after (pk_data pk) (packetBuffer s)) =? "Stop")%string
               then servoBrakeLock ;; sendUDPMessageToLast "ACK: Stop"
               else if (message_of (buffer_after (pk_data pk) (packetBuffer s)) =? "Winding")%string
               then motorWindBack ;; sendUDPMessageToLast "ACK: Winding"
               else sendUDPMessageToLast
                      ("ACK: " ++ message_of (buffer_after (pk_data pk) (packetBuffer s))))).
    unfold servoBrakeLock. frame;
      first [ apply (preserves_send env _ (set_stable env Hset))
            | apply (preserves_actuator env _ (set_stable env Hset))
            | apply (preserves_wind env _ (set_stable env Hset))
            | apply (preserves_startEventSequence env _ set_start) ].
  - unfold exec. rewrite (bind_done _ _ _ _ _ (readIncomingUDP_idle env s E)).
    exact HJ.
Qed.

Lemma endpoint_kept {A} (m : M A) s :
  preserves (fun x => lastRemoteIp x <> 0%N) m ->
  preserves (fun x => sequenceRunning x = false) m ->
  run_has_endpoint s -> run_has_endpoint (exec m s).
Proof.
  intros Hset Hidle HJ Hrun. destruct (sequenceRunning s) eqn:E.
  - apply Hset. apply HJ. exact E.
  - rewrite (Hidle s E) in Hrun. discriminate.
Qed.

Lemma loop_endpoint env fuel s :
  senders_set env -> run_has_endpoint s ->
  run_has_endpoint (exec (loop env fuel) s).
Proof.
  intros Hset HJ. unfold loop.
  pose proof (handleUDPMessages_endpoint env s Hset HJ) as H1.
  assert (Hrest : forall x, run_has_endpoint x ->
            run_has_endpoint
              (exec (processEncoderEvents env fuel ;; signalTesterLoop env fuel) x)).
  { intros x Hx. apply endpoint_kept; [| |exact Hx]; frame.
    - apply (preserves_processEncoderEvents env _ (set_stable env Hset)).
    - apply (preserves_signalTesterLoop env _ (set_stable env Hset)).
    - apply (preserves_processEncoderEvents env _ (idle_stable env)).
    - apply (preserves_signalTesterLoop env _ (idle_stable env)). }
  unfold exec, bind in *.
  destruct (handleUDPMessages env s) as [[[]|] s1]; [apply Hrest|]; exact H1.
Qed.

Lemma loops_endpoint env fuel n :
  forall s, senders_set env -> run_has_endpoint s ->
            run_has_endpoint (exec (loops env fuel n) s).
Proof.
  induction n as [|n IH]; intros s Hset HJ; [exact HJ|].
  cbn [loops]. pose proof (loop_endpoint env fuel s Hset HJ) as H1.
  unfold exec, bind in *.
  destruct (loop env fuel s) as [[[]|] s1]; [apply IH; assumption | exact H1].
Qed.

(** Whenever a tick of a firmware run finds the run active, an endpoint
    is recorded (datagrams coming from set addresses). *)
Lemma active_tick_has_endpoint env fuel k b :
  senders_set env ->
  sequenceRunning (before_tick env fuel k b) = true ->
  lastRemoteIp (before_tick env fuel k b) <> 0%N.
Proof.
  intros Hset. unfold before_tick.
  apply (handleUDPMessages_endpoint env _ Hset).
  rewrite exec_firmware. apply loops_endpoint; [exact Hset|].
  intros H. rewrite setup_keeps_running in H. discriminate H.
Qed.

(** C1, counterexample.  In the session the run is active, the profile is
    [10, 20, 30, 40] and the second reading is 12: the tick sends "Pain",
    and nothing with the text "Pain1". *)
Lemma tick_sends_Pain_not_Pain1 :
  let s := before_tick session 10 1 Released in
  sequenceRunning s = true /\
  currentArray s = [10 # 1; 20 # 1; 30 # 1; 40 # 1] /\
  dist_in session (dist_next s) = 12 # 1 /\
  sent_texts (added (processEncoderEvents session 10) s) = ["Pain"] /\
  ~ In "Pain1" (sent_texts (added (processEncoderEvents session 10) s)).
Proof.
  cbv zeta. vm_compute. repeat split; try reflexivity.
  intros [H|[]]. discriminate H.
Qed.

(** C1, as amended.  In every tick of an active run, if the reading is at
    least threshold 0 and an endpoint is recorded, the first thing the
    tick does, whether or not it later blocks, is to send the text "Pain"
    to that endpoint; and an endpoint is recorded whenever a tick of a
    firmware run finds the run active, datagrams coming from set
    addresses.  In the session (profile [10, 20, 30, 40], readings
    5, 12, 22, 32, 42, acknowledgments supplied) the five ticks send
    nothing; Pain; Pain, Pain2; Pain, Pain2, HighDamp; Pain, Pain2,
    HighDamp, LowDamp: in order of first appearance Pain, Pain2, HighDamp,
    LowDamp. *)
Theorem tick_sends_Pain_at_first_threshold :
  (forall env fuel s,
      sequenceRunning s = true ->
      lastRemoteIp s <> 0%N ->
      (nth 0 (currentArray s) 0 <= dist_in env (dist_next s))%Q ->
      exists rest,
        added (processEncoderEvents env fuel) s =
          EvSend (lastRemoteIp s) (lastRemotePort s) "Pain" :: rest) /\
  (forall env fuel k b,
      senders_set env ->
      sequenceRunning (before_tick env fuel k b) = true ->
      lastRemoteIp (before_tick env fuel k b) <> 0%N) /\
  let ticks :=
    map (fun k => sent_texts (added (processEncoderEvents session 10)
                                    (before_tick session 10 k Released)))
        [0; 1; 2; 3; 4] in
  currentArray (before_tick session 10 0 Released) =
    [10 # 1; 20 # 1; 30 # 1; 40 # 1] /\
  map (fun k => dist_in session (dist_next (before_tick session 10 k Released)))
      [0; 1; 2; 3; 4] = [5 # 1; 12 # 1; 22 # 1; 32 # 1; 42 # 1] /\
  ticks = [ [];
            ["Pain"];
            ["Pain"; "Pain2"];
            ["Pain"; "Pain2"; "HighDamp"];
            ["Pain"; "Pain2"; "HighDamp"; "LowDamp"] ] /\
  first_seen [] (List.concat ticks) = ["Pain"; "Pain2"; "HighDamp"; "LowDamp"].
Proof.
  split.
  - intros env fuel s Hrun Hip Hle. apply Qle_bool_iff in Hle.
    pose proof (preserves_after_pain env _ fuel (dist_in env (dist_next s))
                  (extends_stable env
                     (trace s ++ [EvSend (lastRemoteIp s) (lastRemotePort s) "Pain"]))
                  (emit (EvSend (lastRemoteIp s) (lastRemotePort s) "Pain")
                        (step_dist s))
                  (extends_refl _)) as (u & Hu).
    exists u. apply added_of_extension.
    unfold exec in *. rewrite (tick_past_first_threshold env fuel s Hrun Hip Hle).
    rewrite Hu, <- app_assoc. reflexivity.
  - split; [exact active_tick_has_endpoint|].
    cbv zeta. vm_compute. repeat split; reflexivity.
Qed.

Lemma tick_sends_Pain_at_first_threshold_witness :
  let s := before_tick session 10 1 Released in
  sequenceRunning s = true /\
  lastRemoteIp s <> 0%N /\
  (nth 0 (currentArray s) 0 <= dist_in session (dist_next s))%Q /\
  exists rest,
    added (processEncoderEvents session 10) s =
      EvSend (lastRemoteIp s) (lastRemotePort s) "Pain" :: rest.
Proof.
  cbv zeta.
  assert (H1 : sequenceRunning (before_tick session 10 1 Released) = true)
    by (vm_compute; reflexivity).
  assert (H2 : lastRemoteIp (before_tick session 10 1 Released) <> 0%N)
    by (vm_compute; discriminate).
  assert (H3 : (nth 0 (currentArray (before_tick session 10 1 Released)) 0 <=
                dist_in session (dist_next (before_tick session 10 1 Released)))%Q)
    by (vm_compute; discriminate).
  repeat split; try assumption.
  exact (proj1 tick_sends_Pain_at_first_threshold session 10 _ H1 H2 H3).
Defined.

(* ================================================================= *)
(** ** Double-precision sums *)

Section Rounding.

Local Open Scope Q_scope.

Lemma nearest_even_Z q z : q == inject_Z z -> Float.nearest_even q = z.
Proof.
  intros H. unfold Float.nearest_even.
  assert (Ef : Qfloor q = z) by (rewrite (Qfloor_comp _ _ H); apply Qfloor_Z).
  rewrite Ef.
  assert (E : (inject_Z z - inject_Z z ?= 1 # 2) = Lt).
  { apply Qlt_alt. setoid_replace (inject_Z z - inject_Z z) with 0 by ring.
    reflexivity. }
  assert (E' : (q - inject_Z z ?= 1 # 2) = Lt).
  { rewrite <- E. apply Qcompare_comp; [rewrite H|]; reflexivity. }
  rewrite E'. reflexivity.
Qed.

Lemma two_pos e : 0 < 2 ^ e.
Proof. apply Qpower_0_lt. reflexivity. Qed.

Lemma two_ne : ~ 2 == 0.
Proof. discriminate. Qed.

Lemma inject_Z_pos z : (0 < z)%Z -> 0 < inject_Z z.
Proof. intros H. change 0 with (inject_Z 0). rewrite <- Zlt_Qlt. exact H. Qed.

(** The binade found lies at or below the number. *)
Lemma binade_le q : ~ q == 0 -> 2 ^ Float.binade q <= Qabs q.
Proof.
  intros Hq. unfold Float.binade.
  set (n := Z.abs (Qnum q)). set (d := Z.pos (Qden q)).
  destruct (Qle_bool (2 ^ (Z.log2 n - Z.log2 d)) (Qabs q)) eqn:E.
  - apply Qle_bool_iff. exact E.
  - clear E.
    assert (Hn : (0 < n)%Z).
    { subst n. destruct q as [[|a|a] b]; cbn; try lia. exfalso. apply Hq. reflexivity. }
    destruct (Z.log2_spec n Hn) as (Hlo & _).
    destruct (Z.log2_spec d ltac:(subst d; lia)) as (_ & Hhi).
    assert (Ea : (0 <= Z.log2 n)%Z) by apply Z.log2_nonneg.
    assert (Eb : (0 <= Z.log2 d)%Z) by apply Z.log2_nonneg.
    replace (Z.log2 n - Z.log2 d - 1)%Z with (Z.log2 n - Z.succ (Z.log2 d))%Z by lia.
    rewrite (Qpower_minus _ _ _ two_ne).
    rewrite <- (Zpower_Qpower 2 _ Ea), <- (Zpower_Qpower 2 (Z.succ (Z.log2 d))) by lia.
    assert (Habs : Qabs q == inject_Z n / inject_Z d).
    { destruct q as [a b]. subst n d. cbn [Qabs Qnum Qden].
      unfold Qeq, Qdiv, Qmult, Qinv, inject_Z. cbn. lia. }
    rewrite Habs.
    apply Qle_shift_div_l; [apply inject_Z_pos; subst d; lia|].
    unfold Qdiv. rewrite <- Qmult_assoc.
    apply Qle_trans with (inject_Z (2 ^ Z.log2 n) * 1);
      [|rewrite Qmult_1_r, <- Zle_Qle; exact Hlo].
    apply Qmult_le_l; [apply inject_Z_pos; lia|].
    rewrite Qmult_comm. apply Qle_shift_div_r; [apply inject_Z_pos; lia|].
    rewrite Qmult_1_l, <- Zle_Qle. lia.
Qed.

(** A number with at most [prec] significant bits is not changed by
    rounding. *)
Lemma round_exact prec q m k :
  q == inject_Z m * 2 ^ k -> (Z.abs m < 2 ^ prec)%Z -> (0 <= prec)%Z ->
  Float.round prec q == q.
Proof.
  intros Hq Hm Hp. unfold Float.round.
  destruct (Qeq_bool q 0) eqn:E0.
  - apply Qeq_bool_iff in E0. rewrite E0. reflexivity.
  - assert (Hne : ~ q == 0) by (apply Qeq_bool_neq; exact E0).
    cbv zeta. set (e := (Float.binade q - (prec - 1))%Z).
    assert (He : (e <= k)%Z).
    { assert (Hlt : 2 ^ Float.binade q < 2 ^ (prec + k)).
      { apply Qle_lt_trans with (Qabs q); [apply binade_le; exact Hne|].
        rewrite Hq, Qabs_Qmult, (Qabs_pos (2 ^ k)) by (apply Qlt_le_weak, two_pos).
        rewrite (Qpower_plus _ _ _ two_ne).
        apply Qmult_lt_r; [apply two_pos|].
        rewrite <- (Zpower_Qpower 2 prec Hp).
        assert (Ea : Qabs (inject_Z m) == inject_Z (Z.abs m)) by reflexivity.
        rewrite Ea, <- Zlt_Qlt. exact Hm. }
      apply Qpower_lt_compat_l_inv in Hlt; [subst e; lia | reflexivity]. }
    assert (Hint : q / 2 ^ e == inject_Z (m * 2 ^ (k - e))).
    { rewrite Hq, inject_Z_mult, (Zpower_Qpower 2 (k - e)) by lia.
      rewrite (Qpower_minus _ _ _ two_ne).
      unfold Qdiv. ring. }
    rewrite (nearest_even_Z _ _ Hint), <- Hint.
    field. apply Qpower_not_0. exact two_ne.
Qed.

(** For an ordinary reference the sum with 0.5 is exact. *)
Lemma ordinary_half_exact x :
  ordinary x -> Float.double (x + (1 # 2)) == x + (1 # 2).
Proof.
  intros (m & k & Hm & Hk & Hx). unfold Float.double.
  destruct (Z_le_gt_dec (-1) k) as [Hge|Hlt].
  - apply (round_exact 53 _ (m * 2 ^ (k + 1) + 1) (-1)); [| |lia].
    + rewrite Hx, inject_Z_plus, inject_Z_mult, (Zpower_Qpower 2 (k + 1)) by lia.
      rewrite (Qpower_plus _ _ _ two_ne).
      change (2 ^ (-1)) with (1 # 2). change (2 ^ 1) with 2.
      change (inject_Z 1) with 1. ring.
    + assert (H2 : (0 < 2 ^ (k + 1) <= 2 ^ 28)%Z).
      { split; [apply Z.pow_pos_nonneg; lia | apply Z.pow_le_mono_r; lia]. }
      change (2 ^ 24)%Z with 16777216%Z in Hm.
      change (2 ^ 28)%Z with 268435456%Z in H2.
      change (2 ^ 53)%Z with 9007199254740992%Z. nia.
  - apply (round_exact 53 _ (m + 2 ^ (- k - 1)) k); [| |lia].
    + rewrite Hx, inject_Z_plus, (Zpower_Qpower 2 (- k - 1)) by lia.
      replace (- k - 1)%Z with (- 1 - k)%Z by lia.
      rewrite (Qpower_minus _ _ _ two_ne).
      change (2 ^ (-1)) with (1 # 2). field. apply Qpower_not_0. exact two_ne.
    + assert (H2 : (0 < 2 ^ (- k - 1) <= 2 ^ 52)%Z).
      { split; [apply Z.pow_pos_nonneg; lia | apply Z.pow_le_mono_r; lia]. }
      change (2 ^ 24)%Z with 16777216%Z in Hm.
      change (2 ^ 52)%Z with 4503599627370496%Z in H2.
      change (2 ^ 53)%Z with 9007199254740992%Z. lia.
Qed.

End Rounding.

(* ================================================================= *)
(** ** The low damping stage *)

Lemma bind_ext {A B} (m : M A) (f g : A -> M B) s :
  (forall a s', f a s' = g a s') -> bind m f s = bind m g s.
Proof. intros H. unfold bind. destruct (m s) as [[a|] s1]; [apply H | reflexivity]. Qed.

Lemma tick_split env fuel s :
  sequenceRunning s = true ->
  processEncoderEvents env fuel s =
    (dist <- tick_prefix env fuel ;; low_damping env fuel dist) s.
Proof.
  intros Hrun. unfold processEncoderEvents.
  rewrite (bind_done (gets sequenceRunning) _ s _ s eq_refl), Hrun. cbn [negb].
  unfold tick_prefix, low_damping.
  repeat (rewrite bind_assoc; apply bind_ext; intros).
  reflexivity.
Qed.

Lemma Qltb_true x y : Qltb x y = true <-> (x < y)%Q.
Proof.
  unfold Qltb. rewrite negb_true_iff. split.
  - intros H. apply Qnot_le_lt. intros Hle. apply Qle_bool_iff in Hle. congruence.
  - intros H. destruct (Qle_bool y x) eqn:E; [|reflexivity].
    apply Qle_bool_iff in E. exfalso. exact (Qlt_not_le _ _ H E).
Qed.

Lemma Qltb_false x y : Qltb x y = false <-> (y <= x)%Q.
Proof.
  unfold Qltb. rewrite negb_false_iff. apply Qle_bool_iff.
Qed.

Section ShortPull.

Variable env : Env.

Lemma waitShortPull_loop_done start j :
  forall fuel s,
    (forall i, i < j ->
       (dist_in env (dist_next s + i) < Float.double (start + (1 # 2)))%Q) ->
    (Float.double (start + (1 # 2)) <= dist_in env (dist_next s + j))%Q ->
    j < fuel ->
    waitShortPull_loop env fuel start s = (Some tt, read_ahead (S j) s).
Proof.
  induction j as [|j IH]; intros [|fuel] s Hlow Hhigh Hj; try lia;
    cbn [waitShortPull_loop];
    rewrite (bind_done (readDistance env) _ s _ (step_dist s) eq_refl).
  - rewrite Nat.add_0_r in Hhigh. apply Qltb_false in Hhigh. rewrite Hhigh.
    reflexivity.
  - pose proof (Hlow 0 ltac:(lia)) as H0. rewrite Nat.add_0_r in H0.
    apply Qltb_true in H0. rewrite H0.
    change (waitShortPull_loop env fuel start (step_dist s) =
            (Some tt, read_ahead (S j) (step_dist s))).
    apply IH; [| |lia]; cbn [dist_next step_dist].
    + intros i Hi. replace (S (dist_next s) + i) with (dist_next s + S i) by lia.
      apply Hlow. lia.
    + replace (S (dist_next s) + j) with (dist_next s + S j) by lia. exact Hhigh.
Qed.

Lemma waitShortPull_loop_starved start :
  forall fuel s,
    (forall i, i < fuel ->
       (dist_in env (dist_next s + i) < Float.double (start + (1 # 2)))%Q) ->
    waitShortPull_loop env fuel start s = (None, read_ahead fuel s).
Proof.
  induction fuel as [|fuel IH]; intros s Hlow; [reflexivity|].
  cbn [waitShortPull_loop].
  rewrite (bind_done (readDistance env) _ s _ (step_dist s) eq_refl).
  pose proof (Hlow 0 ltac:(lia)) as H0. rewrite Nat.add_0_r in H0.
  apply Qltb_true in H0. rewrite H0.
  change (waitShortPull_loop env fuel start (step_dist s) =
          (None, read_ahead fuel (step_dist s))).
  apply IH. intros i Hi. cbn [dist_next step_dist].
  replace (S (dist_next s) + i) with (dist_next s + S i) by lia.
  apply Hlow. lia.
Qed.

Lemma waitShortPull_done fuel j s :
  pulled env j s -> j < fuel ->
  waitShortPull env fuel s = (Some tt, read_ahead (2 + j) s).
Proof.
  intros (Hlow & Hhigh) Hj. unfold waitShortPull.
  rewrite (bind_done (readDistance env) _ s _ (step_dist s) eq_refl).
  apply (waitShortPull_loop_done _ j fuel (step_dist s)); assumption.
Qed.

Lemma waitShortPull_starved fuel s :
  (forall i, i < fuel -> (pull_reading env i s < pull_target env s)%Q) ->
  waitShortPull env fuel s = (None, read_ahead (S fuel) s).
Proof.
  intros Hlow. unfold waitShortPull.
  rewrite (bind_done (readDistance env) _ s _ (step_dist s) eq_refl).
  apply (waitShortPull_loop_starved _ fuel (step_dist s)). exact Hlow.
Qed.

End ShortPull.

Lemma read_ahead_channel n :
  forall s, lastRemoteIp (read_ahead n s) = lastRemoteIp s /\
            lastRemotePort (read_ahead n s) = lastRemotePort s /\
            trace (read_ahead n s) = trace s /\
            brake (read_ahead n s) = brake s.
Proof.
  induction n as [|n IH]; intros s; [repeat split|].
  cbn [read_ahead]. destruct (IH (step_dist s)) as (H1 & H2 & H3 & H4).
  rewrite H1, H2, H3, H4. repeat split.
Qed.

Lemma poll_state_brake env k :
  forall s, brake (poll_state env k s) = brake s.
Proof.
  induction k as [|k IH]; intros s; [reflexivity|].
  cbn [poll_state]. rewrite IH.
  destruct (exec_read_cases env s) as [-> | (pk & _ & ->)]; reflexivity.
Qed.

Section LowDamping.

Variable env : Env.
Variable fuel : nat.







End LowDamping.





(* ================================================================= *)
(** ** Further properties of the waits *)

Lemma matches_any_In m targets : matches_any m targets = true <-> In m targets.
Proof.
  induction targets as [|t r IH]; cbn; [split; [discriminate | tauto]|].
  destruct (String.eqb_spec m t) as [->|Hne].
  - split; auto.
  - rewrite IH. split; [auto | intros [H|H]; [congruence | exact H]].
Qed.

Lemma unmatched_of_not_In env targets k s :
  (forall j m, poll_msg env j s = Some m -> ~ In m targets) ->
  unmatched env targets k s.
Proof.
  intros H j m _ Hm. destruct (matches_any m targets) eqn:E; [|reflexivity].
  apply matches_any_In in E. exfalso. exact (H j m Hm E).
Qed.

(** X1. [waitForCmdAny targets] returns exactly at the first call of the
    receive routine that delivers a member of [targets], and returns that
    message; before that it consumes and drops everything; if no call
    ever delivers a member it returns for no bound, in particular for an
    empty list of targets. *)
Theorem wait_for_any_returns_first_match
        (env : Env) (targets : list string) (s : St) :
  (forall fuel m s',
      waitForCmdAny env fuel targets s = (Some m, s') ->
      In m targets /\
      exists k, k < fuel /\ poll_msg env k s = Some m /\
                (forall j m', j < k -> poll_msg env j s = Some m' -> ~ In m' targets) /\
                s' = poll_state env (S k) s /\
                udp_next s' = udp_next s + S k) /\
  (forall k fuel m,
      poll_msg env k s = Some m -> In m targets ->
      (forall j m', j < k -> poll_msg env j s = Some m' -> ~ In m' targets) ->
      k < fuel ->
      waitForCmdAny env fuel targets s = (Some m, poll_state env (S k) s)) /\
  ((forall k m, poll_msg env k s = Some m -> ~ In m targets) ->
   forall fuel, waitForCmdAny env fuel targets s = (None, poll_state env fuel s)) /\
  (forall fuel, waitForCmdAny env fuel [] s = (None, poll_state env fuel s)).
Proof.
  split; [|split; [|split]].
  - intros fuel m s' H.
    destruct (waitForCmdAny_inv _ _ _ _ _ _ H) as (k & Hk & (Hm & Hin & Hun) & Hs).
    split; [apply matches_any_In; exact Hin|].
    exists k. repeat split; try assumption.
    + intros j m' Hj Hm' Hc. apply matches_any_In in Hc.
      rewrite (Hun j m' Hj Hm') in Hc. discriminate.
    + rewrite Hs. apply udp_next_poll_state.
  - intros k fuel m Hm Hin Hun Hk. apply waitForCmdAny_found; [|exact Hk].
    repeat split; [exact Hm | apply matches_any_In; exact Hin |].
    intros j m' Hj Hm'. destruct (matches_any m' targets) eqn:E; [|reflexivity].
    apply matches_any_In in E. exfalso. exact (Hun j m' Hj Hm' E).
  - intros Hnever fuel. apply waitForCmdAny_starved.
    apply unmatched_of_not_In. exact Hnever.
  - intros fuel. apply waitForCmdAny_starved. intros j m _ _. reflexivity.
Qed.

Lemma wait_for_any_returns_first_match_witness :
  poll_msg decoy_session 3 (boot Locked) = Some "Start" /\
  waitForCmdAny decoy_session 5 ["OK"; "Start"] (boot Locked) =
    (Some "Start", poll_state decoy_session 4 (boot Locked)).
Proof.
  split; [vm_compute; reflexivity|].
  apply (proj1 (proj2 (wait_for_any_returns_first_match
                         decoy_session ["OK"; "Start"] (boot Locked))) 3 5 "Start").
  - vm_compute; reflexivity.
  - right. left. reflexivity.
  - intros j m' Hj Hm' Hin.
    destruct j as [|[|[|j]]]; [| | |lia]; vm_compute in Hm';
      try discriminate Hm'; injection Hm' as <-;
      destruct Hin as [H|[H|[]]]; discriminate H.
  - lia.
Defined.

Lemma waitShortPull_loop_inv env start :
  forall fuel s s',
    waitShortPull_loop env fuel start s = (Some tt, s') ->
    exists j, j < fuel /\
      (forall i, i < j ->
         (dist_in env (dist_next s + i) < Float.double (start + (1 # 2)))%Q) /\
      (Float.double (start + (1 # 2)) <= dist_in env (dist_next s + j))%Q /\
      s' = read_ahead (S j) s.
Proof.
  induction fuel as [|fuel IH]; intros s s' H; [discriminate|].
  cbn [waitShortPull_loop] in H.
  rewrite (bind_done (readDistance env) _ s _ (step_dist s) eq_refl) in H.
  destruct (Qltb (dist_in env (dist_next s)) (Float.double (start + (1 # 2)))) eqn:E.
  - apply Qltb_true in E.
    destruct (IH (step_dist s) s' H) as (j & Hj & Hlow & Hhigh & Hs).
    exists (S j). cbn [dist_next step_dist] in Hlow, Hhigh.
    split; [lia|]. split; [|split].
    + intros [|i] Hi; [rewrite Nat.add_0_r; exact E|].
      replace (dist_next s + S i) with (S (dist_next s) + i) by lia.
      apply Hlow. lia.
    + replace (dist_next s + S j) with (S (dist_next s) + j) by lia. exact Hhigh.
    + exact Hs.
  - apply Qltb_false in E. injection H as <-.
    exists 0. split; [lia|]. split; [intros i Hi; lia|].
    split; [rewrite Nat.add_0_r; exact E | reflexivity].
Qed.

Lemma read_ahead_cursor n :
  forall s, dist_next (read_ahead n s) = dist_next s + n /\
            udp_next (read_ahead n s) = udp_next s /\
            sequenceRunning (read_ahead n s) = sequenceRunning s /\
            currentArray (read_ahead n s) = currentArray s.
Proof.
  induction n as [|n IH]; intros s; [repeat split; cbn; lia|].
  cbn [read_ahead]. destruct (IH (step_dist s)) as (H1 & H2 & H3 & H4).
  rewrite H1, H2, H3, H4. cbn. repeat split. lia.
Qed.

(** X2. [waitShortPull] takes a reference reading and returns exactly at
    the first later reading that is not below the double-precision sum of
    the reference and 0.5; readings below that, a retreating cord
    included, keep it waiting, and it returns for no bound if none
    reaches it.  For an ordinary reference (zero or a [float] of magnitude
    from 2^-30 up to 2^51) the sum is exact: the wait ends at the first
    reading at least half a unit past the reference.  The wait only reads
    the encoder: it sends nothing, moves no brake and takes no datagram,
    so datagrams arriving meanwhile stay queued in the socket. *)
Theorem short_pull_returns_at_half_unit (env : Env) (s : St) :
  (forall fuel j,
      pulled env j s -> j < fuel ->
      waitShortPull env fuel s = (Some tt, read_ahead (2 + j) s)) /\
  (forall fuel s',
      waitShortPull env fuel s = (Some tt, s') ->
      exists j, j < fuel /\ pulled env j s /\ s' = read_ahead (2 + j) s) /\
  (forall fuel,
      (forall i, i < fuel -> (pull_reading env i s < pull_target env s)%Q) ->
      waitShortPull env fuel s = (None, read_ahead (S fuel) s)) /\
  (ordinary (dist_in env (dist_next s)) ->
   (pull_target env s == dist_in env (dist_next s) + (1 # 2))%Q /\
   forall fuel j,
     j < fuel ->
     (forall i, i < j ->
        (pull_reading env i s < dist_in env (dist_next s) + (1 # 2))%Q) ->
     (dist_in env (dist_next s) + (1 # 2) <= pull_reading env j s)%Q ->
     waitShortPull env fuel s = (Some tt, read_ahead (2 + j) s)) /\
  (forall n,
      dist_next (read_ahead n s) = dist_next s + n /\
      udp_next (read_ahead n s) = udp_next s /\
      trace (read_ahead n s) = trace s /\
      brake (read_ahead n s) = brake s /\
      lastRemoteIp (read_ahead n s) = lastRemoteIp s).
Proof.
  split; [|split; [|split; [|split]]].
  - intros fuel j Hp Hj. apply waitShortPull_done; assumption.
  - intros fuel s' H. unfold waitShortPull in H.
    rewrite (bind_done (readDistance env) _ s _ (step_dist s) eq_refl) in H.
    destruct (waitShortPull_loop_inv _ _ _ _ _ H) as (j & Hj & Hlow & Hhigh & Hs).
    exists j. split; [exact Hj|]. split; [split; assumption | exact Hs].
  - intros fuel Hlow. apply waitShortPull_starved. exact Hlow.
  - intros Hord.
    assert (E : (pull_target env s == dist_in env (dist_next s) + (1 # 2))%Q)
      by (apply ordinary_half_exact; exact Hord).
    split; [exact E|].
    intros fuel j Hj Hlow Hhigh. apply waitShortPull_done; [|exact Hj].
    split.
    + intros i Hi. rewrite E. apply Hlow. exact Hi.
    + rewrite E. exact Hhigh.
  - intros n. destruct (read_ahead_cursor n s) as (H1 & H2 & _).
    destruct (read_ahead_channel n s) as (H3 & _ & H4 & H5).
    repeat split; assumption.
Qed.

Lemma short_pull_returns_at_half_unit_witness :
  let s := read_ahead 2 (boot Released) in
  dist_in continue_session (dist_next s) = 42 # 1 /\
  pull_reading continue_session 0 s = 169 # 4 /\
  pull_reading continue_session 1 s = 171 # 4 /\
  (pull_target continue_session s == 85 # 2)%Q /\
  waitShortPull continue_session 3 s = (Some tt, read_ahead 3 s).
Proof.
  cbv zeta.
  set (s := read_ahead 2 (boot Released)).
  assert (Hord : ordinary (dist_in continue_session (dist_next s))).
  { exists 42%Z, 0%Z. split; [reflexivity|]. split; [lia|]. vm_compute. reflexivity. }
  destruct (proj1 (proj2 (proj2 (proj2
              (short_pull_returns_at_half_unit continue_session s)))) Hord)
    as (E & Hdone).
  split; [vm_compute; reflexivity|]. split; [vm_compute; reflexivity|].
  split; [vm_compute; reflexivity|].
  split; [rewrite E; vm_compute; reflexivity|].
  apply (Hdone 3 1); [lia | | vm_compute; discriminate].
  intros [|i] Hi; [vm_compute; reflexivity | lia].
Defined.

(* ----------------------------------------------------------------- *)

Lemma poll_state_off_channel env k :
  forall s, off_channel_equal s (poll_state env k s).
Proof.
  induction k as [|k IH]; intros s; [repeat split|].
  cbn [poll_state].
  destruct (IH (exec (readIncomingUDP env) s))
    as (H1 & H2 & H3 & H4 & H5 & H6 & H7 & H8).
  unfold off_channel_equal. rewrite H1, H2, H3, H4, H5, H6, H7, H8.
  destruct (exec_read_cases env s) as [-> | (pk & _ & ->)]; repeat split.
Qed.

Lemma polls_add_only_recv env k :
  forall s, exists u, trace (poll_state env k s) = (trace s ++ u)%list /\
                      forallb is_recv u = true.
Proof.
  induction k as [|k IH]; intros s.
  - exists []. split; [symmetry; apply app_nil_r | reflexivity].
  - destruct (IH (exec (readIncomingUDP env) s)) as (v & Hv & Sv).
    cbn [poll_state]. rewrite Hv.
    destruct (exec_read_cases env s) as [-> | (pk & _ & ->)].
    + exists v. split; [reflexivity | exact Sv].
    + eexists (_ :: v). cbn [trace taken set_packetBuffer set_remote emit step_udp].
      rewrite <- app_assoc. split; [reflexivity | exact Sv].
Qed.

(** X3. A pending wait acts on nothing but the command channel: whatever
    arrives while [waitForCmd] or [waitForCmdAny] polls (Start, Stop and
    Winding included) is only taken from the socket.  The brake, the run
    flag, the profiles, the console buffer and the other cursors stay as
    they were, and the wait adds nothing but receptions to the I/O
    history: the device cannot be started, stopped or rewound while it
    waits. *)
Theorem waits_touch_only_the_channel (env : Env) (fuel : nat) (s : St) :
  (forall target,
      off_channel_equal s (exec (waitForCmd env fuel target) s) /\
      forallb is_recv (added (waitForCmd env fuel target) s) = true) /\
  (forall targets,
      off_channel_equal s (exec (waitForCmdAny env fuel targets) s) /\
      forallb is_recv (added (waitForCmdAny env fuel targets) s) = true).
Proof.
  split.
  - intros target. destruct (waitForCmd_exec env target fuel s) as (n & Hn).
    unfold added. rewrite Hn. split; [apply poll_state_off_channel|].
    destruct (polls_add_only_recv env n s) as (u & -> & Hu).
    rewrite skipn_exact. exact Hu.
  - intros targets. destruct (waitForCmdAny_exec env targets fuel s) as (n & Hn).
    unfold added. rewrite Hn. split; [apply poll_state_off_channel|].
    destruct (polls_add_only_recv env n s) as (u & -> & Hu).
    rewrite skipn_exact. exact Hu.
Qed.

(* ================================================================= *)
(** ** Further properties of the dispatcher *)

Lemma handleUDPMessages_cases env s :
  (udp_in env (udp_next s) = None /\
   handleUDPMessages env s = (Some tt, step_udp s)) \/
  (exists pk,
      udp_in env (udp_next s) = Some pk /\
      handleUDPMessages env s = dispatch env (message_in pk s) (taken pk s)).
Proof.
  unfold handleUDPMessages. destruct (udp_in env (udp_next s)) as [pk|] eqn:E.
  - right. exists pk. split; [reflexivity|].
    rewrite (bind_done _ _ _ _ _ (readIncomingUDP_taken env s pk E)). reflexivity.
  - left. split; [reflexivity|].
    rewrite (bind_done _ _ _ _ _ (readIncomingUDP_idle env s E)). reflexivity.
Qed.

Lemma off_channel_refl s : off_channel_equal s s.
Proof. repeat split. Qed.

Lemma off_channel_trans s1 s2 s3 :
  off_channel_equal s1 s2 -> off_channel_equal s2 s3 -> off_channel_equal s1 s3.
Proof.
  intros (A1 & A2 & A3 & A4 & A5 & A6 & A7 & A8)
         (B1 & B2 & B3 & B4 & B5 & B6 & B7 & B8).
  unfold off_channel_equal.
  rewrite B1, B2, B3, B4, B5, B6, B7, B8. repeat split; assumption.
Qed.

Lemma actuations_app t u :
  actuations (t ++ u) = (actuations t ++ actuations u)%list.
Proof. apply filter_app. Qed.

(** What one call of [sendUDPMessageToLast] does. *)
Lemma send_effect msg x :
  exists x' u,
    sendUDPMessageToLast msg x = (Some tt, x') /\
    trace x' = (trace x ++ u)%list /\ actuations u = [] /\
    off_channel_equal x x' /\ udp_next x' = udp_next x.
Proof.
  unfold sendUDPMessageToLast, bind, gets.
  destruct (lastRemoteIp x =? 0)%N.
  - exists x, []. rewrite app_nil_r. repeat split.
  - eexists _, [_]. repeat split.
Qed.

Lemma taken_effect pk s :
  trace (taken pk s) =
    (trace s ++ [EvRecv (pk_ip pk) (pk_port pk) (pk_data pk)])%list /\
  off_channel_equal s (taken pk s) /\ udp_next (taken pk s) = S (udp_next s).
Proof. repeat split. Qed.

Section DispatchFrame.

Variable env : Env.
Variable P : St -> Prop.
Hypothesis kept_send : forall msg, preserves P (sendUDPMessageToLast msg).
Hypothesis kept_brake : forall b, preserves P (Actuator_set b).
Hypothesis kept_wind : preserves P motorWindBack.
Hypothesis kept_start : preserves P (startEventSequence env).

Lemma preserves_dispatch msg : preserves P (dispatch env msg).
Proof.
  unfold dispatch, servoBrakeLock. frame;
    first [ apply kept_send | apply kept_brake | apply kept_wind | apply kept_start ].
Qed.

End DispatchFrame.

Lemma dispatch_cursor env msg x :
  udp_next (exec (dispatch env msg) x) = udp_next x.
Proof.
  apply (preserves_dispatch env (fun y => udp_next y = udp_next x));
    try reflexivity.
  - intros m s H. destruct (send_effect m s) as (s' & u & E & _ & _ & _ & Hc).
    unfold exec. rewrite E. cbn [snd]. congruence.
  - intros b s H. exact H.
  - intros s H. exact H.
  - intros s H. exact H.
Qed.

Lemma handleUDPMessages_cursor env s :
  udp_next (exec (handleUDPMessages env) s) = S (udp_next s).
Proof.
  unfold exec.
  destruct (handleUDPMessages_cases env s) as [(_ & ->) | (pk & _ & ->)];
    [reflexivity|].
  apply (dispatch_cursor env _ (taken pk s)).
Qed.

Lemma silent_polls env s :
  silent_from env (udp_next s) -> forall k, poll_msg env k s = None.
Proof.
  intros H k. rewrite poll_msg_socket. rewrite (H (udp_next s + k)); [reflexivity|lia].
Qed.

(** X4. The dispatcher consumes what it reads: each call of
    [handleUDPMessages] takes exactly one poll of the socket, and a wait
    entered afterwards starts with the next one.  So if the socket
    delivers nothing after the datagram the dispatcher took, a wait that
    follows never returns, even when that datagram was the very
    acknowledgment the wait is for. *)
Theorem dispatcher_consumes_what_it_reads (env : Env) (s : St) :
  silent_from env (S (udp_next s)) ->
  udp_next (exec (handleUDPMessages env) s) = S (udp_next s) /\
  (forall fuel target,
      outcome (handleUDPMessages env ;; waitForCmd env fuel target) s = None) /\
  (forall fuel targets,
      outcome (handleUDPMessages env ;; waitForCmdAny env fuel targets) s = None).
Proof.
  intros Hsilent.
  pose proof (handleUDPMessages_cursor env s) as Hc.
  assert (Hq : forall k, poll_msg env k (exec (handleUDPMessages env) s) = None).
  { apply silent_polls. rewrite Hc. exact Hsilent. }
  split; [exact Hc|]. unfold outcome, bind, exec in *.
  destruct (handleUDPMessages env s) as [[[]|] s1]; cbn [snd] in Hq;
    [|split; reflexivity].
  split.
  - intros fuel target. rewrite waitForCmd_starved; [reflexivity|].
    intros j m _ Hm. rewrite Hq in Hm. discriminate.
  - intros fuel targets. rewrite waitForCmdAny_starved; [reflexivity|].
    intros j m _ Hm. rewrite Hq in Hm. discriminate.
Qed.

Lemma dispatcher_consumes_what_it_reads_witness :
  udp_in early_session (udp_next (boot Locked)) = from_operator "OK" /\
  silent_from early_session 1 /\
  (forall fuel,
      outcome (handleUDPMessages early_session ;;
               waitForCmd early_session fuel "OK") (boot Locked) = None).
Proof.
  assert (H : silent_from early_session 1).
  { intros [|k] Hk; [lia | reflexivity]. }
  split; [reflexivity|]. split; [exact H|].
  intros fuel.
  apply (proj1 (proj2 (dispatcher_consumes_what_it_reads
                         early_session (boot Locked) H))).
Defined.

Lemma effect_trans x y z a b :
  effect x y a -> effect y z b -> effect x z (a ++ b)%list.
Proof.
  intros (u & Hu & Au) (v & Hv & Av). exists (u ++ v)%list.
  rewrite Hv, Hu, app_assoc, actuations_app, Au, Av. split; reflexivity.
Qed.

Lemma effect_added {A} (m : M A) s acts :
  effect s (exec m s) acts -> actuations (added m s) = acts.
Proof.
  intros (u & Hu & Au). rewrite (added_of_extension _ _ _ Hu). exact Au.
Qed.

Lemma effect_taken pk s : effect s (taken pk s) [].
Proof. eexists [_]. split; reflexivity. Qed.

Lemma effect_actuator b x :
  effect x (emit (EvBrake b) (set_brake b x)) [EvBrake b].
Proof. exists [EvBrake b]. split; reflexivity. Qed.

Lemma effect_wind x : effect x (emit EvWind x) [EvWind].
Proof. exists [EvWind]. split; reflexivity. Qed.

Lemma send_run msg x :
  exists x', sendUDPMessageToLast msg x = (Some tt, x') /\
             effect x x' [] /\ off_channel_equal x x'.
Proof.
  destruct (send_effect msg x) as (x' & u & E & T & A & O & _).
  exists x'. split; [exact E|]. split; [exists u; split; assumption | exact O].
Qed.

(** X5. A datagram whose message is "Stop", taken by the dispatcher,
    locks the brake and does nothing else to the sequencer: the run flag,
    the active profile, the bank and the encoder cursor are untouched, so
    an active run stays active, and the only actuator command issued is
    the lock. *)
Theorem stop_command_only_locks (env : Env) (s : St) (pk : Packet) :
  udp_in env (udp_next s) = Some pk ->
  message_in pk s = "Stop" ->
  let s' := exec (handleUDPMessages env) s in
  outcome (handleUDPMessages env) s = Some tt /\
  brake s' = Locked /\
  actuations (added (handleUDPMessages env) s) = [EvBrake Locked] /\
  sequenceRunning s' = sequenceRunning s /\
  currentArray s' = currentArray s /\
  distanceArrays s' = distanceArrays s /\
  dist_next s' = dist_next s.
Proof.
  intros Hpk Hmsg. cbv zeta.
  destruct (handleUDPMessages_cases env s) as [(E & _) | (pk' & E & Hrun)];
    [congruence|].
  rewrite Hpk in E. injection E as <-. rewrite Hmsg in Hrun.
  unfold dispatch in Hrun. cbn [String.eqb Ascii.eqb Bool.eqb] in Hrun.
  destruct (send_run "Stop" (taken pk s)) as (x1 & E1 & F1 & O1).
  rewrite (bind_done _ _ _ _ _ E1) in Hrun.
  rewrite (bind_done _ _ _ _ _ (actuator_run Locked x1)) in Hrun.
  destruct (send_run "ACK: Stop" (emit (EvBrake Locked) (set_brake Locked x1)))
    as (x2 & E2 & F2 & O2).
  rewrite E2 in Hrun.
  assert (Hf : effect s x2 [EvBrake Locked]).
  { apply (effect_trans _ _ _ [] _ (effect_taken pk s)).
    apply (effect_trans _ _ _ [] _ F1).
    apply (effect_trans _ _ _ [EvBrake Locked] [] (effect_actuator Locked x1) F2). }
  assert (He : exec (handleUDPMessages env) s = x2)
    by (unfold exec; rewrite Hrun; reflexivity).
  unfold outcome. rewrite Hrun. cbn [fst].
  split; [reflexivity|].
  rewrite <- He in Hf. rewrite (effect_added _ _ _ Hf), He.
  destruct O1 as (A1 & A2 & A3 & _ & _ & A6 & _).
  destruct O2 as (B1 & B2 & B3 & _ & B5 & B6 & _).
  cbn [distanceArrays currentArray sequenceRunning brake dist_next emit set_brake
       taken set_packetBuffer set_remote step_udp] in *.
  repeat split; congruence.
Qed.

Lemma stop_command_only_locks_witness :
  let s := exec (firmware command_session 3 1) (boot Released) in
  sequenceRunning s = true /\
  udp_in command_session (udp_next s) = from_operator "Stop" /\
  brake (exec (handleUDPMessages command_session) s) = Locked /\
  sequenceRunning (exec (handleUDPMessages command_session) s) = true.
Proof.
  cbv zeta.
  assert (Hrun : sequenceRunning
                   (exec (firmware command_session 3 1) (boot Released)) = true)
    by (vm_compute; reflexivity).
  split; [exact Hrun|]. split; [vm_compute; reflexivity|].
  destruct (stop_command_only_locks command_session
              (exec (firmware command_session 3 1) (boot Released))
              (mkPacket operator_ip operator_port "Stop"))
    as (_ & Hb & _ & Hr & _).
  - vm_compute; reflexivity.
  - vm_compute; reflexivity.
  - split; [exact Hb|]. rewrite Hr. exact Hrun.
Defined.

Lemma shaped_off_channel s x :
  off_channel_equal s x -> arrays_shaped s -> arrays_shaped x.
Proof.
  intros (A1 & A2 & _) (H1 & H2 & H3). unfold arrays_shaped.
  rewrite A1, A2. repeat split; assumption.
Qed.

(** X6. A datagram whose message is "Start", taken by the dispatcher,
    makes the run active with the bank row selected by the next draw of
    the generator as active profile, whether or not a run was active
    before.  It issues no actuator command and leaves the brake, the bank
    and the encoder cursor as they were: starting neither releases the
    brake nor resets the distance. *)
Theorem start_command_arms_a_run (env : Env) (s : St) (pk : Packet) :
  udp_in env (udp_next s) = Some pk ->
  message_in pk s = "Start" ->
  arrays_shaped s ->
  let s' := exec (handleUDPMessages env) s in
  outcome (handleUDPMessages env) s = Some tt /\
  sequenceRunning s' = true /\
  currentArray s' =
    nth (Z.to_nat (Arduino.random_of 0 10 (rand_in env (rand_next s))))
        (distanceArrays s) [] /\
  rand_next s' = S (rand_next s) /\
  actuations (added (handleUDPMessages env) s) = [] /\
  brake s' = brake s /\
  distanceArrays s' = distanceArrays s /\
  dist_next s' = dist_next s.
Proof.
  intros Hpk Hmsg Hshape. cbv zeta.
  destruct (handleUDPMessages_cases env s) as [(E & _) | (pk' & E & Hrun)];
    [congruence|].
  rewrite Hpk in E. injection E as <-. rewrite Hmsg in Hrun.
  unfold dispatch in Hrun. cbn [String.eqb Ascii.eqb Bool.eqb] in Hrun.
  destruct (taken_effect pk s) as (_ & O0 & _).
  destruct (send_run "Start" (taken pk s)) as (x1 & E1 & F1 & O1).
  rewrite (bind_done _ _ _ _ _ E1) in Hrun.
  pose proof (off_channel_trans _ _ _ O0 O1) as O01.
  pose proof (shaped_off_channel _ _ O01 Hshape) as Hshape1.
  rewrite (bind_done _ _ _ _ _ (startEventSequence_copies env x1 Hshape1)) in Hrun.
  match type of Hrun with
  | _ = sendUDPMessageToLast _ ?x =>
      destruct (send_run "ACK: Start" x) as (x2 & E2 & F2 & O2);
      assert (F12 : effect x1 x []) by (exists []; rewrite app_nil_r; split; reflexivity)
  end.
  rewrite E2 in Hrun.
  assert (Hf : effect s x2 []).
  { apply (effect_trans _ _ _ [] _ (effect_taken pk s)).
    apply (effect_trans _ _ _ [] _ F1).
    apply (effect_trans _ _ _ [] [] F12 F2). }
  assert (He : exec (handleUDPMessages env) s = x2)
    by (unfold exec; rewrite Hrun; reflexivity).
  unfold outcome. rewrite Hrun. cbn [fst].
  split; [reflexivity|].
  rewrite <- He in Hf. rewrite (effect_added _ _ _ Hf), He.
  destruct O01 as (A1 & _ & _ & _ & A5 & A6 & A7 & _).
  destruct O2 as (B1 & B2 & B3 & _ & B5 & B6 & B7 & _).
  cbn [distanceArrays currentArray sequenceRunning brake dist_next rand_next
       set_sequenceRunning set_currentArray step_rand] in *.
  rewrite B1, B2, B3, B5, B6, B7, A1, A5, A6, A7. repeat split.
Qed.

Lemma start_command_arms_a_run_witness :
  let s := exec (setup command_session) (boot Locked) in
  udp_in command_session (udp_next s) = from_operator "Start" /\
  arrays_shaped s /\
  sequenceRunning (exec (handleUDPMessages command_session) s) = true /\
  currentArray (exec (handleUDPMessages command_session) s) =
    [12 # 1; 22 # 1; 32 # 1; 42 # 1] /\
  brake (exec (handleUDPMessages command_session) s) = Locked.
Proof.
  cbv zeta.
  assert (H : arrays_shaped (exec (setup command_session) (boot Locked))).
  { unfold arrays_shaped. vm_compute.
    split; [reflexivity|]. split; [|reflexivity]. repeat constructor. }
  split; [vm_compute; reflexivity|]. split; [exact H|].
  destruct (start_command_arms_a_run command_session
              (exec (setup command_session) (boot Locked))
              (mkPacket operator_ip operator_port "Start"))
    as (_ & Hr & Hc & _ & _ & Hb & _).
  - vm_compute; reflexivity.
  - vm_compute; reflexivity.
  - exact H.
  - split; [exact Hr|]. split; [rewrite Hc; vm_compute; reflexivity|].
    rewrite Hb. reflexivity.
Defined.

(** X7. Every other datagram leaves the sequencer alone.  A message
    "Winding" issues the one rewind command; a message that is none of
    Start, Stop, Winding (matching is exact and case sensitive) issues no
    actuator command at all.  In both cases brake, run flag, profiles,
    console buffer and the encoder, generator and console cursors stay as
    they were.  Without a datagram the dispatcher only advances the
    socket cursor. *)
Theorem other_commands_leave_the_sequencer (env : Env) (s : St) :
  (udp_in env (udp_next s) = None ->
   handleUDPMessages env s = (Some tt, step_udp s)) /\
  (forall pk,
      udp_in env (udp_next s) = Some pk ->
      message_in pk s = "Winding" ->
      outcome (handleUDPMessages env) s = Some tt /\
      off_channel_equal s (exec (handleUDPMessages env) s) /\
      actuations (added (handleUDPMessages env) s) = [EvWind]) /\
  (forall pk,
      udp_in env (udp_next s) = Some pk ->
      message_in pk s <> "Start" ->
      message_in pk s <> "Stop" ->
      message_in pk s <> "Winding" ->
      outcome (handleUDPMessages env) s = Some tt /\
      off_channel_equal s (exec (handleUDPMessages env) s) /\
      actuations (added (handleUDPMessages env) s) = []).
Proof.
  split; [|split].
  - intros Hnone.
    destruct (handleUDPMessages_cases env s) as [(_ & E) | (pk & E & _)];
      [exact E | congruence].
  - intros pk Hpk Hmsg.
    destruct (handleUDPMessages_cases env s) as [(E & _) | (pk' & E & Hrun)];
      [congruence|].
    rewrite Hpk in E. injection E as <-. rewrite Hmsg in Hrun.
    unfold dispatch in Hrun. cbn [String.eqb Ascii.eqb Bool.eqb] in Hrun.
    destruct (taken_effect pk s) as (_ & O0 & _).
    destruct (send_run "Winding" (taken pk s)) as (x1 & E1 & F1 & O1).
    rewrite (bind_done _ _ _ _ _ E1) in Hrun.
    rewrite (bind_done _ _ _ _ _ (wind_run x1)) in Hrun.
    destruct (send_run "ACK: Winding" (emit EvWind x1)) as (x2 & E2 & F2 & O2).
    rewrite E2 in Hrun.
    assert (Hf : effect s x2 [EvWind]).
    { apply (effect_trans _ _ _ [] _ (effect_taken pk s)).
      apply (effect_trans _ _ _ [] _ F1).
      apply (effect_trans _ _ _ [EvWind] [] (effect_wind x1) F2). }
    assert (He : exec (handleUDPMessages env) s = x2)
      by (unfold exec; rewrite Hrun; reflexivity).
    unfold outcome. rewrite Hrun. cbn [fst]. split; [reflexivity|].
    rewrite <- He in Hf. rewrite (effect_added _ _ _ Hf), He.
    split; [|reflexivity].
    apply (off_channel_trans _ _ _ (off_channel_trans _ _ _ O0 O1)).
    apply (off_channel_trans _ (emit EvWind x1)); [repeat split | exact O2].
  - intros pk Hpk N1 N2 N3.
    destruct (handleUDPMessages_cases env s) as [(E & _) | (pk' & E & Hrun)];
      [congruence|].
    rewrite Hpk in E. injection E as <-.
    unfold dispatch in Hrun.
    destruct (String.eqb_spec (message_in pk s) "Start"); [contradiction|].
    destruct (String.eqb_spec (message_in pk s) "Stop"); [contradiction|].
    destruct (String.eqb_spec (message_in pk s) "Winding"); [contradiction|].
    destruct (taken_effect pk s) as (_ & O0 & _).
    destruct (send_run (message_in pk s) (taken pk s)) as (x1 & E1 & F1 & O1).
    rewrite (bind_done _ _ _ _ _ E1) in Hrun.
    destruct (send_run ("ACK: " ++ message_in pk s) x1) as (x2 & E2 & F2 & O2).
    rewrite E2 in Hrun.
    assert (Hf : effect s x2 []).
    { apply (effect_trans _ _ _ [] _ (effect_taken pk s)).
      apply (effect_trans _ _ _ [] [] F1 F2). }
    assert (He : exec (handleUDPMessages env) s = x2)
      by (unfold exec; rewrite Hrun; reflexivity).
    unfold outcome. rewrite Hrun. cbn [fst]. split; [reflexivity|].
    rewrite <- He in Hf. rewrite (effect_added _ _ _ Hf), He.
    split; [|reflexivity].
    exact (off_channel_trans _ _ _ (off_channel_trans _ _ _ O0 O1) O2).
Qed.

Lemma other_commands_leave_the_sequencer_witness :
  let s := exec (firmware command_session 3 3) (boot Released) in
  udp_in command_session (udp_next s) = from_operator "start" /\
  sequenceRunning s = true /\ brake s = Locked /\
  off_channel_equal s (exec (handleUDPMessages command_session) s) /\
  actuations (added (handleUDPMessages command_session) s) = [].
Proof.
  cbv zeta. split; [vm_compute; reflexivity|].
  split; [vm_compute; reflexivity|]. split; [vm_compute; reflexivity|].
  apply (proj2 (proj2 (other_commands_leave_the_sequencer command_session
                         (exec (firmware command_session 3 3) (boot Released))))
           (mkPacket operator_ip operator_port "start"));
    try (vm_compute; reflexivity); vm_compute; discriminate.
Defined.

(* ================================================================= *)
(** ** Further properties of the receive routine *)

Lemma nth_store_same {A} i (v d : A) l :
  i < List.length l -> nth i (store i v l) d = v.
Proof.
  revert i. induction l as [|x l IH]; intros [|i] H; simpl in *; try lia; auto.
  apply IH. lia.
Qed.

Lemma nth_store_other {A} i j (v d : A) l :
  i <> j -> nth j (store i v l) d = nth j l d.
Proof.
  revert i j. induction l as [|x l IH]; intros [|i] [|j] H; simpl; auto.
  congruence.
Qed.

Lemma store_app_head {A} (l : list A) v x r :
  store (List.length l) v (l ++ x :: r) = (l ++ v :: r)%list.
Proof. induction l as [|y l IH]; cbn; [reflexivity | rewrite IH; reflexivity]. Qed.

Lemma skipn_cons_nth {A} (d : A) n :
  forall l, n < List.length l -> skipn n l = nth n l d :: skipn (S n) l.
Proof.
  induction n as [|n IH]; intros [|x l] H; cbn in *; try lia; [reflexivity|].
  apply IH. lia.
Qed.

Lemma cstr_app_nul l r : Arduino.cstr (l ++ zero :: r) = Arduino.cstr l.
Proof.
  induction l as [|c l IH]; cbn; [reflexivity|].
  destruct (Ascii.eqb c zero); [reflexivity | rewrite IH; reflexivity].
Qed.

Lemma cstr_nul_free d :
  nul_free d = true -> Arduino.cstr (list_ascii_of_string d) = d.
Proof.
  induction d as [|c d IH]; cbn; [reflexivity|].
  destruct (Ascii.eqb c zero); cbn; [discriminate|].
  intros H. rewrite (IH H). reflexivity.
Qed.

Lemma length_list_ascii d : List.length (list_ascii_of_string d) = String.length d.
Proof. induction d as [|c d IH]; cbn; [reflexivity | rewrite IH; reflexivity]. Qed.

Lemma chunk_nonempty d :
  d <> "" -> 0 < List.length (firstn 254 (list_ascii_of_string d)).
Proof. destruct d as [|c d]; [congruence | cbn; lia]. Qed.

Lemma buffer_after_fresh d buf :
  d <> "" -> List.length buf = 255 ->
  exists rest,
    buffer_after d buf =
      (firstn 254 (list_ascii_of_string d) ++ zero :: rest)%list.
Proof.
  intros Hd Hlen. unfold buffer_after.
  pose proof (chunk_nonempty d Hd) as Hpos.
  pose proof (firstn_le_length 254 (list_ascii_of_string d)) as Hle.
  set (chunk := firstn 254 (list_ascii_of_string d)) in *.
  apply Nat.ltb_lt in Hpos. rewrite Hpos.
  rewrite (skipn_cons_nth zero (List.length chunk) buf) by lia.
  rewrite store_app_head. eexists. reflexivity.
Qed.

(** X8. The message of a non-empty datagram depends on the datagram
    alone: it is the first 254 bytes of the payload, cut at the first
    NUL, trimmed of white space; nothing of what earlier datagrams left
    in the receive buffer shows through.  For a payload of at most 254
    bytes without NUL it is the trimmed payload; longer payloads are
    silently truncated. *)
Theorem fresh_message_is_the_payload (env : Env) (s : St) (pk : Packet) :
  udp_in env (udp_next s) = Some pk ->
  pk_data pk <> "" ->
  List.length (packetBuffer s) = 255 ->
  outcome (readIncomingUDP env) s =
    Some (Some (Arduino.trim
                  (Arduino.cstr (firstn 254 (list_ascii_of_string (pk_data pk)))))) /\
  (String.length (pk_data pk) <= 254 -> nul_free (pk_data pk) = true ->
   outcome (readIncomingUDP env) s = Some (Some (Arduino.trim (pk_data pk)))).
Proof.
  intros Hpk Hd Hlen. unfold outcome.
  rewrite (readIncomingUDP_taken env s pk Hpk). cbn [fst].
  destruct (buffer_after_fresh _ _ Hd Hlen) as (rest & ->).
  unfold message_of. rewrite cstr_app_nul. split; [reflexivity|].
  intros Hshort Hfree.
  rewrite firstn_all2 by (rewrite length_list_ascii; exact Hshort).
  rewrite (cstr_nul_free _ Hfree). reflexivity.
Qed.

Lemma fresh_message_is_the_payload_witness :
  let s := exec (readIncomingUDP oversize_session) (boot Released) in
  let s1 := exec (readIncomingUDP oversize_session) s in
  outcome (readIncomingUDP oversize_session) (boot Released) = Some (Some "Winding") /\
  outcome (readIncomingUDP oversize_session) s =
    Some (Some (string_of_list_ascii (repeat "a"%char 254))) /\
  outcome (readIncomingUDP oversize_session) s1 = Some (Some "OK").
Proof.
  cbv zeta. split; [vm_compute; reflexivity|]. split.
  - rewrite (proj1 (fresh_message_is_the_payload oversize_session
                      (exec (readIncomingUDP oversize_session) (boot Released))
                      (mkPacket operator_ip operator_port long_payload)
                      ltac:(vm_compute; reflexivity)
                      ltac:(vm_compute; discriminate)
                      ltac:(vm_compute; reflexivity))).
    vm_compute. reflexivity.
  - vm_compute. reflexivity.
Defined.

Lemma buffer_after_ok d buf : buffer_ok buf -> buffer_ok (buffer_after d buf).
Proof.
  intros (Hlen & Hlast). unfold buffer_after.
  pose proof (firstn_le_length 254 (list_ascii_of_string d)) as Hle.
  set (chunk := firstn 254 (list_ascii_of_string d)) in *. clearbody chunk.
  assert (Hcopy : List.length (chunk ++ skipn (List.length chunk) buf) = 255).
  { rewrite length_app, length_skipn. lia. }
  assert (Hkeep : List.length chunk < 254 ->
                  nth 254 (chunk ++ skipn (List.length chunk) buf) zero = zero).
  { intros H. rewrite app_nth2 by lia. rewrite nth_skipn.
    replace (List.length chunk + (254 - List.length chunk)) with 254 by lia.
    exact Hlast. }
  destruct (0 <? List.length chunk) eqn:E.
  - split; [rewrite store_length; exact Hcopy|].
    destruct (Nat.eq_dec (List.length chunk) 254) as [E254|N254].
    + rewrite E254 in *. apply nth_store_same. lia.
    + rewrite nth_store_other by exact N254. apply Hkeep. lia.
  - apply Nat.ltb_ge in E. split; [exact Hcopy | apply Hkeep; lia].
Qed.

Lemma cstr_length_bound buf :
  forall k, nth k buf zero = zero -> String.length (Arduino.cstr buf) <= k.
Proof.
  induction buf as [|c r IH]; intros k H; cbn; [lia|].
  destruct (Ascii.eqb_spec c zero) as [->|Hc]; cbn; [lia|].
  destruct k as [|k]; cbn in H; [congruence|].
  specialize (IH k H). lia.
Qed.

Lemma ltrim_length s : String.length (Arduino.ltrim s) <= String.length s.
Proof.
  induction s as [|c s IH]; cbn; [lia|].
  destruct (Arduino.isspace c); cbn; lia.
Qed.

Lemma rtrim_length s : String.length (Arduino.rtrim s) <= String.length s.
Proof.
  induction s as [|c s IH]; cbn; [lia|].
  destruct (Arduino.rtrim s); [destruct (Arduino.isspace c)|]; cbn in *; lia.
Qed.

Lemma message_length_bound buf :
  buffer_ok buf -> String.length (message_of buf) <= 254.
Proof.
  intros (_ & Hlast). unfold message_of, Arduino.trim.
  pose proof (cstr_length_bound buf 254 Hlast).
  pose proof (ltrim_length (Arduino.cstr buf)).
  pose proof (rtrim_length (Arduino.ltrim (Arduino.cstr buf))). lia.
Qed.

Lemma buffer_stable env : Stable env (fun s => buffer_ok (packetBuffer s)).
Proof.
  by_effect; try assumption.
  cbn [packetBuffer taken set_packetBuffer]. apply buffer_after_ok. assumption.
Qed.

Lemma buffer_start : StartStable (fun s => buffer_ok (packetBuffer s)).
Proof. by_effect; assumption. Qed.

Lemma setup_keeps_buffer env s :
  packetBuffer (exec (setup env) s) = packetBuffer s.
Proof. reflexivity. Qed.

(** X9. In every state of a firmware run the receive buffer keeps its 255
    bytes with a NUL in the last one, whatever the size and content of
    the datagrams received.  Hence reading the next datagram copies and
    terminates within the buffer, leaves it terminated again, and yields
    a message of at most 254 characters. *)
Theorem packet_buffer_stays_terminated
        (env : Env) (fuel n : nat) (b : BrakeState) :
  let s := exec (firmware env fuel n) (boot b) in
  buffer_ok (packetBuffer s) /\
  forall pk,
    List.length (firstn 254 (list_ascii_of_string (pk_data pk))) <
      List.length (packetBuffer s) /\
    buffer_ok (buffer_after (pk_data pk) (packetBuffer s)) /\
    String.length (message_in pk s) <= 254.
Proof.
  cbv zeta.
  assert (H : buffer_ok (packetBuffer (exec (firmware env fuel n) (boot b)))).
  { rewrite exec_firmware.
    apply (preserves_loops env _ (buffer_stable env) buffer_start).
    rewrite setup_keeps_buffer. split; vm_compute; reflexivity. }
  split; [exact H|]. intros pk.
  pose proof (firstn_le_length 254 (list_ascii_of_string (pk_data pk))) as Hle.
  pose proof (buffer_after_ok (pk_data pk) _ H) as H'.
  split; [destruct H as (-> & _); lia|]. split; [exact H'|].
  apply message_length_bound. exact H'.
Qed.

(* ================================================================= *)
(** ** Further properties of the profiles *)

Section LoopWithStart.

Variable env : Env.
Variable P : St -> Prop.
Hypothesis stable : Stable env P.
Hypothesis kept_start : preserves P (startEventSequence env).

Lemma handleUDPMessages_keeps : preserves P (handleUDPMessages env).
Proof.
  unfold handleUDPMessages, servoBrakeLock.
  frame;
    first [ apply (preserves_readIncomingUDP env P stable)
          | apply (preserves_send env P stable)
          | apply (preserves_actuator env P stable)
          | apply (preserves_wind env P stable) ].
Qed.

Lemma loop_keeps fuel : preserves P (loop env fuel).
Proof.
  unfold loop. frame;
    first [ apply handleUDPMessages_keeps
          | apply (preserves_processEncoderEvents env P stable)
          | apply (preserves_signalTesterLoop env P stable) ].
Qed.

Lemma loops_keeps fuel n : preserves P (loops env fuel n).
Proof. induction n as [|n IH]; cbn [loops]; frame. apply loop_keeps. Qed.

End LoopWithStart.

Lemma generated_increasing row : generated_profile row -> increasing row.
Proof.
  intros (a & b & c & d & -> & Ha & Hb & Hc & Hd).
  exists (inject_Z a), (inject_Z b), (inject_Z c), (inject_Z d).
  split; [reflexivity|]. unfold Qlt. cbn. lia.
Qed.

Lemma generated_length row : generated_profile row -> List.length row = 4.
Proof. intros (a & b & c & d & -> & _). reflexivity. Qed.

Lemma profiles_stable env : Stable env profiles_sound.
Proof. by_effect; assumption. Qed.

Lemma startEventSequence_sound env : preserves profiles_sound (startEventSequence env).
Proof.
  intros s (Hshape & Hbank & _). unfold exec.
  rewrite (startEventSequence_copies env s Hshape). cbn [snd].
  assert (Hrow : generated_profile
                   (nth (Z.to_nat (Arduino.random_of 0 10 (rand_in env (rand_next s))))
                        (distanceArrays s) [])).
  { rewrite Forall_forall in Hbank. apply Hbank. apply nth_In.
    destruct Hshape as (-> & _). apply profile_index_range. }
  destruct Hshape as (H1 & H2 & _).
  unfold profiles_sound, arrays_shaped.
  cbn [distanceArrays currentArray sequenceRunning
       set_sequenceRunning set_currentArray step_rand].
  split; [split; [exact H1 | split; [exact H2 | apply generated_length; exact Hrow]]|].
  split; [exact Hbank | intros _; exact Hrow].
Qed.

Lemma setup_sound env b : profiles_sound (exec (setup env) (boot b)).
Proof.
  unfold profiles_sound, arrays_shaped.
  cbv -[Arduino.random_of inject_Z rand_in generated_profile].
  split; [split; [reflexivity | split; [repeat constructor | reflexivity]]|].
  split; [repeat constructor; apply generated_profile_intro | discriminate].
Qed.

Lemma firmware_sound env fuel n b :
  profiles_sound (exec (firmware env fuel n) (boot b)).
Proof.
  rewrite exec_firmware.
  apply (loops_keeps env _ (profiles_stable env) (startEventSequence_sound env)).
  apply setup_sound.
Qed.

Lemma increasing_cumulative row d :
  increasing row ->
  (nth 3 row 0 <= d)%Q ->
  (nth 0 row 0 <= d)%Q /\ (nth 1 row 0 <= d)%Q /\ (nth 2 row 0 <= d)%Q.
Proof.
  intros (t0 & t1 & t2 & t3 & -> & H01 & H12 & H23) H. cbn in *.
  pose proof (Qlt_le_weak _ _ H23) as W23.
  pose proof (Qlt_le_weak _ _ H12) as W12.
  pose proof (Qlt_le_weak _ _ H01) as W01.
  assert (H2 : (t2 <= d)%Q) by (eapply Qle_trans; eassumption).
  assert (H1 : (t1 <= d)%Q) by (eapply Qle_trans; eassumption).
  assert (H0 : (t0 <= d)%Q) by (eapply Qle_trans; eassumption).
  repeat split; assumption.
Qed.

(** X10. In every state of a firmware run the bank holds generated
    profiles, and while a run is active the active profile is one of
    them: four integers, one from each range, hence strictly increasing.
    So at the start of a tick of an active run a reading that reaches the
    fourth threshold reaches the first three as well. *)
Theorem active_profile_is_increasing
        (env : Env) (fuel n : nat) (b : BrakeState) :
  (let s := exec (firmware env fuel n) (boot b) in
   Forall increasing (distanceArrays s) /\
   (sequenceRunning s = true ->
    generated_profile (currentArray s) /\ increasing (currentArray s))) /\
  (let s := before_tick env fuel n b in
   sequenceRunning s = true ->
   increasing (currentArray s) /\
   forall d,
     (nth 3 (currentArray s) 0 <= d)%Q ->
     (nth 0 (currentArray s) 0 <= d)%Q /\
     (nth 1 (currentArray s) 0 <= d)%Q /\
     (nth 2 (currentArray s) 0 <= d)%Q).
Proof.
  cbv zeta. split.
  - destruct (firmware_sound env fuel n b) as (_ & Hbank & Hcur). split.
    + eapply Forall_impl; [|exact Hbank]. intros row. apply generated_increasing.
    + intros Hrun. split; [auto | apply generated_increasing; auto].
  - intros Hrun.
    assert (Hs : profiles_sound (before_tick env fuel n b)).
    { apply (handleUDPMessages_keeps env _ (profiles_stable env)
               (startEventSequence_sound env)).
      apply firmware_sound. }
    destruct Hs as (_ & _ & Hcur).
    pose proof (generated_increasing _ (Hcur Hrun)) as Hinc.
    split; [exact Hinc|]. intros d. apply increasing_cumulative. exact Hinc.
Qed.

Lemma active_profile_is_increasing_witness :
  let s := before_tick session 10 3 Released in
  sequenceRunning s = true /\
  currentArray s = [10 # 1; 20 # 1; 30 # 1; 40 # 1] /\
  increasing (currentArray s).
Proof.
  cbv zeta.
  assert (H : sequenceRunning (before_tick session 10 3 Released) = true)
    by (vm_compute; reflexivity).
  split; [exact H|]. split; [vm_compute; reflexivity|].
  exact (proj1 (proj2 (active_profile_is_increasing session 10 3 Released) H)).
Defined.

(* ================================================================= *)
(** ** Further properties of the sequencer tick *)

Lemma Qle_bool_false t d : (d < t)%Q -> Qle_bool t d = false.
Proof.
  intros H. destruct (Qle_bool t d) eqn:E; [|reflexivity].
  apply Qle_bool_iff in E. exfalso. exact (Qlt_not_le _ _ H E).
Qed.

Lemma low_damping_below env fuel d x :
  (d < nth 3 (currentArray x) 0)%Q ->
  low_damping env fuel d x = (Some tt, x).
Proof.
  intros H. unfold low_damping.
  rewrite (bind_done (threshold 3) _ x _ x eq_refl), (Qle_bool_false _ _ H).
  reflexivity.
Qed.

Lemma after_pain_below env fuel d x :
  (d < nth 1 (currentArray x) 0)%Q ->
  (d < nth 2 (currentArray x) 0)%Q ->
  (d < nth 3 (currentArray x) 0)%Q ->
  after_pain env fuel d x = (Some tt, x).
Proof.
  intros H1 H2 H3. unfold after_pain.
  rewrite (bind_done (threshold 1) _ x _ x eq_refl), (Qle_bool_false _ _ H1).
  cbn [when]. rewrite (bind_done (ret tt) _ x tt x eq_refl).
  rewrite (bind_done (threshold 2) _ x _ x eq_refl), (Qle_bool_false _ _ H2).
  cbn [when]. rewrite (bind_done (ret tt) _ x tt x eq_refl).
  apply low_damping_below. exact H3.
Qed.

Lemma tick_below_all env fuel s :
  sequenceRunning s = true ->
  (dist_in env (dist_next s) < nth 0 (currentArray s) 0)%Q ->
  (dist_in env (dist_next s) < nth 1 (currentArray s) 0)%Q ->
  (dist_in env (dist_next s) < nth 2 (currentArray s) 0)%Q ->
  (dist_in env (dist_next s) < nth 3 (currentArray s) 0)%Q ->
  processEncoderEvents env fuel s = (Some tt, step_dist s).
Proof.
  intros Hrun H0 H1 H2 H3. unfold processEncoderEvents.
  rewrite (bind_done (gets sequenceRunning) _ s _ s eq_refl), Hrun. cbn [negb].
  rewrite (bind_done (readDistance env) _ s _ (step_dist s) eq_refl).
  rewrite (bind_done (threshold 0) _ (step_dist s) _ (step_dist s) eq_refl).
  cbn [currentArray step_dist]. rewrite (Qle_bool_false _ _ H0). cbn [when].
  rewrite (bind_done (ret tt) _ (step_dist s) tt (step_dist s) eq_refl).
  apply (after_pain_below env fuel _ (step_dist s)); assumption.
Qed.

Lemma tick_in_band env fuel s :
  sequenceRunning s = true ->
  lastRemoteIp s <> 0%N ->
  (nth 0 (currentArray s) 0 <= dist_in env (dist_next s))%Q ->
  (dist_in env (dist_next s) < nth 1 (currentArray s) 0)%Q ->
  (dist_in env (dist_next s) < nth 2 (currentArray s) 0)%Q ->
  (dist_in env (dist_next s) < nth 3 (currentArray s) 0)%Q ->
  processEncoderEvents env fuel s = (Some tt, pained_of s).
Proof.
  intros Hrun Hip H0 H1 H2 H3. apply Qle_bool_iff in H0.
  rewrite (tick_past_first_threshold env fuel s Hrun Hip H0).
  apply (after_pain_below env fuel _ (pained_of s)); assumption.
Qed.

(** X11. While a run is active (an endpoint being recorded), a tick whose
    reading lies below all four thresholds only advances the encoder
    cursor; a tick whose reading has reached the first threshold but none
    of the others sends "Pain", nothing else, and returns.  Nothing is
    latched: the next tick with such a reading sends "Pain" again. *)
Theorem pain_is_sent_on_every_tick_in_band (env : Env) (fuel : nat) (s : St) :
  sequenceRunning s = true ->
  lastRemoteIp s <> 0%N ->
  let below i n := (dist_in env n < nth i (currentArray s) 0)%Q in
  let reached i n := (nth i (currentArray s) 0 <= dist_in env n)%Q in
  let n := dist_next s in
  (below 0 n -> below 1 n -> below 2 n -> below 3 n ->
   processEncoderEvents env fuel s = (Some tt, step_dist s)) /\
  (reached 0 n -> below 1 n -> below 2 n -> below 3 n ->
   processEncoderEvents env fuel s = (Some tt, pained_of s) /\
   added (processEncoderEvents env fuel) s =
     [EvSend (lastRemoteIp s) (lastRemotePort s) "Pain"]) /\
  (reached 0 n -> below 1 n -> below 2 n -> below 3 n ->
   reached 0 (S n) -> below 1 (S n) -> below 2 (S n) -> below 3 (S n) ->
   (processEncoderEvents env fuel ;; processEncoderEvents env fuel) s =
     (Some tt, pained_of (pained_of s)) /\
   added (processEncoderEvents env fuel ;; processEncoderEvents env fuel) s =
     [EvSend (lastRemoteIp s) (lastRemotePort s) "Pain";
      EvSend (lastRemoteIp s) (lastRemotePort s) "Pain"]).
Proof.
  intros Hrun Hip. cbv zeta. split; [|split].
  - intros H0 H1 H2 H3. apply tick_below_all; assumption.
  - intros H0 H1 H2 H3.
    pose proof (tick_in_band env fuel s Hrun Hip H0 H1 H2 H3) as E.
    split; [exact E|]. unfold added, exec. rewrite E.
    apply (skipn_exact (trace s) [_]).
  - intros H0 H1 H2 H3 G0 G1 G2 G3.
    pose proof (tick_in_band env fuel s Hrun Hip H0 H1 H2 H3) as E.
    pose proof (tick_in_band env fuel (pained_of s) Hrun Hip G0 G1 G2 G3) as E2.
    assert (E12 : (processEncoderEvents env fuel ;; processEncoderEvents env fuel) s =
                  (Some tt, pained_of (pained_of s))).
    { rewrite (bind_done _ _ _ _ _ E). exact E2. }
    split; [exact E12|]. unfold added, exec. rewrite E12.
    cbn [snd trace pained_of emit step_dist lastRemoteIp lastRemotePort].
    rewrite <- app_assoc. apply (skipn_exact (trace s) [_; _]).
Qed.

Lemma pain_is_sent_on_every_tick_in_band_witness :
  let s := before_tick band_session 4 1 Released in
  sequenceRunning s = true /\
  currentArray s = [10 # 1; 20 # 1; 30 # 1; 40 # 1] /\
  dist_in band_session (dist_next s) = 11 # 1 /\
  dist_in band_session (S (dist_next s)) = 12 # 1 /\
  added (processEncoderEvents band_session 4 ;; processEncoderEvents band_session 4) s =
    [EvSend operator_ip operator_port "Pain";
     EvSend operator_ip operator_port "Pain"].
Proof.
  cbv zeta.
  assert (Hrun : sequenceRunning (before_tick band_session 4 1 Released) = true)
    by (vm_compute; reflexivity).
  assert (Hip : lastRemoteIp (before_tick band_session 4 1 Released) <> 0%N)
    by (vm_compute; discriminate).
  split; [exact Hrun|]. do 3 (split; [vm_compute; reflexivity|]).
  apply (proj2 (proj2 (pain_is_sent_on_every_tick_in_band
                         band_session 4 _ Hrun Hip)));
    first [ vm_compute; reflexivity | vm_compute; discriminate ].
Defined.

(** Runs a [sendUDPMessageToLast] at the head of the goal, the endpoint
    being recorded by [Hip]. *)
Ltac send_step Hip :=
  match goal with
  | |- context [bind (sendUDPMessageToLast ?m) ?f ?x] =>
      rewrite (bind_done _ f _ _ _ (send_set m x Hip))
  end.

Lemma tick_to_high_damping env fuel s :
  sequenceRunning s = true ->
  lastRemoteIp s <> 0%N ->
  (nth 0 (currentArray s) 0 <= dist_in env (dist_next s))%Q ->
  (nth 1 (currentArray s) 0 <= dist_in env (dist_next s))%Q ->
  (nth 2 (currentArray s) 0 <= dist_in env (dist_next s))%Q ->
  processEncoderEvents env fuel s =
    (_ <- (_ <- waitForCmd env fuel "OK" ;; servoBrakeRelease) ;;
     low_damping env fuel (dist_in env (dist_next s))) (locked_of s).
Proof.
  intros Hrun Hip H0 H1 H2.
  apply Qle_bool_iff in H0. apply Qle_bool_iff in H1. apply Qle_bool_iff in H2.
  rewrite (tick_past_first_threshold env fuel s Hrun Hip H0).
  unfold after_pain.
  rewrite (bind_done (threshold 1) _ _ _ _ eq_refl).
  cbn [currentArray emit step_dist]. rewrite H1. cbn [when].
  send_step Hip.
  rewrite (bind_done (threshold 2) _ _ _ _ eq_refl).
  cbn [currentArray emit step_dist]. rewrite H2. cbn [when].
  rewrite bind_assoc.
  send_step Hip.
  rewrite bind_assoc.
  rewrite (bind_done _ _ _ _ _ (actuator_run Locked _)).
  reflexivity.
Qed.

Lemma poll_state_profile env k s :
  currentArray (poll_state env k s) = currentArray s.
Proof. apply (poll_state_off_channel env k s). Qed.

(** X12. In a tick of an active run (an endpoint being recorded) whose
    reading has reached the first three thresholds but not the fourth,
    the sequencer sends "Pain", "Pain2" and "HighDamp", locks the brake
    and waits for "OK".  Until "OK" arrives the tick does not return and
    the brake stays locked, whatever else arrives; at the first "OK" the
    brake is released and the tick returns, the low damping stage being
    skipped. *)
Theorem high_damping_stage (env : Env) (fuel : nat) (s : St) :
  sequenceRunning s = true ->
  lastRemoteIp s <> 0%N ->
  (nth 0 (currentArray s) 0 <= dist_in env (dist_next s))%Q ->
  (nth 1 (currentArray s) 0 <= dist_in env (dist_next s))%Q ->
  (nth 2 (currentArray s) 0 <= dist_in env (dist_next s))%Q ->
  (dist_in env (dist_next s) < nth 3 (currentArray s) 0)%Q ->
  trace (locked_of s) =
    (trace s ++ [EvSend (lastRemoteIp s) (lastRemotePort s) "Pain";
                 EvSend (lastRemoteIp s) (lastRemotePort s) "Pain2";
                 EvSend (lastRemoteIp s) (lastRemotePort s) "HighDamp";
                 EvBrake Locked])%list /\
  (unmatched env ["OK"] fuel (locked_of s) ->
   processEncoderEvents env fuel s = (None, poll_state env fuel (locked_of s)) /\
   brake (poll_state env fuel (locked_of s)) = Locked) /\
  (forall k,
      k < fuel -> awaits env ["OK"] k (locked_of s) "OK" ->
      processEncoderEvents env fuel s =
        (Some tt, released_of (poll_state env (S k) (locked_of s))) /\
      brake (released_of (poll_state env (S k) (locked_of s))) = Released).
Proof.
  intros Hrun Hip H0 H1 H2 H3.
  rewrite (tick_to_high_damping env fuel s Hrun Hip H0 H1 H2).
  split; [|split].
  - unfold locked_of. cbn [trace emit set_brake step_dist].
    rewrite <- !app_assoc. reflexivity.
  - intros Hun. split; [|apply poll_state_brake].
    apply bind_blocked. apply bind_blocked. apply waitForCmd_starved. exact Hun.
  - intros k Hk Hw. split; [|reflexivity].
    rewrite (bind_done _ _ (locked_of s) tt
               (released_of (poll_state env (S k) (locked_of s)))).
    + apply low_damping_below.
      cbn [currentArray released_of emit set_brake].
      rewrite poll_state_profile. exact H3.
    + rewrite (bind_done _ _ _ _ _ (waitForCmd_found _ _ _ _ _ Hw Hk)).
      reflexivity.
Qed.

Lemma high_damping_stage_witness :
  let s := before_tick session 10 3 Released in
  sequenceRunning s = true /\
  dist_in session (dist_next s) = 32 # 1 /\
  poll_msg session 0 (locked_of s) = Some "OK" /\
  processEncoderEvents session 10 s =
    (Some tt, released_of (poll_state session 1 (locked_of s))).
Proof.
  cbv zeta.
  assert (Hrun : sequenceRunning (before_tick session 10 3 Released) = true)
    by (vm_compute; reflexivity).
  assert (Hip : lastRemoteIp (before_tick session 10 3 Released) <> 0%N)
    by (vm_compute; discriminate).
  split; [exact Hrun|]. do 2 (split; [vm_compute; reflexivity|]).
  assert (Hw : awaits session ["OK"] 0
                 (locked_of (before_tick session 10 3 Released)) "OK").
  { split; [vm_compute; reflexivity|]. split; [reflexivity|].
    intros j m Hj. lia. }
  refine (proj1 (proj2 (proj2 (high_damping_stage session 10 _ Hrun Hip _ _ _ _))
                   0 ltac:(lia) Hw));
    first [ vm_compute; reflexivity | vm_compute; discriminate ].
Defined.

(* ================================================================= *)
(** ** Further properties of the outbound traffic *)

Lemma sends_to_last_split ep t1 ip port m t2 :
  sends_to_last ep (t1 ++ EvSend ip port m :: t2) = true ->
  last_sender ep t1 = (ip, port).
Proof.
  rewrite sends_to_last_app. cbn [sends_to_last].
  intros H. apply andb_prop in H. destruct H as (_ & H).
  apply andb_prop in H. destruct H as (H & _).
  apply andb_prop in H. destruct H as (Hi & Hp).
  apply N.eqb_eq in Hi. apply N.eqb_eq in Hp.
  destruct (last_sender ep t1) as [i p]. cbn in *. congruence.
Qed.

Lemma last_sender_In t :
  forall ep,
    last_sender ep t = ep \/
    exists d, In (EvRecv (fst (last_sender ep t)) (snd (last_sender ep t)) d) t.
Proof.
  induction t as [|e t IH]; intros ep; [left; reflexivity|].
  destruct e as [ip port d| | |]; cbn [last_sender];
    try (destruct (IH ep) as [H|(d' & H)];
         [left; exact H | right; exists d'; right; exact H]).
  right. destruct (IH (ip, port)) as [H|(d' & H)].
  - rewrite H. exists d. left. reflexivity.
  - exists d'. right. exact H.
Qed.

Lemma filter_nil_of {A} (f : A -> bool) (l : list A) :
  (forall x, In x l -> f x = false) -> filter f l = [].
Proof.
  induction l as [|x l IH]; intros H; [reflexivity|].
  cbn. rewrite (H x (or_introl eq_refl)). apply IH.
  intros y Hy. apply H. right. exact Hy.
Qed.

Lemma addressed_stable env : Stable env sends_addressed.
Proof.
  by_effect; try assumption; intros ip port m Hin;
    cbn [trace emit set_brake taken set_packetBuffer set_remote step_udp] in Hin;
    apply in_app_iff in Hin; destruct Hin as [Hin|[Hin|[]]];
    try (eapply H; exact Hin); try discriminate Hin.
  injection Hin as <- _ _. assumption.
Qed.

Lemma addressed_start : StartStable sends_addressed.
Proof. by_effect; assumption. Qed.

(** X13. The device only ever answers.  In the I/O history of any
    firmware run, every outbound datagram (echo, acknowledgment,
    notification or console line) has a set destination address, is
    preceded by an inbound datagram, and is addressed to the sender of
    the most recent one before it; so as long as nothing has been
    received, nothing is sent. *)
Theorem device_only_answers (env : Env) (fuel n : nat) (b : BrakeState) :
  let t := trace (exec (firmware env fuel n) (boot b)) in
  (forall t1 ip port m t2,
      t = (t1 ++ EvSend ip port m :: t2)%list ->
      ip <> 0%N /\
      last_sender (0%N, 0%N) t1 = (ip, port) /\
      exists d, In (EvRecv ip port d) t1) /\
  ((forall ip port d, ~ In (EvRecv ip port d) t) -> sends t = []).
Proof.
  cbv zeta.
  assert (Hadd : sends_addressed (exec (firmware env fuel n) (boot b))).
  { rewrite exec_firmware.
    apply (preserves_loops env _ (addressed_stable env) addressed_start).
    intros ip port m Hin.
    rewrite (proj1 (setup_keeps_channel env (boot b))) in Hin. destruct Hin. }
  assert (Htr : endpoint_tracked (exec (firmware env fuel n) (boot b))).
  { rewrite exec_firmware.
    apply (preserves_loops env _ (endpoint_stable env) endpoint_start).
    destruct (setup_keeps_channel env (boot b)) as (Ht & Hi & Hp).
    unfold endpoint_tracked. rewrite Ht, Hi, Hp. split; reflexivity. }
  destruct Htr as (_ & Hsends). unfold sends_addressed in Hadd.
  revert Hadd Hsends.
  generalize (trace (exec (firmware env fuel n) (boot b))). intros t Hadd Hsends.
  assert (Hsplit : forall t1 ip port m t2,
            t = (t1 ++ EvSend ip port m :: t2)%list ->
            ip <> 0%N /\ last_sender (0%N, 0%N) t1 = (ip, port) /\
            exists d, In (EvRecv ip port d) t1).
  { intros t1 ip port m t2 E.
    assert (Hip : ip <> 0%N).
    { apply (Hadd ip port m). rewrite E. apply in_app_iff. right. left. reflexivity. }
    rewrite E in Hsends. pose proof (sends_to_last_split _ _ _ _ _ _ Hsends) as Hl.
    split; [exact Hip|]. split; [exact Hl|].
    destruct (last_sender_In t1 (0%N, 0%N)) as [H0|(d & Hd)].
    - rewrite H0 in Hl. injection Hl as Hz _. congruence.
    - rewrite Hl in Hd. exists d. exact Hd. }
  split; [exact Hsplit|].
  intros Hnone. apply filter_nil_of. intros e Hin.
  destruct e as [| ip port m | |]; try reflexivity.
  exfalso. apply in_split in Hin. destruct Hin as (t1 & t2 & E).
  destruct (Hsplit t1 ip port m t2 E) as (_ & _ & d & Hd).
  apply (Hnone ip port d). rewrite E. apply in_app_iff. left. exact Hd.
Qed.

(* ================================================================= *)
(** ** Further properties of the console *)

Lemma send_unset msg x :
  lastRemoteIp x = 0%N -> sendUDPMessageToLast msg x = (Some tt, x).
Proof.
  intros H. unfold sendUDPMessageToLast, bind, gets. rewrite H. reflexivity.
Qed.

Section Console.

Variable env : Env.

Lemma feeds_head n c l : feeds env n (c :: l) -> serial_in env n = Some c.
Proof. intros H. rewrite <- (Nat.add_0_r n). apply (H 0 c). reflexivity. Qed.

Lemma feeds_tail n c l : feeds env n (c :: l) -> feeds env (S n) l.
Proof.
  intros H i x Hi. replace (S n + i) with (n + S i) by lia.
  apply (H (S i) x). exact Hi.
Qed.

Lemma feeds_app n l r :
  feeds env n (l ++ r) -> feeds env n l /\ feeds env (n + List.length l) r.
Proof.
  intros H. split.
  - intros i c Hi. apply H. rewrite nth_error_app1; [exact Hi|].
    apply nth_error_Some. congruence.
  - intros i c Hi. rewrite <- Nat.add_assoc. apply H.
    rewrite nth_error_app2 by lia.
    replace (List.length l + i - List.length l) with i by lia. exact Hi.
Qed.

Lemma append_empty b : (b ++ "")%string = b.
Proof. induction b as [|a b IH]; cbn; congruence. Qed.

Lemma append_char b c r : ((b ++ String c "") ++ r)%string = (b ++ String c r)%string.
Proof. induction b as [|a b IH]; cbn; congruence. Qed.

Lemma typed_fields line :
  forall s,
    serialInputBuffer (typed line s) =
      (serialInputBuffer s ++ string_of_list_ascii line)%string /\
    serial_next (typed line s) = serial_next s + List.length line /\
    trace (typed line s) = trace s /\
    lastRemoteIp (typed line s) = lastRemoteIp s /\
    lastRemotePort (typed line s) = lastRemotePort s.
Proof.
  induction line as [|c r IH]; intros s; cbn [typed string_of_list_ascii List.length].
  - rewrite append_empty. repeat split. lia.
  - destruct (IH (set_serialInputBuffer (serialInputBuffer s ++ String c "")
                                        (step_serial s)))
      as (H1 & H2 & H3 & H4 & H5).
    rewrite H1, H2, H3, H4, H5.
    cbn [serialInputBuffer serial_next trace lastRemoteIp lastRemotePort
         set_serialInputBuffer step_serial].
    rewrite append_char. repeat split. lia.
Qed.

Lemma signalTesterLoop_typed line :
  forall fuel s,
    feeds env (serial_next s) line ->
    forallb (fun c => negb (is_newline c)) line = true ->
    signalTesterLoop env (List.length line + fuel) s =
      signalTesterLoop env fuel (typed line s).
Proof.
  induction line as [|c r IH]; intros fuel s Hf Hn; [reflexivity|].
  cbn [forallb] in Hn. apply andb_prop in Hn. destruct Hn as (Hc & Hr).
  apply negb_true_iff in Hc.
  cbn [List.length Nat.add signalTesterLoop].
  unfold Serial_poll at 1. unfold bind at 1.
  rewrite (feeds_head _ _ _ Hf), Hc.
  unfold bind at 1, modify at 1. cbn [typed].
  apply IH; [|exact Hr]. exact (feeds_tail _ _ _ Hf).
Qed.

Lemma signalTesterLoop_idle fuel s :
  serial_in env (serial_next s) = None ->
  signalTesterLoop env (S fuel) s = (Some tt, step_serial s).
Proof.
  intros H. cbn [signalTesterLoop]. unfold Serial_poll, bind. rewrite H.
  reflexivity.
Qed.

Lemma string_length_zero b : (0 <? String.length b) = negb (b =? "")%string.
Proof. destruct b; reflexivity. Qed.

(** One line end: the buffer is flushed and emptied. *)
Lemma signalTesterLoop_newline fuel s nl :
  serial_in env (serial_next s) = Some nl ->
  is_newline nl = true ->
  exists x,
    signalTesterLoop env (S fuel) s = signalTesterLoop env fuel x /\
    trace x = (trace s ++ flushed s)%list /\
    serialInputBuffer x = "" /\
    serial_next x = S (serial_next s) /\
    lastRemoteIp x = lastRemoteIp s /\ lastRemotePort x = lastRemotePort s.
Proof.
  intros Hin Hnl. cbn [signalTesterLoop].
  unfold Serial_poll at 1. unfold bind at 1. rewrite Hin, Hnl.
  rewrite bind_assoc.
  rewrite (bind_done (gets serialInputBuffer) _ (step_serial s) _ _ eq_refl).
  cbn [serialInputBuffer step_serial]. rewrite string_length_zero. unfold flushed.
  destruct (String.eqb_spec (serialInputBuffer s) "") as [Eb|Nb]; cbn [negb when].
  - exists (step_serial s). rewrite orb_true_r, app_nil_r.
    repeat split. exact Eb.
  - rewrite orb_false_r. rewrite bind_assoc.
    destruct (N.eqb_spec (lastRemoteIp s) 0) as [E0|N0].
    + exists (set_serialInputBuffer "" (step_serial s)). rewrite app_nil_r.
      split; [|repeat split].
      rewrite (bind_done _ _ _ _ _
                 (send_unset (serialInputBuffer s) (step_serial s) E0)).
      reflexivity.
    + exists (set_serialInputBuffer ""
                (emit (EvSend (lastRemoteIp s) (lastRemotePort s) (serialInputBuffer s))
                      (step_serial s))).
      split; [|repeat split].
      rewrite (bind_done _ _ _ _ _
                 (send_set (serialInputBuffer s) (step_serial s) N0)).
      reflexivity.
Qed.

(** Further line ends, the buffer being empty, do nothing. *)
Lemma signalTesterLoop_newlines nls :
  forall fuel s,
    feeds env (serial_next s) nls ->
    forallb is_newline nls = true ->
    serialInputBuffer s = "" ->
    serial_in env (serial_next s + List.length nls) = None ->
    exists x,
      signalTesterLoop env (List.length nls + S fuel) s = (Some tt, x) /\
      trace x = trace s /\ serialInputBuffer x = "" /\
      serial_next x = serial_next s + S (List.length nls).
Proof.
  induction nls as [|nl r IH]; intros fuel s Hf Hn Hb Hend.
  - exists (step_serial s). rewrite Nat.add_0_r in Hend.
    cbn [List.length Nat.add]. rewrite (signalTesterLoop_idle fuel s Hend).
    repeat split; [exact Hb | cbn; lia].
  - cbn [forallb] in Hn. apply andb_prop in Hn. destruct Hn as (Hnl & Hr).
    destruct (signalTesterLoop_newline (List.length r + S fuel) s nl
                (feeds_head _ _ _ Hf) Hnl) as (x & Ex & Tx & Bx & Sx & _).
    destruct (IH fuel x) as (y & Ey & Ty & By & Sy).
    + rewrite Sx. exact (feeds_tail _ _ _ Hf).
    + exact Hr.
    + exact Bx.
    + rewrite Sx. cbn [List.length] in Hend.
      replace (S (serial_next s) + List.length r)
        with (serial_next s + S (List.length r)) by lia. exact Hend.
    + exists y. cbn [List.length Nat.add]. rewrite Ex, Ey.
      split; [reflexivity|]. split; [|split; [exact By|]].
      * rewrite Ty, Tx. unfold flushed. rewrite Hb. cbn.
        rewrite orb_true_r. apply app_nil_r.
      * rewrite Sy, Sx. cbn [List.length]. lia.
Qed.

End Console.

(** X14. The console loop assembles lines.  When the console delivers
    the characters [line] (none a line end or a NUL), then one or more line ends
    (CR, LF or both), then nothing, [signalTesterLoop] returns having sent
    exactly one datagram to the recorded endpoint: the text left in the
    console buffer by earlier calls followed by [line], untrimmed.  If
    that text is empty, or no endpoint is recorded, nothing is sent; in
    every case the buffer is empty afterwards, so a line typed before the
    first datagram has arrived is lost. *)
Theorem console_line_is_sent_once
        (env : Env) (s : St) (line : list ascii) (nl : ascii) (nls : list ascii)
        (fuel : nat) :
  forallb (fun c => negb (is_newline c)) line = true ->
  nul_free (serialInputBuffer s ++ string_of_list_ascii line) = true ->
  forallb is_newline (nl :: nls) = true ->
  feeds env (serial_next s) (line ++ nl :: nls) ->
  serial_in env (serial_next s + List.length (line ++ nl :: nls)) = None ->
  List.length (line ++ nl :: nls) < fuel ->
  let text := (serialInputBuffer s ++ string_of_list_ascii line)%string in
  exists s',
    signalTesterLoop env fuel s = (Some tt, s') /\
    trace s' =
      (trace s ++
       if (lastRemoteIp s =? 0)%N || (text =? "")%string then []
       else [EvSend (lastRemoteIp s) (lastRemotePort s) text])%list /\
    serialInputBuffer s' = "" /\
    serial_next s' = serial_next s + S (List.length (line ++ nl :: nls)).
Proof.
  intros Hline _ Hnls Hfeed Hend Hfuel. cbv zeta.
  rewrite length_app in Hend, Hfuel |- *. cbn [List.length] in Hend, Hfuel |- *.
  destruct (feeds_app env _ _ _ Hfeed) as (Hf1 & Hf2).
  cbn [forallb] in Hnls. apply andb_prop in Hnls. destruct Hnls as (Hnl & Hrest).
  replace fuel
    with (List.length line +
          S (List.length nls + S (fuel - S (List.length line + S (List.length nls)))))
    by lia.
  rewrite (signalTesterLoop_typed env line _ s Hf1 Hline).
  destruct (typed_fields line s) as (Tb & Tn & Tt & Ti & Tp).
  rewrite <- Tn in Hf2.
  destruct (signalTesterLoop_newline env
              (List.length nls + S (fuel - S (List.length line + S (List.length nls))))
              (typed line s) nl (feeds_head env _ _ _ Hf2) Hnl)
    as (x & Ex & Tx & Bx & Sx & _).
  rewrite Ex.
  destruct (signalTesterLoop_newlines env nls
              (fuel - S (List.length line + S (List.length nls))) x)
    as (y & Ey & Ty & By & Sy).
  - rewrite Sx. exact (feeds_tail env _ _ _ Hf2).
  - exact Hrest.
  - exact Bx.
  - rewrite Sx, Tn. rewrite <- Hend. f_equal. lia.
  - exists y. split; [exact Ey|]. split; [|split; [exact By|]].
    + rewrite Ty, Tx, Tt. unfold flushed. rewrite Ti, Tp, Tb. reflexivity.
    + rewrite Sy, Sx, Tn. lia.
Qed.

Lemma console_line_is_sent_once_witness :
  let s0 := boot Released in
  let s := exec (handleUDPMessages console_session)
                (exec (firmware console_session 10 1) (boot Released)) in
  (exists s',
      signalTesterLoop console_session 10 s0 = (Some tt, s') /\
      trace s' = [] /\ serialInputBuffer s' = "") /\
  (exists s',
      signalTesterLoop console_session 10 s = (Some tt, s') /\
      trace s' = (trace s ++ [EvSend operator_ip operator_port "OK"])%list /\
      serialInputBuffer s' = "").
Proof.
  cbv zeta. split.
  - destruct (console_line_is_sent_once console_session (boot Released)
                ["O"; "K"; "1"]%char "013"%char ["010"%char] 10)
      as (s' & E & T & B & _);
      try (vm_compute; reflexivity).
    + intros i c Hi.
      do 5 (destruct i as [|i]; [injection Hi as <-; reflexivity|]).
      destruct i; discriminate Hi.
    + cbn. lia.
    + exists s'. split; [exact E|]. split; [exact T | exact B].
  - destruct (console_line_is_sent_once console_session
                (exec (handleUDPMessages console_session)
                      (exec (firmware console_session 10 1) (boot Released)))
                ["O"; "K"]%char "010"%char [] 10)
      as (s' & E & T & B & _);
      try (vm_compute; reflexivity).
    + intros i c Hi.
      do 3 (destruct i as [|i]; [injection Hi as <-; vm_compute; reflexivity|]).
      destruct i; discriminate Hi.
    + cbn. lia.
    + exists s'. split; [exact E|]. split; [|exact B].
      rewrite T. vm_compute. reflexivity.
Defined.

(* ================================================================= *)
(** ** The brake at the end of a tick *)

Lemma bind_inv {A B} (m : M A) (f : A -> M B) s b s' :
  bind m f s = (Some b, s') ->
  exists a s1, m s = (Some a, s1) /\ f a s1 = (Some b, s').
Proof.
  unfold bind. destruct (m s) as [[a|] s1]; [|discriminate].
  intros H. exists a, s1. split; [reflexivity | exact H].
Qed.

Lemma ends_released_release : ends_released servoBrakeRelease.
Proof. intros s a s' H. injection H as _ <-. reflexivity. Qed.

Lemma ends_released_bind {A B} (m : M A) (f : A -> M B) :
  (forall a, ends_released (f a)) -> ends_released (bind m f).
Proof.
  intros Hf s b s' H. destruct (bind_inv _ _ _ _ _ H) as (a & s1 & _ & H2).
  exact (Hf a s1 b s' H2).
Qed.

Lemma matches_replies cmd :
  matches_any cmd replies = true -> cmd = "OK1" \/ cmd = "Continue".
Proof.
  intros H. apply matches_any_In in H. destruct H as [H|[H|[]]]; auto.
Qed.

Lemma low_block_ends_released env fuel :
  ends_released
    (sendUDPMessageToLast "LowDamp" ;;
     servoBrakeWeak ;;
     cmd <- waitForCmdAny env fuel ["OK1"; "Continue"] ;;
     if (cmd =? "OK1")%string then servoBrakeRelease
     else if (cmd =? "Continue")%string then
       waitShortPull env fuel ;;
       sendUDPMessageToLast "Keep" ;;
       waitForCmd env fuel "OK2" ;;
       servoBrakeRelease
     else ret tt).
Proof.
  apply ends_released_bind. intros _. apply ends_released_bind. intros _.
  intros s a s' H. destruct (bind_inv _ _ _ _ _ H) as (cmd & y & Hw & Hb).
  destruct (waitForCmdAny_inv _ _ _ _ _ _ Hw) as (k & _ & (_ & Hin & _) & _).
  destruct (matches_replies cmd Hin) as [-> | ->];
    cbn [String.eqb Ascii.eqb Bool.eqb] in Hb.
  - exact (ends_released_release _ _ _ Hb).
  - revert Hb. apply ends_released_bind. intros _.
    apply ends_released_bind. intros _. apply ends_released_bind. intros _.
    apply ends_released_release.
Qed.

Lemma high_block_ends_released env fuel :
  ends_released
    (sendUDPMessageToLast "HighDamp" ;;
     servoBrakeLock ;;
     waitForCmd env fuel "OK" ;;
     servoBrakeRelease).
Proof.
  apply ends_released_bind. intros _. apply ends_released_bind. intros _.
  apply ends_released_bind. intros _. apply ends_released_release.
Qed.

Lemma profile_stable env c : Stable env (fun s => currentArray s = c).
Proof. by_effect; assumption. Qed.

Lemma low_damping_post env fuel d x s' :
  low_damping env fuel d x = (Some tt, s') ->
  (Qle_bool (nth 3 (currentArray x) 0%Q) d = true -> brake s' = Released) /\
  (Qle_bool (nth 3 (currentArray x) 0%Q) d = false -> s' = x).
Proof.
  unfold low_damping.
  rewrite (bind_done (threshold 3) _ x _ x eq_refl).
  destruct (Qle_bool (nth 3 (currentArray x) 0%Q) d); cbn [when]; intros H.
  - split; [intros _ | discriminate].
    exact (low_block_ends_released env fuel _ _ _ H).
  - split; [discriminate | intros _]. injection H as <-. reflexivity.
Qed.

Lemma kept_by_run {A} (P : St -> Prop) (m : M A) s a x :
  preserves P m -> P s -> m s = (Some a, x) -> P x.
Proof.
  intros Hp Hs E. specialize (Hp s Hs). unfold exec in Hp. rewrite E in Hp.
  exact Hp.
Qed.

Lemma tick_prefix_keeps_profile env fuel c :
  preserves (fun y => currentArray y = c) (tick_prefix env fuel).
Proof.
  unfold tick_prefix, threshold, servoBrakeLock, servoBrakeRelease.
  frame; preserved (profile_stable env c).
Qed.

Lemma notification_keeps_profile (env : Env) b msg c :
  preserves (fun y => currentArray y = c) (when b (sendUDPMessageToLast msg)).
Proof. frame. preserved (profile_stable env c). Qed.

Lemma tick_prefix_post env fuel s d x :
  tick_prefix env fuel s = (Some d, x) ->
  d = dist_in env (dist_next s) /\
  currentArray x = currentArray s /\
  (Qle_bool (nth 2 (currentArray s) 0%Q) d = true -> brake x = Released).
Proof.
  intros H.
  pose proof (kept_by_run _ _ _ _ _
                (tick_prefix_keeps_profile env fuel (currentArray s)) eq_refl H) as Hc.
  unfold tick_prefix in H.
  rewrite (bind_done (readDistance env) _ s _ (step_dist s) eq_refl) in H.
  rewrite (bind_done (threshold 0) _ _ _ _ eq_refl) in H.
  apply bind_inv in H. destruct H as ([] & x1 & H1 & H).
  pose proof (kept_by_run _ _ (step_dist s) _ _
                (notification_keeps_profile env _ _ (currentArray s)) eq_refl H1) as C1.
  rewrite (bind_done (threshold 1) _ _ _ _ eq_refl) in H.
  apply bind_inv in H. destruct H as ([] & x2 & H2 & H).
  pose proof (kept_by_run _ _ x1 _ _
                (notification_keeps_profile env _ _ (currentArray s)) C1 H2) as C2.
  rewrite (bind_done (threshold 2) _ _ _ _ eq_refl) in H.
  rewrite C2 in H.
  apply bind_inv in H. destruct H as ([] & x3 & H3 & H).
  injection H as <- <-.
  split; [reflexivity|]. split; [exact Hc|].
  intros Hle. rewrite Hle in H3. cbn [when] in H3.
  exact (high_block_ends_released env fuel _ _ _ H3).
Qed.

(** X15. A completed tick never leaves the brake engaged by a damping
    stage: whenever [processEncoderEvents] returns in an active run with a
    reading that had reached the third or the fourth threshold, the brake
    is released, whichever acknowledgments the operator chose. *)
Theorem completed_damping_tick_releases
        (env : Env) (fuel : nat) (s s' : St) :
  sequenceRunning s = true ->
  processEncoderEvents env fuel s = (Some tt, s') ->
  (nth 2 (currentArray s) 0 <= dist_in env (dist_next s))%Q \/
  (nth 3 (currentArray s) 0 <= dist_in env (dist_next s))%Q ->
  brake s' = Released.
Proof.
  intros Hrun H Hreach. rewrite (tick_split env fuel s Hrun) in H.
  apply bind_inv in H. destruct H as (d & x & Hpre & Hlow).
  destruct (tick_prefix_post env fuel s d x Hpre) as (-> & Hc & Hx).
  destruct (low_damping_post env fuel _ x s' Hlow) as (Hyes & Hno).
  rewrite Hc in Hyes, Hno.
  destruct (Qle_bool (nth 3 (currentArray s) 0%Q) (dist_in env (dist_next s))) eqn:E3.
  - apply Hyes. reflexivity.
  - rewrite (Hno eq_refl). apply Hx.
    destruct Hreach as [H2|H3]; [apply Qle_bool_iff; exact H2|].
    apply Qle_bool_iff in H3. congruence.
Qed.

Lemma completed_damping_tick_releases_witness :
  let s := before_tick session 10 4 Released in
  sequenceRunning s = true /\
  dist_in session (dist_next s) = 42 # 1 /\
  outcome (processEncoderEvents session 10) s = Some tt /\
  brake (exec (processEncoderEvents session 10) s) = Released.
Proof.
  cbv zeta.
  assert (Hrun : sequenceRunning (before_tick session 10 4 Released) = true)
    by (vm_compute; reflexivity).
  split; [exact Hrun|]. do 2 (split; [vm_compute; reflexivity|]).
  apply (completed_damping_tick_releases session 10
           (before_tick session 10 4 Released) _ Hrun).
  - vm_compute. reflexivity.
  - left. vm_compute. discriminate.
Defined.

(* ================================================================= *)
(** ** The bank and the generator *)

(** X16. [eventsInit] fills the bank row by row from the first 40 draws
    of the generator: threshold [j] of profile [i] is made of draw number
    [4 i + j], reduced to the range of column [j].  The generator is then
    at draw 40, which is the one the first [startEventSequence] uses to
    select the active profile. *)
Theorem bank_is_determined_by_the_draws (env : Env) (b : BrakeState) :
  let s := exec (setup env) (boot b) in
  rand_next s = 40 /\
  (forall i j,
      i < 10 -> j < 4 ->
      nth j (nth i (distanceArrays s) []) 0%Q =
        inject_Z (Arduino.random_of (5 + 10 * Z.of_nat j) (15 + 10 * Z.of_nat j)
                                    (rand_in env (4 * i + j)))) /\
  currentArray (exec (startEventSequence env) s) =
    nth (Z.to_nat (Arduino.random_of 0 10 (rand_in env 40))) (distanceArrays s) [].
Proof.
  cbv zeta. split; [reflexivity|]. split.
  - intros i j Hi Hj.
    do 10 (destruct i as [|i];
           [do 4 (destruct j as [|j];
                  [cbv -[Arduino.random_of inject_Z rand_in]; reflexivity|]);
            exfalso; lia|]).
    exfalso; lia.
  - assert (Hs : arrays_shaped (exec (setup env) (boot b))).
    { unfold arrays_shaped. cbv -[Arduino.random_of inject_Z rand_in].
      split; [reflexivity|]. split; [|reflexivity]. repeat constructor. }
    unfold exec at 1. rewrite (startEventSequence_copies env _ Hs). reflexivity.
Qed.
